(** * PDF-OCR-RENAME: the watcher's readiness gate, code normalisation and
    relocation logic of [app.py], embedded in Rocq.

    Python [str] values are modelled as [string] (sequences of 8-bit
    characters: the model covers ASCII text; non-ASCII code points are outside
    it).  The file system is a finite map from paths to documents together
    with a finite set of directories, threaded through a state-and-exception
    monad.  The external collaborators (pikepdf, pdfminer, the OCR engine, the
    operating system's failures) are section variables. *)

From Stdlib Require Import ZArith NArith Ascii Lia.
From stdpp Require Import gmap strings sorting pretty.

Local Open Scope char_scope.
Local Open Scope stdpp_scope.

(** ** Characters *)

Definition is_digit (c : ascii) : bool :=
  ((48 <=? N_of_ascii c) && (N_of_ascii c <=? 57))%N.

Definition is_upper (c : ascii) : bool :=
  ((65 <=? N_of_ascii c) && (N_of_ascii c <=? 90))%N.

Definition is_lower (c : ascii) : bool :=
  ((97 <=? N_of_ascii c) && (N_of_ascii c <=? 122))%N.

Definition upper_char (c : ascii) : ascii :=
  if is_lower c then ascii_of_N (N_of_ascii c - 32) else c.

Definition lower_char (c : ascii) : ascii :=
  if is_upper c then ascii_of_N (N_of_ascii c + 32) else c.

(** ** The [str] methods used by the program *)

Module Str.

(** [s[n:]] *)
Fixpoint drop (n : nat) (s : string) : string :=
  match n, s with
  | O, _ => s
  | S n', String _ s' => drop n' s'
  | S _, EmptyString => EmptyString
  end.

(** [s[:n]] *)
Fixpoint take (n : nat) (s : string) : string :=
  match n, s with
  | S n', String c s' => String c (take n' s')
  | _, _ => EmptyString
  end.

(** [s[:-n]] for [n > 0] *)
Definition drop_last (n : nat) (s : string) : string :=
  take (String.length s - n) s.

(** [s.startswith(p)] *)
Fixpoint startswith (p s : string) : bool :=
  match p, s with
  | EmptyString, _ => true
  | String a p', String b s' => Ascii.eqb a b && startswith p' s'
  | String _ _, EmptyString => false
  end.

(** [s.endswith(p)] *)
Definition endswith (p s : string) : bool :=
  (String.length p <=? String.length s)%nat
  && String.eqb (drop (String.length s - String.length p) s) p.

(** [s.replace(old, new)] for a one-character [old] *)
Fixpoint replace (old : ascii) (new : string) (s : string) : string :=
  match s with
  | EmptyString => EmptyString
  | String c s' =>
      if Ascii.eqb c old then new +:+ replace old new s'
      else String c (replace old new s')
  end.

(** [s.upper()] *)
Fixpoint upper (s : string) : string :=
  match s with
  | EmptyString => EmptyString
  | String c s' => String (upper_char c) (upper s')
  end.

Fixpoint zeros (n : nat) : string :=
  match n with
  | O => EmptyString
  | S n' => String "0" (zeros n')
  end.

(** [s.zfill(width)]: the zeros go after a leading sign *)
Definition zfill (width : nat) (s : string) : string :=
  let pad := zeros (width - String.length s) in
  match s with
  | String c s' =>
      if Ascii.eqb c "+" || Ascii.eqb c "-" then String c (pad +:+ s')
      else pad +:+ s
  | EmptyString => pad
  end.

(** [sep.join(l)] *)
Definition join (sep : string) (l : list string) : string :=
  String.concat sep l.

(** every character of [s] satisfies [p] *)
Fixpoint all (p : ascii -> bool) (s : string) : bool :=
  match s with
  | EmptyString => true
  | String c s' => p c && all p s'
  end.

End Str.

(** ** A backtracking matcher for the fragment of [re] the program uses

    Alternatives are tried left to right, [?] and [{lo,hi}] are greedy and
    give characters back one at a time, as Python's [re] does.  Repetition is
    only needed for character classes. *)

Module Re.

Inductive regex : Type :=
| Chr (c : ascii)                                  (* a literal *)
| Cls (p : ascii -> bool) (lo : nat) (hi : option nat) (* [class]{lo,hi} *)
| Seq (r1 r2 : regex)
| Alt (r1 r2 : regex)
| Opt (r : regex)                                  (* r? *)
| Grp (r : regex).                                 (* ( r ) *)

(** [re.IGNORECASE] *)
Definition chr_eq (ic : bool) (c x : ascii) : bool :=
  if ic then Ascii.eqb (lower_char c) (lower_char x) else Ascii.eqb c x.

Definition cls_ok (ic : bool) (p : ascii -> bool) (x : ascii) : bool :=
  if ic then p x || p (lower_char x) || p (upper_char x) else p x.

(** length of the longest run of class characters at the head of [s],
    capped by [limit] *)
Fixpoint span (p : ascii -> bool) (limit : option nat) (s : string) : nat :=
  match s with
  | String c s' =>
      if p c then
        match limit with
        | Some O => O
        | Some (S l) => S (span p (Some l) s')
        | None => S (span p None s')
        end
      else O
  | EmptyString => O
  end.

(** try to continue after [n], [n-1], ..., [lo] characters *)
Fixpoint backoff {R} (lo n : nat) (s : string) (k : string -> option R)
  : option R :=
  match k (Str.drop n s) with
  | Some x => Some x
  | None =>
      match n with
      | S n' => if (lo <=? n')%nat then backoff lo n' s k else None
      | O => None
      end
  end.

(** the text between the start of [s] and the start of its suffix [rest] *)
Definition consumed (s rest : string) : string :=
  Str.take (String.length s - String.length rest) s.

(** [rmatch ic r s k]: match [r] at the head of [s]; the continuation
    receives the unmatched rest and the groups captured by [r], in the order
    of their opening parentheses. *)
Fixpoint rmatch {R} (ic : bool) (r : regex) (s : string)
    (k : string -> list string -> option R) {struct r} : option R :=
  match r with
  | Chr c =>
      match s with
      | String x s' => if chr_eq ic c x then k s' [] else None
      | EmptyString => None
      end
  | Cls p lo hi =>
      let n := span (cls_ok ic p) hi s in
      if (n <? lo)%nat then None
      else backoff lo n s (fun s' => k s' [])
  | Seq r1 r2 =>
      rmatch ic r1 s (fun s1 g1 =>
        rmatch ic r2 s1 (fun s2 g2 => k s2 (g1 ++ g2)))
  | Alt r1 r2 =>
      match rmatch ic r1 s k with
      | Some x => Some x
      | None => rmatch ic r2 s k
      end
  | Opt r1 =>
      match rmatch ic r1 s k with
      | Some x => Some x
      | None => k s []
      end
  | Grp r1 =>
      rmatch ic r1 s (fun s' g => k s' (consumed s s' :: g))
  end.

(** [re.match(r, s)]: anchored at the start only; the groups on success *)
Definition re_match (ic : bool) (r : regex) (s : string)
  : option (list string) :=
  rmatch ic r s (fun _ g => Some g).

(** [re.fullmatch(r, s)]: the whole of [s] has to be matched *)
Definition fullmatch (ic : bool) (r : regex) (s : string) : bool :=
  match rmatch ic r s (fun rest _ => if String.eqb rest "" then Some () else None) with
  | Some _ => true
  | None => false
  end.

(** the leftmost match starting exactly at the head of [s] *)
Definition match_here (ic : bool) (r : regex) (s : string) : option string :=
  rmatch ic r s (fun rest _ => Some (consumed s rest)).

(** [re.findall(r, s)] for a pattern without capturing groups: the
    non-overlapping matches, scanning left to right.  [skip] counts the
    characters still covered by the previous match. *)
Fixpoint findall_from (ic : bool) (r : regex) (skip : nat) (s : string)
  : list string :=
  match s with
  | EmptyString =>
      match skip, match_here ic r EmptyString with
      | O, Some m => [m]
      | _, _ => []
      end
  | String _ s' =>
      match skip with
      | S n => findall_from ic r n s'
      | O =>
          match match_here ic r s with
          | Some m => m :: findall_from ic r (String.length m - 1) s'
          | None => findall_from ic r 0 s'
          end
      end
  end.

Definition findall (ic : bool) (r : regex) (s : string) : list string :=
  findall_from ic r 0 s.

(** a literal word *)
Fixpoint word (s : string) : regex :=
  match s with
  | EmptyString => Cls (fun _ => false) 0 (Some 0)
  | String c EmptyString => Chr c
  | String c s' => Seq (Chr c) (word s')
  end.

(** *** Declarative reading of a pattern, for the proofs

    [lang ic r s g]: the text [s] is one way of matching [r], capturing
    the groups [g]. *)
Fixpoint lang (ic : bool) (r : regex) (s : string) (g : list string) : Prop :=
  match r with
  | Chr c => exists x, s = String x EmptyString /\ chr_eq ic c x = true /\ g = []
  | Cls p lo hi =>
      Str.all (cls_ok ic p) s = true /\ lo <= String.length s
      /\ (forall h, hi = Some h -> String.length s <= h) /\ g = []
  | Seq r1 r2 =>
      exists s1 s2 g1 g2,
        s = s1 +:+ s2 /\ g = g1 ++ g2 /\ lang ic r1 s1 g1 /\ lang ic r2 s2 g2
  | Alt r1 r2 => lang ic r1 s g \/ lang ic r2 s g
  | Opt r1 => lang ic r1 s g \/ (s = EmptyString /\ g = [])
  | Grp r1 => exists g1, g = s :: g1 /\ lang ic r1 s g1
  end.

End Re.

Import Re.

(** ** The two patterns of the program *)

Definition dash : regex := Chr "-".
Definition digits (lo hi : nat) : regex := Cls is_digit lo (Some hi).

(** the tokens a candidate can start with (line 151) *)
Definition code_words : list string := ["P0"; "PO"; "SPO"; "RNWS"; "SGR"; "SSR"].

(** line 151: [(?:P0|PO|SPO|RNWS|SGR|SSR) ?\d?-?\d{1,2}-\d{1,4}] *)
Definition candidate_pattern : regex :=
  Seq (Alt (word "P0") (Alt (word "PO") (Alt (word "SPO")
        (Alt (word "RNWS") (Alt (word "SGR") (word "SSR"))))))
   (Seq (Opt (Chr " "))
   (Seq (digits 0 1)
   (Seq (Opt dash)
   (Seq (digits 1 2)
   (Seq dash (digits 1 4)))))).

(** line 119: [([A-Z]+)[-]?(\d{1,2})[-]?(\d{1,4})] *)
Definition code_tail : regex :=
  Seq (Opt dash) (Seq (Grp (digits 1 2)) (Seq (Opt dash) (Grp (digits 1 4)))).

Definition code_pattern : regex := Seq (Grp (Cls is_upper 1 None)) code_tail.

(** the canonical form [^[A-Z]+-\d{2}-\d{4}$] *)
Definition canonical_pattern : regex :=
  Seq (Cls is_upper 1 None)
   (Seq dash (Seq (digits 2 2) (Seq dash (digits 4 4)))).

Definition is_canonical (s : string) : bool := fullmatch false canonical_pattern s.

(** what the three groups of [code_pattern] hold *)
Definition code_groups (prefix g2 g3 : string) : Prop :=
  Str.all is_upper prefix = true /\ 1 <= String.length prefix
  /\ Str.all is_digit g2 = true /\ 1 <= String.length g2 <= 2
  /\ Str.all is_digit g3 = true /\ 1 <= String.length g3 <= 4.

(** ** [autocorrect_match] (lines 105-135) *)

(** lines 106-117 *)
Definition strip_spaces (m : string) : string := Str.replace " " "" m.

Definition fix_prefix (m : string) : string :=
  if Str.startswith "P0-" m then "PO" +:+ Str.drop 2 m
  else if Str.startswith "PQ-" m then "PO" +:+ Str.drop 2 m
  else if Str.startswith "RNW-" m then "RNWS" +:+ Str.drop 3 m
  else if Str.startswith "5P0-" m then "SPO" +:+ Str.drop 3 m
  else if Str.startswith "56R-" m then "SGR" +:+ Str.drop 3 m
  else m.

(** line 126 and line 127 *)
Definition unconfuse (s : string) : string :=
  Str.replace "G" "6" (Str.replace "Z" "2" (Str.replace "B" "8"
    (Str.replace "S" "5" (Str.replace "I" "1" (Str.replace "O" "0" s))))).

Definition locked_prefixes : list string := ["PO"; "SPO"; "RNWS"; "SGR"; "SSR"].

Definition is_locked (prefix : string) : bool :=
  bool_decide (prefix ∈ locked_prefixes).

(** lines 129-132 *)
Definition assemble (prefix second_part last_part : string) : string :=
  let second_part :=
    if is_locked prefix then "2" +:+ Str.drop 1 second_part else second_part in
  prefix +:+ "-" +:+ second_part +:+ "-" +:+ last_part.

Definition autocorrect_match (m : string) : string :=
  let m := fix_prefix (strip_spaces m) in
  match re_match false code_pattern m with
  | Some [prefix; g2; g3] =>
      let second_part := unconfuse (Str.zfill 2 g2) in
      let last_part := unconfuse (Str.zfill 4 g3) in
      assemble prefix second_part last_part
  | _ => m
  end.

(** The same function with the two [replace] chains of lines 126-127 taken
    out, to compare with [autocorrect_match]. *)
Definition autocorrect_match_no_replace (m : string) : string :=
  let m := fix_prefix (strip_spaces m) in
  match re_match false code_pattern m with
  | Some [prefix; g2; g3] => assemble prefix (Str.zfill 2 g2) (Str.zfill 4 g3)
  | _ => m
  end.

(** lines 151-152: the uppercased candidates found in a text *)
Definition candidates (text : string) : list string :=
  Str.upper <$> findall true candidate_pattern text.

(** lines 156-157: [list(set(matches))] followed by [sort()]; the order in
    which the set is listed does not matter once the distinct strings are
    sorted by code point. *)
Definition sorted_unique (l : list string) : list string :=
  merge_sort String.le (remove_dups l).

(** lines 158-161 *)
Definition max_length : nat := 150 - 4.

Definition final_name_of (matches : list string) : string :=
  let final_name := Str.join "_" matches +:+ ".pdf" in
  if (max_length <? String.length final_name)%nat
  then Str.take max_length final_name +:+ ".pdf"
  else final_name.

(** ** Paths ([posixpath]) *)

Definition no_slash (c : ascii) : bool := negb (Ascii.eqb c "/").

Module Path.

(** [(p[:i], p[i:])] for [i = p.rfind('/') + 1] *)
Fixpoint split_last (p : string) : string * string :=
  match p with
  | EmptyString => (EmptyString, EmptyString)
  | String c p' =>
      match split_last p' with
      | (EmptyString, _) =>
          if Ascii.eqb c "/" then (String c EmptyString, p')
          else (EmptyString, p)
      | (h, t) => (String c h, t)
      end
  end.

(** [head.rstrip('/')] *)
Fixpoint rstrip_slash (s : string) : string :=
  match s with
  | EmptyString => EmptyString
  | String c s' =>
      match rstrip_slash s' with
      | EmptyString => if Ascii.eqb c "/" then EmptyString else String c EmptyString
      | r => String c r
      end
  end.

Definition basename (p : string) : string := snd (split_last p).

Definition dirname (p : string) : string :=
  let head := fst (split_last p) in
  match rstrip_slash head with
  | EmptyString => head          (* empty, or nothing but slashes *)
  | stripped => stripped
  end.

(** [os.path.join(a, b)] *)
Definition join (a b : string) : string :=
  if Str.startswith "/" b then b
  else if String.eqb a "" || Str.endswith "/" a then a +:+ b
  else a +:+ "/" +:+ b.

End Path.

(** ** The file system and the effects of the classification stage *)

Inductive exn : Type :=
| FileNotFoundError
| FileExistsError
| IsADirectoryError
| ShutilError        (* shutil.Error: destination path already exists *)
| PDFSyntaxError     (* pdfminer cannot read the document *)
| OSError.           (* a failure of the environment: permissions, I/O *)

(** what the stage prints and how long it sleeps *)
Inductive event : Type :=
| EvProcessing (path : string)
| EvSleep (seconds : nat)
| EvMoved (final_name : string)
| EvNoPattern (path : string)
| EvError (path : string) (e : exn)
| EvQuarantined (path : string).

Record world : Type := World {
  files : gmap string string;   (* regular files: path to bytes *)
  dirs : gset string;           (* directories *)
  log : list event
}.

Inductive result (A : Type) : Type :=
| Ok (a : A) (w : world)
| Raise (e : exn) (w : world)
| Diverge.                      (* a loop that ran out of its bound *)
Arguments Ok {A} a w.
Arguments Raise {A} e w.
Arguments Diverge {A}.

Definition M (A : Type) : Type := world -> result A.

Definition ret {A} (a : A) : M A := fun w => Ok a w.

Definition bind {A B} (f : A -> M B) (m : M A) : M B :=
  fun w =>
    match m w with
    | Ok a w' => f a w'
    | Raise e w' => Raise e w'
    | Diverge => Diverge
    end.

#[global] Instance M_ret : MRet M := @ret.
#[global] Instance M_bind : MBind M := @bind.

Definition raise {A} (e : exn) : M A := fun w => Raise e w.

(** [try: body  except Exception as e: handler(e)] *)
Definition try_except {A} (body : M A) (handler : exn -> M A) : M A :=
  fun w =>
    match body w with
    | Ok a w' => Ok a w'
    | Raise e w' => handler e w'
    | Diverge => Diverge
    end.

Definition emit (ev : event) : M unit :=
  fun w => Ok tt (World (files w) (dirs w) (log w ++ [ev])).

(** a computation that ends, normally or by an exception, from every world *)
Definition returns {A} (m : M A) : Prop := forall w, m w <> Diverge.

Definition is_file (p : string) (w : world) : bool :=
  bool_decide (is_Some (files w !! p)).

Definition is_dir (p : string) (w : world) : bool :=
  bool_decide (p ∈ dirs w).

Definition path_exists (p : string) (w : world) : bool :=
  is_file p w || is_dir p w.

(** the directory an entry is created in must exist; the empty [dirname]
    is the working directory *)
Definition parent_exists (p : string) (w : world) : bool :=
  let d := Path.dirname p in
  String.eqb d "" || String.eqb d "/" || is_dir d w.

(** the places where the operating system or a library can fail *)
Inductive site : Type :=
| AtExtract | AtRename | AtMoveFinal | AtMoveUnmatched | AtMkdir | AtMoveError.

Section Classification.

(** [pdfminer]: the text layer of a document's bytes, [None] when
    [extract_text] raises on them. *)
Variable pdfminer : string -> option string.

(** The environment chooses which library calls fail (a read-only directory,
    an I/O error); such a call raises [OSError] and changes nothing. *)
Variable io_fault : site -> bool.

(** lines 69-103: the ingest stage, a parameter of the event handler. *)
Variable execute_ocrmypdf : string -> M unit.

Definition guarded {A} (s : site) (m : M A) : M A :=
  if io_fault s then raise OSError else m.

(** [extract_text(path)] *)
Definition extract_text (path : string) : M string :=
  guarded AtExtract (fun w =>
    match files w !! path with
    | None => Raise FileNotFoundError w
    | Some bytes =>
        match pdfminer bytes with
        | Some text => Ok text w
        | None => Raise PDFSyntaxError w
        end
    end).

(** [os.rename(src, dst)] on regular files: an existing file at [dst] is
    replaced silently. *)
Definition rename_file (src dst : string) : M unit :=
  fun w =>
    match files w !! src with
    | None => Raise FileNotFoundError w
    | Some bytes =>
        if is_dir dst w then Raise IsADirectoryError w
        else if negb (parent_exists dst w) then Raise FileNotFoundError w
        else Ok tt (World (<[dst := bytes]> (delete src (files w)))
                          (dirs w) (log w))
    end.

Definition os_rename (s : site) (src dst : string) : M unit :=
  guarded s (rename_file src dst).

(** [shutil.move(src, dst)] for a regular file [src]: into [dst] when it is
    a directory (refusing to replace an entry of the same name there),
    onto [dst] otherwise.  Its copy-and-delete fallback fails where the
    rename does. *)
Definition shutil_move (s : site) (src dst : string) : M unit :=
  guarded s (fun w =>
    if is_dir dst w then
      let real_dst := Path.join dst (Path.basename src) in
      if path_exists real_dst w then Raise ShutilError w
      else rename_file src real_dst w
    else rename_file src dst w).

(** [os.mkdir(p)] *)
Definition os_mkdir (s : site) (p : string) : M unit :=
  guarded s (fun w =>
    if path_exists p w then Raise FileExistsError w
    else if negb (parent_exists p w) then Raise FileNotFoundError w
    else Ok tt (World (files w) ({[p]} ∪ dirs w) (log w))).

Definition os_path_exists (p : string) : M bool :=
  fun w => Ok (path_exists p w) w.

(** line 165: the name probed for suffix [num] *)
Definition numbered (final_name : string) (num : nat) : string :=
  Str.drop_last 4 final_name +:+ "(" +:+ pretty num +:+ ").pdf".

(** lines 164-166: [while os.path.exists(...): num += 1], at most [bound]
    probes *)
Fixpoint probe (bound num : nat) (final_name : string) (w : world)
  : option nat :=
  match bound with
  | O => None
  | S b =>
      if path_exists (Path.join "final-output" (numbered final_name num)) w
      then probe b (S num) final_name w
      else Some num
  end.

(** more probes than there are entries in the file system *)
Definition probe_bound (w : world) : nat :=
  S (size (dom (files w) ∪ dirs w)).

(** lines 163-167 *)
Definition resolve_collision (final_name : string) : M string :=
  fun w =>
    if path_exists (Path.join "final-output" final_name) w then
      match probe (probe_bound w) 1 final_name w with
      | Some num => Ok (numbered final_name num) w
      | None => Diverge
      end
    else Ok final_name w.

(** lines 175-180 *)
Definition quarantine (path : string) (e : exn) : M unit :=
  emit (EvError path e) ;;
  there ← os_path_exists path ;
  if there : bool then
    (have_dir ← os_path_exists "ERROR" ;
     if have_dir : bool then ret tt else os_mkdir AtMkdir "ERROR") ;;
    shutil_move AtMoveError path (Path.join "ERROR" (Path.basename path)) ;;
    emit (EvQuarantined path)
  else ret tt.

(** lines 150-173.  The [else:] of line 171 carries the "No pattern found"
    branch: it is the alternative of [if matches:] (line 154), whose body
    runs to line 170. *)
Definition classify (path : string) : M unit :=
  text ← extract_text path ;
  let matches := candidates text in
  match matches with
  | _ :: _ =>
      let matches := sorted_unique (autocorrect_match <$> matches) in
      final_name ← resolve_collision (final_name_of matches) ;
      os_rename AtRename path (Path.join (Path.dirname path) final_name) ;;
      shutil_move AtMoveFinal
        (Path.join (Path.dirname path) final_name) "final-output" ;;
      emit (EvMoved final_name)
  | [] =>
      shutil_move AtMoveUnmatched path
        (Path.join "final-output" (Path.basename path)) ;;
      emit (EvNoPattern path)
  end.

(** lines 143-180 *)
Definition process_pdf (path : string) : M unit :=
  if Str.endswith ".pdf" path then
    emit (EvProcessing path) ;;
    emit (EvSleep 3) ;;
    try_except (classify path) (quarantine path)
  else ret tt.

(** line 39 *)
Definition PATTERNS : list string := ["*.pdf"; "*.PDF"].

(** a pattern [*suffix] accepts the paths that end in [suffix] *)
Definition pattern_accepts (pattern path : string) : bool :=
  match pattern with
  | String "*" suffix => Str.endswith suffix path
  | _ => String.eqb pattern path
  end.

Definition watched (path : string) : bool :=
  existsb (fun pattern => pattern_accepts pattern path) PATTERNS.

Record fs_event : Type := FsEvent {
  event_type : string;
  src_path : string
}.

(** lines 138-141 *)
Definition on_any_event (ev : fs_event) : M unit :=
  if bool_decide (event_type ev ∈ ["created"]) then
    execute_ocrmypdf (src_path ev) ;;
    process_pdf (src_path ev)
  else ret tt.

End Classification.

(** ** The readiness gate (lines 54-67) *)

(** what one call of [pikepdf.open] does *)
Inductive open_outcome : Type :=
| Opened
| NotFound          (* FileNotFoundError *)
| Malformed         (* pikepdf.PdfError *)
| OtherError.       (* any exception the loop does not catch *)

Inductive gate_event : Type :=
| GateNotReady                (* the two log lines of lines 60-61 *)
| GateSleep (seconds : Z)
| GateClose.                  (* pdf.close() *)

(** the exceptions that leave the gate *)
Inductive gate_exn : Type :=
| Uncaught        (* raised by [pikepdf.open] and not caught by line 59 *)
| ValueError.     (* [time.sleep] refuses a negative interval (line 62) *)

Inductive gate_result : Type :=
| Returned (ready : bool)
| Escaped (e : gate_exn).     (* an exception left the function *)

Section ReadinessGate.

Variable RETRIES_LOADING_FILE : Z.
Variable POLL_NEW_FILE_SECONDS : Z.

(** the outcome of the [i]-th call of [pikepdf.open] on the path, counting
    from 0 *)
Variable pikepdf_open : nat -> open_outcome.

(** The loop of lines 56-66; [fuel] bounds the number of iterations,
    [calls] counts the [pikepdf.open] calls made so far.  The sleep of line
    62 is inside the [except] block: with a negative interval it raises
    [ValueError] once the two lines are logged, and nothing catches it. *)
Fixpoint wait_loop (fuel : nat) (retries : Z) (calls : nat)
    (trace : list gate_event) : option (gate_result * list gate_event) :=
  match fuel with
  | O => None
  | S fuel' =>
      if (retries =? 0)%Z then Some (Returned false, trace)
      else
        match pikepdf_open calls with
        | Opened => Some (Returned true, trace ++ [GateClose])
        | NotFound | Malformed =>
            if (POLL_NEW_FILE_SECONDS <? 0)%Z
            then Some (Escaped ValueError, trace ++ [GateNotReady])
            else
              wait_loop fuel' (retries - 1) (S calls)
                (trace ++ [GateNotReady; GateSleep POLL_NEW_FILE_SECONDS])
        | OtherError => Some (Escaped Uncaught, trace)
        end
  end.

Definition wait_for_file_ready (fuel : nat)
  : option (gate_result * list gate_event) :=
  wait_loop fuel RETRIES_LOADING_FILE 0 [].

End ReadinessGate.

(** the sleeps of a run of the gate, in order *)
Fixpoint sleeps (trace : list gate_event) : list Z :=
  match trace with
  | [] => []
  | GateSleep seconds :: trace' => seconds :: sleeps trace'
  | _ :: trace' => sleeps trace'
  end.

(** ** Start-up configuration (lines 24-39) *)

(** [s.lower()] *)
Fixpoint lower (s : string) : string :=
  match s with
  | EmptyString => EmptyString
  | String c s' => String (lower_char c) (lower s')
  end.

(** [os.getenv(name, default)] on the process environment *)
Definition getenv (environ : gmap string string) (name default : string)
  : string :=
  match environ !! name with
  | Some value => value
  | None => default
  end.

(** lines 24-25; every caller leaves [default] at ['False'] *)
Definition getenv_bool (environ : gmap string string) (name default : string)
  : bool :=
  bool_decide (lower (getenv environ name default) ∈ ["true"; "yes"; "y"; "1"]).

(** ** [pathlib]: pure paths of the POSIX flavour

    A path is its root ([""], ["/"] or ["//"]) and its components; empty
    components and [.] are dropped when a path is built, [..] is kept. *)

Module Pathlib.

Record path : Type := MkPath {
  root : string;
  components : list string
}.

(** [s.split('/')] *)
Fixpoint split (s : string) : list string :=
  match s with
  | EmptyString => [EmptyString]
  | String c s' =>
      if Ascii.eqb c "/" then EmptyString :: split s'
      else
        match split s' with
        | x :: l => String c x :: l
        | [] => [String c EmptyString]
        end
  end.

(** exactly two leading slashes are kept, three or more are one *)
Definition root_of (s : string) : string :=
  if Str.startswith "///" s then "/"
  else if Str.startswith "//" s then "//"
  else if Str.startswith "/" s then "/"
  else "".

Definition kept (x : string) : bool :=
  negb (String.eqb x "" || String.eqb x ".").

(** [Path(s)] *)
Definition of_str (s : string) : path :=
  MkPath (root_of s) (List.filter kept (split s)).

(** [str(p)] *)
Definition str (p : path) : string :=
  match root p, components p with
  | EmptyString, [] => "."
  | r, l => r +:+ Str.join "/" l
  end.

(** [p / s]: a rooted [s] replaces [p] *)
Definition div (p : path) (s : string) : path :=
  let q := of_str s in
  if String.eqb (root q) "" then MkPath (root p) (components p ++ components q)
  else q.

(** [p.name] *)
Definition name (p : path) : string := List.last (components p) "".

(** a file name: not empty, not [.], without a slash *)
Definition is_name (s : string) : bool := kept s && Str.all no_slash s.

(** [p] and its ancestors below the root, outermost first *)
Fixpoint lineage_from (r : string) (above below : list string) : list string :=
  match below with
  | [] => []
  | x :: rest =>
      str (MkPath r (above ++ [x])) :: lineage_from r (above ++ [x]) rest
  end.

Definition lineage (p : path) : list string :=
  lineage_from (root p) [] (components p).

End Pathlib.

(** ** The ingest stage (lines 43-52 and 69-103) and the start-up check of
    [main] (lines 214-216)

    The stage runs on the file system of the classification stage extended
    with the access and modification times of its entries.  File-system calls
    fail only for the reasons the state shows. *)

Inductive ingest_exn : Type :=
| FsError (e : exn)       (* an exception of a file-system call *)
| NotADirectoryError
| TypeError               (* a keyword argument given twice *)
| GateError (e : gate_exn) (* an exception that left the readiness gate *)
| OcrError.               (* an exception of the OCR engine *)

(** the log lines of the stage and the events of the gate *)
Inductive ingest_event : Type :=
| IgSeparator
| IgNewFile (file_path : string)
| IgGate (ev : gate_event)
| IgGaveUp (file_path : string)
| IgAttempting (output_path : string)
| IgDeleting (file_path : string)
| IgArchiving (name directory : string)
| IgDone.

(** [f'{n:02d}'] for a natural number *)
Definition format_02d (n : nat) : string :=
  Str.zeros (2 - String.length (pretty n)) +:+ pretty n.

Section Ingest.

(** time stamps ([float] in the program) and JSON values *)
Context {timestamp json : Type}.

(** the module-level constants of lines 27-38 the stage reads *)
Record config : Type := Config {
  OUTPUT_DIRECTORY : string;
  ARCHIVE_DIRECTORY : string;
  OUTPUT_DIRECTORY_YEAR_MONTH : bool;
  ON_SUCCESS_DELETE : bool;
  ON_SUCCESS_ARCHIVE : bool;
  DESKEW : bool;
  OCR_JSON_SETTINGS : gmap string json;
  POLL_NEW_FILE_SECONDS : Z;
  RETRIES_LOADING_FILE : Z
}.

(** [(st_atime, st_mtime)] of every path; the value at a path that does not
    exist is not looked at *)
Definition stamps : Type := string -> timestamp * timestamp.

Definition set_times (p : string) (atime_mtime : timestamp * timestamp)
    (t : stamps) : stamps :=
  fun q => if String.eqb q p then atime_mtime else t q.

Record disk : Type := Disk {
  fs : world;
  times : stamps;
  journal : list ingest_event
}.

Inductive outcome (A : Type) : Type :=
| Done (a : A) (d : disk)
| Failed (e : ingest_exn) (d : disk)
| Hangs.                  (* the gate did not come to an end *)
Arguments Done {A} a d.
Arguments Failed {A} e d.
Arguments Hangs {A}.

Definition IO (A : Type) : Type := disk -> outcome A.

Definition IO_unit {A} (a : A) : IO A := fun d => Done a d.

Definition IO_then {A B} (f : A -> IO B) (m : IO A) : IO B :=
  fun d =>
    match m d with
    | Done a d' => f a d'
    | Failed e d' => Failed e d'
    | Hangs => Hangs
    end.

#[global] Instance IO_ret : MRet IO := @IO_unit.
#[global] Instance IO_bind : MBind IO := @IO_then.

Definition fail {A} (e : ingest_exn) : IO A := fun d => Failed e d.

(** a computation that comes to an end, normally or by an exception, from
    every state *)
Definition ends {A} (m : IO A) : Prop := forall d, m d <> Hangs.

Definition say (ev : ingest_event) : IO unit :=
  fun d => Done tt (Disk (fs d) (times d) (journal d ++ [ev])).

(** what one call of [ocrmypdf.ocr] does to the files and their times *)
Inductive ocr_outcome : Type :=
| OcrExit (exit_code : Z) (w : world) (t : stamps)
| OcrRaises (w : world) (t : stamps).

(** what the stage takes from its surroundings *)
Record surroundings : Type := Surroundings {
  today : nat * nat;                              (* year and month *)
  pikepdf_open : string -> nat -> open_outcome;   (* per path and attempt *)
  ocrmypdf_ocr : string -> string -> bool -> gmap string json ->
                 world -> stamps -> ocr_outcome
}.

Variable cfg : config.
Variable env : surroundings.

(** [p.exists()] *)
Definition exists_ (p : Pathlib.path) : IO bool :=
  fun d => Done (path_exists (Pathlib.str p) (fs d)) d.

(** [p.stat().st_mtime] *)
Definition stat_mtime (p : Pathlib.path) : IO timestamp :=
  fun d =>
    if path_exists (Pathlib.str p) (fs d)
    then Done (snd (times d (Pathlib.str p))) d
    else Failed (FsError FileNotFoundError) d.

(** [os.utime(p, (atime, mtime))] *)
Definition os_utime (p : string) (atime_mtime : timestamp * timestamp)
  : IO unit :=
  fun d =>
    if path_exists p (fs d)
    then Done tt (Disk (fs d) (set_times p atime_mtime (times d)) (journal d))
    else Failed (FsError FileNotFoundError) d.

(** [p.unlink()] *)
Definition unlink (p : Pathlib.path) : IO unit :=
  fun d =>
    match files (fs d) !! Pathlib.str p with
    | Some _ =>
        Done tt (Disk (World (delete (Pathlib.str p) (files (fs d)))
                             (dirs (fs d)) (log (fs d)))
                      (times d) (journal d))
    | None =>
        if is_dir (Pathlib.str p) (fs d)
        then Failed (FsError IsADirectoryError) d
        else Failed (FsError FileNotFoundError) d
    end.

(** [shutil.move(src, dst)] of the classification stage, without injected
    faults; the time stamps go with the file *)
Definition move (src dst : string) : IO unit :=
  fun d =>
    let real_dst :=
      if is_dir dst (fs d) then Path.join dst (Path.basename src) else dst in
    match shutil_move (fun _ => false) AtMoveFinal src dst (fs d) with
    | Ok _ w' =>
        Done tt (Disk w' (set_times real_dst (times d src) (times d)) (journal d))
    | Raise e w' => Failed (FsError e) (Disk w' (times d) (journal d))
    | Diverge => Hangs
    end.

(** [p.mkdir(parents=True, exist_ok=True)]: the missing directories among
    [p] and its ancestors are created; a regular file in the way stops it
    before anything is created below. *)
Fixpoint make_dirs (lineage : list string) : IO unit :=
  match lineage with
  | [] => mret tt
  | here :: below =>
      fun d =>
        if is_dir here (fs d) then make_dirs below d
        else if is_file here (fs d) then
          Failed (match below with
                  | [] => FsError FileExistsError
                  | _ => NotADirectoryError
                  end) d
        else
          make_dirs below
            (Disk (World (files (fs d)) ({[here]} ∪ dirs (fs d)) (log (fs d)))
                  (times d) (journal d))
  end.

Definition mkdir_parents (p : Pathlib.path) : IO unit :=
  make_dirs (Pathlib.lineage p).

(** lines 43-52 *)
Definition get_output_dir (root basename : string) : IO Pathlib.path :=
  if OUTPUT_DIRECTORY_YEAR_MONTH cfg then
    let '(year, month) := today env in
    let output_directory_year_month :=
      Pathlib.div (Pathlib.div (Pathlib.of_str root) (pretty year))
                  (format_02d month) in
    there ← exists_ output_directory_year_month ;
    (if there : bool then mret tt
     else mkdir_parents output_directory_year_month) ;;
    mret (Pathlib.div output_directory_year_month basename)
  else mret (Pathlib.div (Pathlib.of_str (OUTPUT_DIRECTORY cfg)) basename).

(** line 75: the readiness gate on [file_path], given [fuel] iterations *)
Definition gate (fuel : nat) (file_path : string) : IO bool :=
  fun d =>
    match wait_for_file_ready (RETRIES_LOADING_FILE cfg)
            (POLL_NEW_FILE_SECONDS cfg) (pikepdf_open env file_path) fuel with
    | Some (Returned ready, trace) =>
        Done ready (Disk (fs d) (times d) (journal d ++ (IgGate <$> trace)))
    | Some (Escaped e, trace) =>
        Failed (GateError e)
               (Disk (fs d) (times d) (journal d ++ (IgGate <$> trace)))
    | None => Hangs
    end.

(** the keywords the call of lines 83-88 spells out *)
Definition explicit_keywords : list string :=
  ["input_file"; "output_file"; "deskew"].

(** a key of [OCR_JSON_SETTINGS] repeats one of them *)
Definition keyword_clash : bool :=
  existsb (fun k => bool_decide (is_Some (OCR_JSON_SETTINGS cfg !! k)))
          explicit_keywords.

(** lines 83-88: [**OCR_JSON_SETTINGS] may not repeat a keyword of the call *)
Definition call_ocr (input_file output_file : string) : IO Z :=
  fun d =>
    if keyword_clash then Failed TypeError d
    else
      match ocrmypdf_ocr env input_file output_file (DESKEW cfg)
              (OCR_JSON_SETTINGS cfg) (fs d) (times d) with
      | OcrExit exit_code w t => Done exit_code (Disk w t (journal d))
      | OcrRaises w t => Failed OcrError (Disk w t (journal d))
      end.

(** lines 89-103: what the stage does once the engine has returned *)
Definition after_ocr (file_path output_path : Pathlib.path)
    (creation_time modification_time : timestamp) (exit_code : Z) : IO unit :=
  if (exit_code =? 0)%Z then
    os_utime (Pathlib.str output_path) (creation_time, modification_time) ;;
    if ON_SUCCESS_DELETE cfg then
      say (IgDeleting (Pathlib.str file_path)) ;;
      unlink file_path
    else if ON_SUCCESS_ARCHIVE cfg then
      say (IgArchiving (Pathlib.name file_path) (ARCHIVE_DIRECTORY cfg)) ;;
      let archive_path :=
        ARCHIVE_DIRECTORY cfg +:+ "/" +:+ Pathlib.name file_path in
      move (Pathlib.str file_path) archive_path ;;
      os_utime archive_path (creation_time, modification_time)
    else say IgDone
  else say IgDone.

(** lines 69-103 *)
Definition execute_ocrmypdf (fuel : nat) (file_path : string) : IO unit :=
  let file_path := Pathlib.of_str file_path in
  output_path ← get_output_dir (OUTPUT_DIRECTORY cfg) (Pathlib.name file_path) ;
  say IgSeparator ;;
  say (IgNewFile (Pathlib.str file_path)) ;;
  ready ← gate fuel (Pathlib.str file_path) ;
  if negb ready then say (IgGaveUp (Pathlib.str file_path))
  else
    say (IgAttempting (Pathlib.str output_path)) ;;
    creation_time ← stat_mtime file_path ;
    modification_time ← stat_mtime file_path ;
    exit_code ← call_ocr (Pathlib.str file_path) (Pathlib.str output_path) ;
    after_ocr file_path output_path creation_time modification_time exit_code.

(** lines 214-216 of [main]: [Some 1] is [sys.exit(1)], [None] lets [main]
    go on to start the observer *)
Definition main_settings_check : option Z :=
  if bool_decide (is_Some (OCR_JSON_SETTINGS cfg !! "input_file"))
     || bool_decide (is_Some (OCR_JSON_SETTINGS cfg !! "output_file"))
  then Some 1%Z
  else None.

End Ingest.

Arguments config : clear implicits.
Arguments stamps : clear implicits.
Arguments disk : clear implicits.
Arguments surroundings : clear implicits.
Arguments ocr_outcome : clear implicits.
Arguments Done {timestamp A} a d.
Arguments Failed {timestamp A} e d.
Arguments Hangs {timestamp A}.

(** * Proofs *)

(** ** Strings *)

Lemma sapp_cons c (s t : string) : String c s +:+ t = String c (s +:+ t).
Proof. reflexivity. Qed.

Lemma sapp_nil_l (s : string) : "" +:+ s = s.
Proof. reflexivity. Qed.

Lemma sapp_nil_r (s : string) : s +:+ "" = s.
Proof. induction s as [|c s IH]; [done|]. by rewrite sapp_cons, IH. Qed.

Lemma sapp_assoc (a b c : string) : (a +:+ b) +:+ c = a +:+ (b +:+ c).
Proof. induction a as [|x a IH]; [done|]. by rewrite !sapp_cons, IH. Qed.

Lemma slength_app (a b : string) :
  String.length (a +:+ b) = String.length a + String.length b.
Proof. induction a as [|x a IH]; [done|]. rewrite sapp_cons. simpl. by rewrite IH. Qed.

Lemma take_app_length (a b : string) : Str.take (String.length a) (a +:+ b) = a.
Proof. induction a as [|x a IH]; [by destruct b|]. rewrite sapp_cons. simpl. by rewrite IH. Qed.

Lemma drop_app_length (a b : string) : Str.drop (String.length a) (a +:+ b) = b.
Proof. induction a as [|x a IH]; [done|]. rewrite sapp_cons. simpl. by rewrite IH. Qed.

Lemma take_drop (n : nat) (s : string) : Str.take n s +:+ Str.drop n s = s.
Proof.
  revert s. induction n as [|n IH]; intros [|c s]; simpl; try done.
  by rewrite sapp_cons, IH.
Qed.

Lemma length_take (n : nat) (s : string) :
  n <= String.length s -> String.length (Str.take n s) = n.
Proof.
  revert s. induction n as [|n IH]; intros [|c s]; simpl; try done; try lia.
  intros H. rewrite IH; lia.
Qed.

Lemma consumed_app (a b : string) : consumed (a +:+ b) b = a.
Proof.
  unfold consumed. rewrite slength_app.
  replace (String.length a + String.length b - String.length b)
    with (String.length a) by lia.
  apply take_app_length.
Qed.

Lemma all_app p (a b : string) :
  Str.all p (a +:+ b) = Str.all p a && Str.all p b.
Proof.
  induction a as [|x a IH]; [done|]. rewrite sapp_cons. simpl.
  rewrite IH. by destruct (p x).
Qed.

Lemma all_take p n (s : string) : Str.all p s = true -> Str.all p (Str.take n s) = true.
Proof.
  revert s. induction n as [|n IH]; intros [|c s]; simpl; try done.
  intros [-> H]%andb_true_iff. simpl. by apply IH.
Qed.

Lemma replace_app old new (a b : string) :
  Str.replace old new (a +:+ b) = Str.replace old new a +:+ Str.replace old new b.
Proof.
  induction a as [|x a IH]; [done|]. rewrite sapp_cons. simpl. rewrite IH.
  destruct (Ascii.eqb x old); [by rewrite sapp_assoc | by rewrite sapp_cons].
Qed.

Lemma replace_absent p old new (s : string) :
  p old = false -> Str.all p s = true -> Str.replace old new s = s.
Proof.
  intros Hold. induction s as [|c s IH]; [done|]. simpl.
  intros [Hc Hs]%andb_true_iff.
  destruct (Ascii.eqb_spec c old) as [->|_]; [congruence|]. by rewrite IH.
Qed.

Lemma upper_app (a b : string) : Str.upper (a +:+ b) = Str.upper a +:+ Str.upper b.
Proof. induction a as [|x a IH]; [done|]. rewrite sapp_cons. simpl. by rewrite IH, sapp_cons. Qed.

Lemma all_zeros n : Str.all is_digit (Str.zeros n) = true.
Proof. induction n; [done|]. simpl. by rewrite IHn. Qed.

Lemma length_zeros n : String.length (Str.zeros n) = n.
Proof. induction n; [done|]. simpl. by rewrite IHn. Qed.

(** ** Characters *)

Ltac each_char x :=
  destruct x as [[] [] [] [] [] [] [] []]; vm_compute;
  try (intros; discriminate); try done.

Lemma digit_not_upper x : is_digit x = true -> is_upper x = false.
Proof. by each_char x. Qed.

Lemma digit_not_sign x : is_digit x = true ->
  Ascii.eqb x "+" = false /\ Ascii.eqb x "-" = false /\ Ascii.eqb x " " = false.
Proof. by each_char x. Qed.

Lemma upper_not_digit x : is_upper x = true ->
  is_digit x = false /\ Ascii.eqb x "-" = false /\ Ascii.eqb x " " = false.
Proof. by each_char x. Qed.

Lemma chr_eq_dash x : chr_eq true "-" x = true -> x = "-"%char.
Proof. by each_char x. Qed.

Lemma chr_eq_space x : chr_eq true " " x = true -> x = " "%char.
Proof. by each_char x. Qed.

Lemma upper_lower_char x : upper_char (lower_char x) = upper_char x.
Proof. by each_char x. Qed.

Lemma upper_char_fixed c : is_upper c = true \/ is_digit c = true -> upper_char c = c.
Proof. intros [H|H]; revert H; by each_char c. Qed.

Lemma chr_eq_upper c x : is_upper c = true \/ is_digit c = true ->
  chr_eq true c x = true -> upper_char x = c.
Proof.
  intros Hc Heq. apply Ascii.eqb_eq in Heq.
  by rewrite <- upper_lower_char, <- Heq, upper_lower_char, upper_char_fixed.
Qed.

Lemma cls_digit_ic x : cls_ok true is_digit x = true ->
  is_digit x = true /\ upper_char x = x.
Proof. by each_char x. Qed.

Lemma upper_digits (s : string) : Str.all is_digit s = true -> Str.upper s = s.
Proof.
  induction s as [|c s IH]; [done|]. simpl. intros [Hc Hs]%andb_true_iff.
  rewrite IH by done. f_equal. revert Hc. by each_char c.
Qed.

Lemma all_cls_digit_ic (s : string) :
  Str.all (cls_ok true is_digit) s = true -> Str.all is_digit s = true.
Proof.
  induction s as [|c s IH]; [done|]. simpl. intros [Hc Hs]%andb_true_iff.
  apply cls_digit_ic in Hc as [-> _]. by apply IH.
Qed.

(** ** The matcher *)

Lemma span_le_length p limit (s : string) : span p limit s <= String.length s.
Proof.
  revert limit. induction s as [|c s IH]; intros limit; simpl; [lia|].
  destruct (p c); [|lia]. destruct limit as [[|l]|]; [lia| |].
  - specialize (IH (Some l)). lia.
  - specialize (IH None). lia.
Qed.

Lemma span_le_limit p h (s : string) : span p (Some h) s <= h.
Proof.
  revert h. induction s as [|c s IH]; intros h; simpl; [lia|].
  destruct (p c); [|lia]. destruct h as [|h]; [lia|]. specialize (IH h). lia.
Qed.

Lemma span_all p limit (s : string) n :
  n <= span p limit s -> Str.all p (Str.take n s) = true.
Proof.
  revert limit n. induction s as [|c s IH]; intros limit [|n]; simpl; try done.
  destruct (p c) eqn:Hc; [|intros; lia]. simpl. intros Hn.
  destruct limit as [[|l]|];
    [lia | apply (IH (Some l)); lia | apply (IH None); lia].
Qed.

(** a run of class characters is spanned at least as far as the limit lets it *)
Lemma span_app_ge p limit (a b : string) :
  Str.all p a = true -> (forall h, limit = Some h -> String.length a <= h) ->
  String.length a <= span p limit (a +:+ b).
Proof.
  revert limit. induction a as [|x a IH]; intros limit; simpl; [lia|].
  intros [Hx Ha]%andb_true_iff Hlim. rewrite ?sapp_cons. simpl. rewrite Hx.
  destruct limit as [[|l]|].
  - specialize (Hlim 0 eq_refl). lia.
  - specialize (IH (Some l) Ha). apply le_n_S, IH.
    intros h [= <-]. specialize (Hlim (S l) eq_refl). lia.
  - apply le_n_S, IH; [done|]. by intros h.
Qed.

(** the run stops where the class stops or the limit is reached *)
Lemma span_app_exact p limit (a b : string) :
  Str.all p a = true -> (forall h, limit = Some h -> String.length a <= h) ->
  limit = Some (String.length a)
    \/ b = "" \/ (exists c b', b = String c b' /\ p c = false) ->
  span p limit (a +:+ b) = String.length a.
Proof.
  revert limit. induction a as [|x a IH]; intros limit; simpl.
  - intros _ _ [->|[->|(c & b' & -> & Hc)]]; rewrite ?sapp_nil_l; simpl.
    + destruct b as [|c b]; [done|]. simpl. by destruct (p c).
    + done.
    + by rewrite Hc.
  - intros [Hx Ha]%andb_true_iff Hlim Hstop. rewrite ?sapp_cons. simpl. rewrite Hx.
    destruct limit as [[|l]|].
    + specialize (Hlim 0 eq_refl). lia.
    + f_equal. apply IH; [done| |].
      * intros h [= <-]. specialize (Hlim (S l) eq_refl). lia.
      * destruct Hstop as [[= ->]|?]; auto.
    + f_equal. apply IH; [done|by intros h|].
      destruct Hstop as [?|?]; [done|auto].
Qed.

Lemma backoff_eq {R} lo n (s : string) (k : string -> option R) :
  backoff lo n s k =
  match k (Str.drop n s) with
  | Some x => Some x
  | None =>
      match n with
      | S n' => if (lo <=? n')%nat then backoff lo n' s k else None
      | O => None
      end
  end.
Proof. by destruct n. Qed.

Lemma backoff_sound {R} lo n (s : string) (k : string -> option R) x :
  backoff lo n s k = Some x ->
  exists m, (lo <= m \/ m = n) /\ m <= n /\ k (Str.drop m s) = Some x.
Proof.
  induction n as [|n IH]; rewrite backoff_eq.
  - destruct (k (Str.drop 0 s)) eqn:Hk; [|done]. intros [= ->]. exists 0. eauto.
  - destruct (k (Str.drop (S n) s)) eqn:Hk.
    + intros [= ->]. exists (S n). eauto.
    + destruct (lo <=? n)%nat eqn:Hlo; [|done]. intros H.
      destruct (IH H) as (m & Hm & Hmn & Hkm). exists m. split; [|eauto].
      apply Nat.leb_le in Hlo. lia.
Qed.

Lemma backoff_complete {R} lo n m (s : string) (k : string -> option R) :
  lo <= m -> m <= n -> k (Str.drop m s) <> None -> backoff lo n s k <> None.
Proof.
  intros Hlo. induction n as [|n IH]; rewrite backoff_eq; intros Hmn Hk.
  - assert (m = 0) as -> by lia. by destruct (k (Str.drop 0 s)).
  - destruct (k (Str.drop (S n) s)) eqn:Hn; [done|].
    destruct (decide (m = S n)) as [->|Hne]; [congruence|].
    destruct (Nat.leb_spec lo n); [|lia]. apply IH; [lia|done].
Qed.

Theorem rmatch_sound ic r : forall R (s : string) (k : string -> list string -> option R) x,
  rmatch ic r s k = Some x ->
  exists s1 s2 g, s = s1 +:+ s2 /\ lang ic r s1 g /\ k s2 g = Some x.
Proof.
  induction r as [c|p lo hi|r1 IH1 r2 IH2|r1 IH1 r2 IH2|r1 IH1|r1 IH1];
    intros R s k x; simpl.
  - destruct s as [|y s]; [done|]. destruct (chr_eq ic c y) eqn:Hc; [|done].
    intros Hk. exists (String y ""), s, []. eauto 10.
  - destruct (Nat.ltb_spec (span (cls_ok ic p) hi s) lo) as [|Hlo]; [done|].
    intros (m & Hm & Hmn & Hk)%backoff_sound.
    exists (Str.take m s), (Str.drop m s), []. split; [by rewrite take_drop|].
    split; [|done].
    pose proof (span_le_length (cls_ok ic p) hi s) as Hlen.
    split; [by eapply span_all|]. rewrite length_take by lia.
    split; [lia|]. split; [|done].
    intros h ->. pose proof (span_le_limit (cls_ok ic p) h s). lia.
  - intros (s1 & s' & g1 & -> & H1 & Hk)%IH1.
    apply IH2 in Hk as (s2 & s3 & g2 & -> & H2 & Hk).
    exists (s1 +:+ s2), s3, (g1 ++ g2). split; [by rewrite sapp_assoc|].
    split; [|done]. exists s1, s2, g1, g2. eauto.
  - destruct (rmatch ic r1 s k) eqn:H1.
    + intros [= ->]. apply IH1 in H1 as (s1 & s2 & g & -> & H1 & Hk). eauto 10.
    + intros (s1 & s2 & g & -> & H2 & Hk)%IH2. eauto 10.
  - destruct (rmatch ic r1 s k) eqn:H1.
    + intros [= ->]. apply IH1 in H1 as (s1 & s2 & g & -> & H1 & Hk). eauto 10.
    + intros Hk. exists "", s, []. eauto 10.
  - intros (s1 & s2 & g & -> & H1 & Hk)%IH1. rewrite consumed_app in Hk.
    exists s1, s2, (s1 :: g). eauto 10.
Qed.

Theorem rmatch_complete ic r : forall R (s1 s2 : string) g (k : string -> list string -> option R),
  lang ic r s1 g -> k s2 g <> None -> rmatch ic r (s1 +:+ s2) k <> None.
Proof.
  induction r as [c|p lo hi|r1 IH1 r2 IH2|r1 IH1 r2 IH2|r1 IH1|r1 IH1];
    intros R s1 s2 g k; simpl.
  - intros (y & -> & Hc & ->) Hk. rewrite ?sapp_cons, ?sapp_nil_l. by rewrite Hc.
  - intros (Hall & Hlo & Hhi & ->) Hk.
    pose proof (span_app_ge (cls_ok ic p) hi s1 s2 Hall Hhi) as Hspan.
    destruct (Nat.ltb_spec (span (cls_ok ic p) hi (s1 +:+ s2)) lo); [lia|].
    apply backoff_complete with (m := String.length s1); [done..|].
    by rewrite drop_app_length.
  - intros (a & b & g1 & g2 & -> & -> & H1 & H2) Hk. rewrite sapp_assoc.
    eapply IH1; [done|]. by eapply IH2.
  - intros [H1|H2] Hk.
    + pose proof (IH1 R s1 s2 g k H1 Hk). by destruct (rmatch ic r1 (s1 +:+ s2) k).
    + destruct (rmatch ic r1 (s1 +:+ s2) k); [done|]. by eapply IH2.
  - intros [H1|[-> ->]] Hk.
    + pose proof (IH1 R s1 s2 g k H1 Hk). by destruct (rmatch ic r1 (s1 +:+ s2) k).
    + rewrite sapp_nil_l. by destruct (rmatch ic r1 s2 k).
  - intros (g1 & -> & H1) Hk. eapply IH1; [done|]. by rewrite consumed_app.
Qed.

(** a greedy class takes its whole run when the rest of the pattern accepts
    what follows *)
Lemma rmatch_cls_greedy {R} ic p lo hi (a b : string)
    (k : string -> list string -> option R) x :
  Str.all (cls_ok ic p) a = true -> lo <= String.length a ->
  (forall h, hi = Some h -> String.length a <= h) ->
  hi = Some (String.length a)
    \/ b = "" \/ (exists c b', b = String c b' /\ cls_ok ic p c = false) ->
  k b [] = Some x ->
  rmatch ic (Cls p lo hi) (a +:+ b) k = Some x.
Proof.
  intros Hall Hlo Hhi Hstop Hk. simpl.
  rewrite span_app_exact by done.
  destruct (Nat.ltb_spec (String.length a) lo); [lia|].
  rewrite backoff_eq, drop_app_length. by rewrite Hk.
Qed.

(** ** The code pattern and the canonical form *)

Lemma fullmatch_lang ic r (s : string) :
  fullmatch ic r s = true <-> exists g, lang ic r s g.
Proof.
  unfold fullmatch. split.
  - destruct (rmatch _ _ _ _) eqn:H; [|done]. intros _.
    apply rmatch_sound in H as (s1 & s2 & g & -> & Hl & Hk).
    destruct (String.eqb_spec s2 "") as [->|]; [|done].
    rewrite sapp_nil_r. eauto.
  - intros [g Hl].
    pose proof (rmatch_complete ic r _ s "" g
      (fun rest _ => if String.eqb rest "" then Some () else None) Hl) as H.
    rewrite sapp_nil_r in H. destruct (rmatch _ _ _ _); [done|]. by destruct H.
Qed.

Lemma dash_lang ic (s : string) g : lang ic dash s g -> s = "-" /\ g = [].
Proof.
  intros (x & -> & Hx & ->). split; [|done]. destruct ic.
  - by apply chr_eq_dash in Hx as ->.
  - by apply Ascii.eqb_eq in Hx as <-.
Qed.

Lemma opt_dash_lang ic (s : string) g :
  lang ic (Opt dash) s g -> (s = "" \/ s = "-") /\ g = [].
Proof. intros [[-> ->]%dash_lang|[-> ->]]; auto. Qed.

Lemma code_tail_lang (s : string) g :
  lang false code_tail s g ->
  exists da a db b,
    s = da +:+ a +:+ db +:+ b /\ g = [a; b]
    /\ (da = "" \/ da = "-") /\ (db = "" \/ db = "-")
    /\ Str.all is_digit a = true /\ 1 <= String.length a <= 2
    /\ Str.all is_digit b = true /\ 1 <= String.length b <= 4.
Proof.
  intros (da & s1 & ? & ? & -> & -> & [Hda ->]%opt_dash_lang
          & a & s2 & ? & ? & -> & -> & (? & -> & Ha & Ha1 & Ha2 & ->)
          & db & b & ? & ? & -> & -> & [Hdb ->]%opt_dash_lang
          & (? & -> & Hb & Hb1 & Hb2 & ->)).
  exists da, a, db, b. specialize (Ha2 2 eq_refl). specialize (Hb2 4 eq_refl).
  repeat split; auto.
Qed.

Lemma code_tail_intro (da a db b : string) :
  (da = "" \/ da = "-") -> (db = "" \/ db = "-") ->
  Str.all is_digit a = true -> 1 <= String.length a <= 2 ->
  Str.all is_digit b = true -> 1 <= String.length b <= 4 ->
  lang false code_tail (da +:+ a +:+ db +:+ b) [a; b].
Proof.
  intros Hda Hdb Ha Hla Hb Hlb.
  assert (forall d : string, d = "" \/ d = "-" -> lang false (Opt dash) d []) as Hopt.
  { intros d [->| ->]; [by right|]. left. exists "-"%char. eauto. }
  exists da, (a +:+ db +:+ b), [], [a; b]. repeat split; [by apply Hopt|].
  exists a, (db +:+ b), [a], [b]. repeat split.
  { exists []. repeat split; [done|lia|]. intros h [= <-]. lia. }
  exists db, b, [], [b]. repeat split; [by apply Hopt|].
  exists []. repeat split; [done|lia|]. intros h [= <-]. lia.
Qed.

Lemma code_pattern_lang (s : string) g :
  lang false code_pattern s g ->
  exists p a b, g = [p; a; b] /\ code_groups p a b.
Proof.
  intros (p & t & ? & ? & -> & -> & (? & -> & Hp & Hp1 & _ & ->)
          & (da & a & db & b & -> & -> & _ & _ & Ha & Hla & Hb & Hlb)%code_tail_lang).
  exists p, a, b. split; [done|]. unfold code_groups. simpl in Hp.
  repeat split; try done; lia.
Qed.

(** a successful re-parse yields exactly three groups: letters, one or two
    digits, one to four digits *)
Lemma re_match_code_sound (m : string) g :
  re_match false code_pattern m = Some g ->
  exists p a b, g = [p; a; b] /\ code_groups p a b.
Proof.
  intros (s1 & s2 & g' & -> & Hl & [= ->])%rmatch_sound.
  by eapply code_pattern_lang.
Qed.

(** a text that starts with letters followed by a parsable tail re-parses *)
Lemma re_match_code_complete (p t1 t2 : string) g :
  Str.all is_upper p = true -> 1 <= String.length p ->
  lang false code_tail t1 g ->
  exists q a b,
    re_match false code_pattern (p +:+ t1 +:+ t2) = Some [q; a; b]
    /\ code_groups q a b.
Proof.
  intros Hp Hp1 Ht.
  assert (lang false code_pattern (p +:+ t1) (p :: g)) as Hl.
  { exists p, t1, [p], g. repeat split; [|done]. exists []. by repeat split. }
  pose proof (rmatch_complete false code_pattern _ (p +:+ t1) t2 _
                (fun _ g => Some g) Hl) as H.
  rewrite sapp_assoc in H. fold (re_match false code_pattern (p +:+ t1 +:+ t2)) in H.
  destruct (re_match false code_pattern (p +:+ t1 +:+ t2)) as [g'|] eqn:E.
  - destruct (re_match_code_sound _ _ E) as (q & a & b & -> & Hg). eauto.
  - by destruct H.
Qed.

Lemma zfill_digits w (s : string) :
  Str.all is_digit s = true -> 1 <= String.length s <= w ->
  Str.zfill w s = Str.zeros (w - String.length s) +:+ s
  /\ Str.all is_digit (Str.zfill w s) = true
  /\ String.length (Str.zfill w s) = w.
Proof.
  intros Hs Hl. destruct s as [|c s]; [simpl in Hl; lia|].
  assert (Str.zfill w (String c s) = Str.zeros (w - String.length (String c s)) +:+ String c s)
    as ->.
  { unfold Str.zfill. simpl in Hs. apply andb_true_iff in Hs as [Hc _].
    by destruct (digit_not_sign c Hc) as (-> & -> & _). }
  split; [done|]. rewrite all_app, all_zeros, Hs, slength_app, length_zeros.
  split; [done|lia].
Qed.

Lemma unconfuse_digits (s : string) : Str.all is_digit s = true -> unconfuse s = s.
Proof.
  intros H. unfold unconfuse.
  rewrite (replace_absent is_digit "O" "0" s) by done.
  rewrite (replace_absent is_digit "I" "1" s) by done.
  rewrite (replace_absent is_digit "S" "5" s) by done.
  rewrite (replace_absent is_digit "B" "8" s) by done.
  rewrite (replace_absent is_digit "Z" "2" s) by done.
  by rewrite (replace_absent is_digit "G" "6" s) by done.
Qed.

(** ** [canonical_pattern] *)

Lemma canonical_intro (p a b : string) :
  Str.all is_upper p = true -> 1 <= String.length p ->
  Str.all is_digit a = true -> String.length a = 2 ->
  Str.all is_digit b = true -> String.length b = 4 ->
  is_canonical (p +:+ "-" +:+ a +:+ "-" +:+ b) = true.
Proof.
  intros Hp Hp1 Ha Ha2 Hb Hb4. apply fullmatch_lang. exists [].
  assert (lang false dash "-" []) as Hdash by (exists "-"%char; eauto).
  exists p, ("-" +:+ a +:+ "-" +:+ b), [], []. repeat split; [done..|].
  exists "-", (a +:+ "-" +:+ b), [], []. repeat split; [done|].
  exists a, ("-" +:+ b), [], []. repeat split; [done|lia| |].
  { intros h [= <-]. lia. }
  exists "-", b, [], []. repeat split; [done..|lia|]. intros h [= <-]. lia.
Qed.

Lemma canonical_elim (x : string) :
  is_canonical x = true ->
  exists p a b,
    x = p +:+ "-" +:+ a +:+ "-" +:+ b
    /\ Str.all is_upper p = true /\ 1 <= String.length p
    /\ Str.all is_digit a = true /\ String.length a = 2
    /\ Str.all is_digit b = true /\ String.length b = 4.
Proof.
  intros [g Hl]%fullmatch_lang.
  destruct Hl as (p & ? & ? & ? & -> & -> & (Hp & Hp1 & _ & ->)
    & ? & ? & ? & ? & -> & -> & [-> ->]%dash_lang
    & a & ? & ? & ? & -> & -> & (Ha & Ha1 & Ha2 & ->)
    & ? & b & ? & ? & -> & -> & [-> ->]%dash_lang & (Hb & Hb1 & Hb2 & ->)).
  exists p, a, b. specialize (Ha2 2 eq_refl). specialize (Hb2 4 eq_refl).
  repeat split; auto; lia.
Qed.

(** the second segment after the prefix lock of lines 129-130 *)
Lemma lock_digits (q a : string) :
  Str.all is_digit a = true -> String.length a = 2 ->
  let a' := if is_locked q then "2" +:+ Str.drop 1 a else a in
  Str.all is_digit a' = true /\ String.length a' = 2
  /\ (is_locked q = true -> exists d, a' = String "2" (String d "")).
Proof.
  intros Ha Hl. destruct a as [|c1 [|c2 [|]]]; try done.
  pose proof Ha as Ha'. simpl in Ha'. apply andb_true_iff in Ha' as [_ Hc2].
  destruct (is_locked q); [|done].
  change ("2" +:+ Str.drop 1 (String c1 (String c2 ""))) with (String "2" (String c2 "")).
  simpl. rewrite Hc2. repeat split. eauto.
Qed.

Lemma assemble_canonical (p a b : string) :
  code_groups p a b ->
  is_canonical (assemble p (unconfuse (Str.zfill 2 a)) (unconfuse (Str.zfill 4 b))) = true.
Proof.
  intros (Hp & Hp1 & Ha & Hla & Hb & Hlb).
  destruct (zfill_digits 2 a Ha Hla) as (_ & Ha' & Hla').
  destruct (zfill_digits 4 b Hb Hlb) as (_ & Hb' & Hlb').
  rewrite !unconfuse_digits by done. unfold assemble.
  destruct (lock_digits p _ Ha' Hla') as (? & ? & _).
  by apply canonical_intro.
Qed.

(** ** What [re.findall] returns *)

Lemma match_here_sound ic r (s m : string) :
  match_here ic r s = Some m -> exists g, lang ic r m g.
Proof.
  intros (s1 & s2 & g & -> & Hl & [= <-])%rmatch_sound.
  rewrite consumed_app. eauto.
Qed.

Lemma findall_from_sound ic r (s : string) : forall skip m,
  m ∈ findall_from ic r skip s -> exists g, lang ic r m g.
Proof.
  induction s as [|c s IH]; intros skip m; simpl.
  - destruct skip; [|by intros ?%elem_of_nil].
    destruct (match_here ic r "") eqn:E; [|by intros ?%elem_of_nil].
    intros ->%list_elem_of_singleton. by eapply match_here_sound.
  - destruct skip as [|n]; [|by apply IH].
    destruct (match_here ic r (String c s)) eqn:E; [|by apply IH].
    intros [->|H]%elem_of_cons; [by eapply match_here_sound | by eapply IH].
Qed.

(** a literal word matched without regard to case is the word once
    uppercased *)
Lemma word_lang_upper (w : string) : forall (s : string) g,
  w <> "" -> Str.all (fun c => is_upper c || is_digit c) w = true ->
  lang true (word w) s g -> Str.upper s = w.
Proof.
  induction w as [|c w IH]; intros s g Hne Hw; [done|].
  simpl in Hw. apply andb_true_iff in Hw as [Hc Hw].
  apply orb_true_iff in Hc.
  destruct w as [|c' w'].
  - intros (x & -> & Hx & _). simpl. by rewrite (chr_eq_upper c x).
  - intros (s1 & s2 & g1 & g2 & -> & _ & (x & -> & Hx & _) & H2).
    rewrite upper_app. simpl. rewrite (chr_eq_upper c x) by done.
    rewrite sapp_cons, sapp_nil_l. f_equal. by eapply IH.
Qed.

(** the shape of every uppercased candidate *)
Lemma candidate_shape (text c : string) :
  c ∈ candidates text ->
  exists pre sp d0 da d12 d14 : string,
    c = pre +:+ sp +:+ d0 +:+ da +:+ d12 +:+ "-" +:+ d14
    /\ pre ∈ code_words /\ (sp = "" \/ sp = " ")
    /\ Str.all is_digit d0 = true /\ String.length d0 <= 1
    /\ (da = "" \/ da = "-")
    /\ Str.all is_digit d12 = true /\ 1 <= String.length d12 <= 2
    /\ Str.all is_digit d14 = true /\ 1 <= String.length d14 <= 4.
Proof.
  unfold candidates. intros (m & -> & Hm)%list_elem_of_fmap.
  apply findall_from_sound in Hm as [g Hl].
  destruct Hl as (pre & ? & ? & ? & -> & _ & Hpre
    & sp & ? & ? & ? & -> & _ & Hsp
    & d0 & ? & ? & ? & -> & _ & (Hd0 & _ & Hd0l & _)
    & da & ? & ? & ? & -> & _ & [Hda _]%opt_dash_lang
    & d12 & ? & ? & ? & -> & _ & (Hd12 & Hd12a & Hd12b & _)
    & ? & d14 & ? & ? & -> & _ & [-> _]%dash_lang & (Hd14 & Hd14a & Hd14b & _)).
  specialize (Hd0l 1 eq_refl). specialize (Hd12b 2 eq_refl).
  specialize (Hd14b 4 eq_refl).
  apply all_cls_digit_ic in Hd0, Hd12, Hd14.
  exists (Str.upper pre), sp, d0, da, d12, d14.
  rewrite !upper_app.
  rewrite (upper_digits d0), (upper_digits d12), (upper_digits d14) by done.
  change (Str.upper "-") with "-".
  assert (Str.upper sp = sp /\ (sp = "" \/ sp = " ")) as [-> ?].
  { destruct Hsp as [(x & -> & ->%chr_eq_space & _)|[-> _]];
      (split; [reflexivity|auto]). }
  assert (Str.upper da = da) as -> by (by destruct Hda as [-> | ->]).
  assert (Str.upper pre ∈ code_words).
  { unfold code_words.
    destruct Hpre as [Hw|[Hw|[Hw|[Hw|[Hw|Hw]]]]];
      apply word_lang_upper in Hw as ->; try done; repeat constructor. }
  repeat split; auto; lia.
Qed.

(** ** Every candidate re-parses *)

Ltac split_digits :=
  repeat match goal with
  | H : Str.all _ (String _ _) = true |- _ =>
      simpl in H; apply andb_true_iff in H as [? ?]
  | H : is_digit _ && _ = true |- _ => apply andb_true_iff in H as [? ?]
  end.

Ltac solve_digits :=
  simpl;
  repeat match goal with H : is_digit _ = true |- _ => rewrite H end;
  reflexivity.

Ltac tail_parse da a db b rest :=
  exists (da +:+ a +:+ db +:+ b), rest, [a; b];
  split; [reflexivity|];
  apply code_tail_intro; auto; first [solve_digits | simpl; lia].

Lemma body_parse (d0 da d12 d14 : string) :
  Str.all is_digit d0 = true -> String.length d0 <= 1 ->
  (da = "" \/ da = "-") ->
  Str.all is_digit d12 = true -> 1 <= String.length d12 <= 2 ->
  Str.all is_digit d14 = true -> 1 <= String.length d14 <= 4 ->
  exists t1 t2 g,
    d0 +:+ da +:+ d12 +:+ "-" +:+ d14 = t1 +:+ t2 /\ lang false code_tail t1 g.
Proof.
  intros Hd0 Hl0 Hda Hd12 Hl12 Hd14 Hl14.
  destruct d14 as [|a d14]; [simpl in Hl14; lia|].
  destruct d12 as [|y [|z [|]]]; try (simpl in Hl12; lia);
    destruct d0 as [|x [|]]; try (simpl in Hl0; lia);
    destruct Hda as [-> | ->]; split_digits.
  - tail_parse "" (String y "") "-" (String a "") d14.
  - tail_parse "-" (String y "") "-" (String a "") d14.
  - tail_parse "" (String x (String y "")) "-" (String a "") d14.
  - tail_parse "" (String x "") "-" (String y "") ("-" +:+ String a d14).
  - tail_parse "" (String y (String z "")) "-" (String a "") d14.
  - tail_parse "-" (String y (String z "")) "-" (String a "") d14.
  - tail_parse "" (String x (String y "")) "" (String z "") ("-" +:+ String a d14).
  - tail_parse "" (String x "") "-" (String y "") (String z ("-" +:+ String a d14)).
Qed.

Lemma zero_body_parse (d0 da d12 d14 : string) :
  Str.all is_digit d0 = true -> String.length d0 <= 1 ->
  (da = "" \/ da = "-") -> ~ (d0 = "" /\ da = "-") ->
  Str.all is_digit d12 = true -> 1 <= String.length d12 <= 2 ->
  Str.all is_digit d14 = true -> 1 <= String.length d14 <= 4 ->
  exists t1 t2 g,
    "0" +:+ d0 +:+ da +:+ d12 +:+ "-" +:+ d14 = t1 +:+ t2
    /\ lang false code_tail t1 g.
Proof.
  intros Hd0 Hl0 Hda Hno Hd12 Hl12 Hd14 Hl14.
  destruct d14 as [|a d14]; [simpl in Hl14; lia|].
  destruct d12 as [|y [|z [|]]]; try (simpl in Hl12; lia);
    destruct d0 as [|x [|]]; try (simpl in Hl0; lia);
    destruct Hda as [-> | ->]; try (by destruct Hno); split_digits.
  - tail_parse "" (String "0" (String y "")) "-" (String a "") d14.
  - tail_parse "" (String "0" (String x "")) "" (String y "") ("-" +:+ String a d14).
  - tail_parse "" (String "0" (String x "")) "-" (String y "") ("-" +:+ String a d14).
  - tail_parse "" (String "0" (String y "")) "" (String z "") ("-" +:+ String a d14).
  - tail_parse "" (String "0" (String x "")) "" (String y "") (String z ("-" +:+ String a d14)).
  - tail_parse "" (String "0" (String x "")) "-" (String y "") (String z ("-" +:+ String a d14)).
Qed.

Lemma strip_digits (s : string) : Str.all is_digit s = true -> strip_spaces s = s.
Proof. intros H. unfold strip_spaces. by rewrite (replace_absent is_digit). Qed.

Lemma fix_prefix_P0_digit x (t : string) :
  is_digit x = true -> fix_prefix ("P0" +:+ String x t) = "P0" +:+ String x t.
Proof.
  by each_char x.
Qed.

Ltac reparse_with p t1 t2 g :=
  apply (re_match_code_complete p t1 t2 g); [reflexivity | simpl; lia | assumption].

Lemma candidate_reparses (text c : string) :
  c ∈ candidates text ->
  exists q a b,
    re_match false code_pattern (fix_prefix (strip_spaces c)) = Some [q; a; b]
    /\ code_groups q a b.
Proof.
  intros (pre & sp & d0 & da & d12 & d14 & -> & Hpre & Hsp & Hd0 & Hl0 & Hda
          & Hd12 & Hl12 & Hd14 & Hl14)%candidate_shape.
  assert (strip_spaces (pre +:+ sp +:+ d0 +:+ da +:+ d12 +:+ "-" +:+ d14)
          = pre +:+ d0 +:+ da +:+ d12 +:+ "-" +:+ d14) as ->.
  { unfold strip_spaces. rewrite !replace_app.
    rewrite (replace_absent is_digit " " "" d0) by done.
    rewrite (replace_absent is_digit " " "" d12) by done.
    rewrite (replace_absent is_digit " " "" d14) by done.
    change (Str.replace " " "" "-") with "-".
    assert (Str.replace " " "" sp = "") as -> by (by destruct Hsp as [-> | ->]).
    assert (Str.replace " " "" da = da) as -> by (by destruct Hda as [-> | ->]).
    assert (Str.replace " " "" pre = pre) as ->; [|by rewrite sapp_nil_l].
    apply list_elem_of_In in Hpre. simpl in Hpre.
    by destruct Hpre as [<-|[<-|[<-|[<-|[<-|[<-|[]]]]]]]. }
  destruct (body_parse d0 da d12 d14) as (t1 & t2 & g & Hbody & Ht); try done.
  apply list_elem_of_In in Hpre. simpl in Hpre.
  destruct Hpre as [<-|[<-|[<-|[<-|[<-|[<-|[]]]]]]].
  - (* P0 *)
    destruct (decide (d0 = "" /\ da = "-")) as [[-> ->]|Hno].
    + change (fix_prefix ("P0" +:+ "" +:+ "-" +:+ d12 +:+ "-" +:+ d14))
        with ("PO" +:+ "" +:+ "-" +:+ d12 +:+ "-" +:+ d14).
      rewrite Hbody. reparse_with "PO" t1 t2 g.
    + destruct (zero_body_parse d0 da d12 d14) as (u1 & u2 & h & Hzero & Hu);
        try done.
      assert (exists x t, d0 +:+ da +:+ d12 +:+ "-" +:+ d14 = String x t
                          /\ is_digit x = true) as (x & t & Hx & Hdx).
      { destruct d0 as [|x d0].
        - destruct Hda as [-> | ->]; [|by destruct Hno].
          destruct d12 as [|y d12]; [simpl in Hl12; lia|].
          simpl in Hd12. apply andb_true_iff in Hd12 as [? _]. eauto.
        - simpl in Hd0. apply andb_true_iff in Hd0 as [? _]. eauto. }
      rewrite Hx, fix_prefix_P0_digit, <- Hx by done.
      change ("P0" +:+ d0 +:+ da +:+ d12 +:+ "-" +:+ d14)
        with ("P" +:+ "0" +:+ d0 +:+ da +:+ d12 +:+ "-" +:+ d14).
      rewrite Hzero. reparse_with "P" u1 u2 h.
  - change (fix_prefix ("PO" +:+ ?t)) with ("PO" +:+ t).
    rewrite Hbody. reparse_with "PO" t1 t2 g.
  - change (fix_prefix ("SPO" +:+ ?t)) with ("SPO" +:+ t).
    rewrite Hbody. reparse_with "SPO" t1 t2 g.
  - change (fix_prefix ("RNWS" +:+ ?t)) with ("RNWS" +:+ t).
    rewrite Hbody. reparse_with "RNWS" t1 t2 g.
  - change (fix_prefix ("SGR" +:+ ?t)) with ("SGR" +:+ t).
    rewrite Hbody. reparse_with "SGR" t1 t2 g.
  - change (fix_prefix ("SSR" +:+ ?t)) with ("SSR" +:+ t).
    rewrite Hbody. reparse_with "SSR" t1 t2 g.
Qed.

(** the output for every candidate is in canonical form *)
Lemma candidate_autocorrect_canonical (text c : string) :
  c ∈ candidates text -> is_canonical (autocorrect_match c) = true.
Proof.
  intros (q & a & b & E & Hg)%candidate_reparses.
  unfold autocorrect_match. rewrite E. by apply assemble_canonical.
Qed.

(** ** Re-parsing a canonical code *)

Lemma rmatch_seq {R} ic r1 r2 (s : string) (k : string -> list string -> option R) :
  rmatch ic (Seq r1 r2) s k
  = rmatch ic r1 s (fun s1 g1 => rmatch ic r2 s1 (fun s2 g2 => k s2 (g1 ++ g2))).
Proof. reflexivity. Qed.

Lemma rmatch_grp_cls_greedy {R} ic p lo hi (a b : string)
    (k : string -> list string -> option R) x :
  Str.all (cls_ok ic p) a = true -> lo <= String.length a ->
  (forall h, hi = Some h -> String.length a <= h) ->
  hi = Some (String.length a)
    \/ b = "" \/ (exists c b', b = String c b' /\ cls_ok ic p c = false) ->
  k b [a] = Some x ->
  rmatch ic (Grp (Cls p lo hi)) (a +:+ b) k = Some x.
Proof.
  intros Hall Hlo Hhi Hstop Hk.
  change (rmatch ic (Cls p lo hi) (a +:+ b)
            (fun s' g => k s' (consumed (a +:+ b) s' :: g)) = Some x).
  apply rmatch_cls_greedy; try done. by rewrite consumed_app.
Qed.

Lemma rmatch_opt_dash_take {R} (s : string) (k : string -> list string -> option R) x :
  k s [] = Some x -> rmatch false (Opt dash) ("-" +:+ s) k = Some x.
Proof.
  intros Hk.
  change (match (if chr_eq false "-" "-" then k s [] else None) with
          | Some y => Some y
          | None => k ("-" +:+ s) []
          end = Some x).
  change (chr_eq false "-" "-") with true. by rewrite Hk.
Qed.

Lemma re_match_canonical (p a b : string) :
  Str.all is_upper p = true -> 1 <= String.length p ->
  Str.all is_digit a = true -> String.length a = 2 ->
  Str.all is_digit b = true -> String.length b = 4 ->
  re_match false code_pattern (p +:+ "-" +:+ a +:+ "-" +:+ b) = Some [p; a; b].
Proof.
  intros Hp Hp1 Ha Ha2 Hb Hb4.
  unfold re_match, code_pattern, code_tail.
  rewrite rmatch_seq. apply rmatch_grp_cls_greedy; [done..| | |].
  { by intros h. }
  { right; right. exists "-"%char, (a +:+ "-" +:+ b). by split. }
  cbv beta. rewrite rmatch_seq. apply rmatch_opt_dash_take.
  cbv beta. rewrite rmatch_seq. apply rmatch_grp_cls_greedy; [done|lia| | |].
  { intros h [= <-]. lia. }
  { left. by rewrite Ha2. }
  cbv beta. rewrite rmatch_seq. apply rmatch_opt_dash_take.
  cbv beta. rewrite <- (sapp_nil_r b) at 1.
  apply rmatch_grp_cls_greedy; [done|lia| | |done].
  { intros h [= <-]. lia. }
  { left. by rewrite Hb4. }
Qed.

Lemma startswith_cons a b (p s : string) :
  Str.startswith (String a p) (String b s) = Ascii.eqb a b && Str.startswith p s.
Proof. reflexivity. Qed.

Lemma all_cons f c (s : string) : Str.all f (String c s) = f c && Str.all f s.
Proof. reflexivity. Qed.

Lemma startswith_dash (w : string) : forall (p rest : string),
  Str.all (fun c => negb (Ascii.eqb c "-")) w = true ->
  Str.all is_upper p = true ->
  Str.startswith (w +:+ "-") (p +:+ "-" +:+ rest) = true -> p = w.
Proof.
  induction w as [|x w IH]; intros [|c p] rest; rewrite ?sapp_cons, ?sapp_nil_l;
    rewrite ?all_cons, ?startswith_cons; try done.
  - intros _ [Hc _]%andb_true_iff [<-%Ascii.eqb_eq _]%andb_true_iff. done.
  - intros [Hx _]%andb_true_iff _ [->%Ascii.eqb_eq _]%andb_true_iff. done.
  - intros [_ Hw]%andb_true_iff [_ Hp]%andb_true_iff
      [->%Ascii.eqb_eq H]%andb_true_iff.
    f_equal. exact (IH p rest Hw Hp H).
Qed.

(** the prefix substitutions on a text that starts like a canonical code:
    only [PQ-] and [RNW-] apply, and the result is left alone by a second
    pass *)
Lemma fix_prefix_code (p : string) :
  Str.all is_upper p = true -> 1 <= String.length p ->
  exists q,
    Str.all is_upper q = true /\ 1 <= String.length q
    /\ (forall rest, fix_prefix (p +:+ "-" +:+ rest) = q +:+ "-" +:+ rest)
    /\ (forall rest, fix_prefix (q +:+ "-" +:+ rest) = q +:+ "-" +:+ rest).
Proof.
  intros Hp Hp1.
  destruct (decide (p = "PQ")) as [->|HPQ].
  { exists "PO". split; [reflexivity|]. split; [simpl; lia|].
    split; intros; reflexivity. }
  destruct (decide (p = "RNW")) as [->|HRNW].
  { exists "RNWS". split; [reflexivity|]. split; [simpl; lia|].
    split; intros; reflexivity. }
  assert (forall rest, fix_prefix (p +:+ "-" +:+ rest) = p +:+ "-" +:+ rest) as Hfix.
  { intros rest. unfold fix_prefix.
    destruct (Str.startswith "P0-" _) eqn:E1.
    { apply (startswith_dash "P0" p rest) in E1; [by subst|done..]. }
    destruct (Str.startswith "PQ-" _) eqn:E2.
    { apply (startswith_dash "PQ" p rest) in E2; done. }
    destruct (Str.startswith "RNW-" _) eqn:E3.
    { apply (startswith_dash "RNW" p rest) in E3; done. }
    destruct (Str.startswith "5P0-" _) eqn:E4.
    { apply (startswith_dash "5P0" p rest) in E4; [by subst|done..]. }
    destruct (Str.startswith "56R-" _) eqn:E5.
    { apply (startswith_dash "56R" p rest) in E5; [by subst|done..]. }
    done. }
  exists p. auto.
Qed.

Lemma strip_canonical (p a b : string) :
  Str.all is_upper p = true -> Str.all is_digit a = true ->
  Str.all is_digit b = true ->
  strip_spaces (p +:+ "-" +:+ a +:+ "-" +:+ b) = p +:+ "-" +:+ a +:+ "-" +:+ b.
Proof.
  intros Hp Ha Hb. unfold strip_spaces. rewrite !replace_app.
  rewrite (replace_absent is_upper " " "" p) by done.
  rewrite (replace_absent is_digit " " "" a) by done.
  by rewrite (replace_absent is_digit " " "" b) by done.
Qed.

Lemma autocorrect_match_code (p q a b : string) :
  Str.all is_upper p = true ->
  Str.all is_upper q = true -> 1 <= String.length q ->
  Str.all is_digit a = true -> String.length a = 2 ->
  Str.all is_digit b = true -> String.length b = 4 ->
  (forall rest, fix_prefix (p +:+ "-" +:+ rest) = q +:+ "-" +:+ rest) ->
  autocorrect_match (p +:+ "-" +:+ a +:+ "-" +:+ b) = assemble q a b.
Proof.
  intros Hp Hq Hq1 Ha Ha2 Hb Hb4 Hfix. unfold autocorrect_match.
  rewrite strip_canonical, Hfix, re_match_canonical by done.
  destruct (zfill_digits 2 a Ha) as (-> & _); [lia|].
  destruct (zfill_digits 4 b Hb) as (-> & _); [lia|].
  rewrite Ha2, Hb4. simpl Str.zeros. rewrite !sapp_nil_l.
  by rewrite !unconfuse_digits.
Qed.

(** * The claims about [autocorrect_match] *)



(** C7.  Whenever the re-parsed prefix is one of PO, SPO, RNWS, SGR, SSR, the
    output is that prefix, a dash, a two-character segment whose first
    character is [2] and whose second is a digit, a dash and four digits:
    the middle segment begins with [2] whatever digits the input carried. *)
Theorem autocorrect_match_prefix_lock (m prefix g2 g3 : string) :
  re_match false code_pattern (fix_prefix (strip_spaces m)) = Some [prefix; g2; g3] ->
  prefix ∈ locked_prefixes ->
  exists d last,
    autocorrect_match m = prefix +:+ "-" +:+ String "2" (String d "") +:+ "-" +:+ last
    /\ is_digit d = true
    /\ Str.all is_digit last = true /\ String.length last = 4.
Proof.
  intros E Hlocked.
  destruct (re_match_code_sound _ _ E) as (p & a & b & [= <- <- <-] & Hg).
  destruct Hg as (Hp & Hp1 & Ha & Hla & Hb & Hlb).
  destruct (zfill_digits 2 g2 Ha Hla) as (_ & Ha' & Hla').
  destruct (zfill_digits 4 g3 Hb Hlb) as (_ & Hb' & Hlb').
  unfold autocorrect_match. rewrite E, !unconfuse_digits by done.
  unfold assemble.
  assert (is_locked prefix = true) as Hl by (by apply bool_decide_eq_true).
  destruct (lock_digits prefix _ Ha' Hla') as (Hall & _ & Hform).
  destruct (Hform Hl) as [d Hd]. rewrite Hd in Hall |- *.
  exists d, (Str.zfill 4 g3). split; [done|].
  rewrite !all_cons in Hall. apply andb_true_iff in Hall as [_ Hall].
  apply andb_true_iff in Hall as [Hd' _]. done.
Qed.

Lemma autocorrect_match_prefix_lock_witness :
  exists d last,
    autocorrect_match "SGR7-3" = "SGR" +:+ "-" +:+ String "2" (String d "") +:+ "-" +:+ last
    /\ is_digit d = true
    /\ Str.all is_digit last = true /\ String.length last = 4.
Proof.
  apply (autocorrect_match_prefix_lock "SGR7-3" "SGR" "7" "3").
  - vm_compute. reflexivity.
  - unfold locked_prefixes. repeat constructor.
Defined.

(** C10.  The [replace] chains of lines 126-127 never change a segment, since
    the groups they act on hold digits only: the function without them
    returns the same string on every input. *)
Theorem autocorrect_match_replace_redundant (m : string) :
  autocorrect_match m = autocorrect_match_no_replace m.
Proof.
  unfold autocorrect_match, autocorrect_match_no_replace.
  destruct (re_match false code_pattern (fix_prefix (strip_spaces m)))
    as [g|] eqn:E; [|done].
  destruct (re_match_code_sound _ _ E) as (p & a & b & -> & Hg).
  destruct Hg as (Hp & Hp1 & Ha & Hla & Hb & Hlb).
  destruct (zfill_digits 2 a Ha Hla) as (_ & Ha' & _).
  destruct (zfill_digits 4 b Hb Hlb) as (_ & Hb' & _).
  by rewrite !unconfuse_digits.
Qed.

(** C6.  On every string in canonical form, applying [autocorrect_match]
    twice gives what applying it once gives. *)
Theorem autocorrect_match_idempotent (x : string) :
  is_canonical x = true ->
  autocorrect_match (autocorrect_match x) = autocorrect_match x.
Proof.
  intros (p & a & b & -> & Hp & Hp1 & Ha & Ha2 & Hb & Hb4)%canonical_elim.
  destruct (fix_prefix_code p Hp Hp1) as (q & Hq & Hq1 & Hfix & Hfix').
  rewrite (autocorrect_match_code p q a b) by done.
  destruct (lock_digits q a Ha Ha2) as (Ha' & Ha2' & Hform).
  unfold assemble at 1. cbv zeta in Ha', Ha2', Hform.
  rewrite (autocorrect_match_code q q) by done.
  unfold assemble. destruct (is_locked q) eqn:Hl; [|done].
  destruct (Hform eq_refl) as [d Hd]. by rewrite Hd.
Qed.

Lemma autocorrect_match_idempotent_witness :
  is_canonical "RNW-12-3456" = true
  /\ autocorrect_match (autocorrect_match "RNW-12-3456")
     = autocorrect_match "RNW-12-3456".
Proof.
  split; [reflexivity|].
  apply (autocorrect_match_idempotent "RNW-12-3456"). reflexivity.
Defined.

(** * The file name (lines 158-161) *)

Lemma take_app_le n (a b : string) :
  n <= String.length a -> Str.take n (a +:+ b) = Str.take n a.
Proof.
  revert a. induction n as [|n IH]; intros [|c a]; simpl; try lia.
  - by destruct b.
  - done.
  - intros H. rewrite ?sapp_cons. simpl. rewrite IH; [done|lia].
Qed.

(** a joined name of 146 characters or more is cut to its first 146 *)
Lemma final_name_of_long (matches : list string) :
  146 <= String.length (Str.join "_" matches) ->
  final_name_of matches = Str.take 146 (Str.join "_" matches) +:+ ".pdf".
Proof.
  intros H. unfold final_name_of, max_length. rewrite slength_app.
  change (String.length ".pdf") with 4.
  destruct (Nat.ltb_spec (150 - 4) (String.length (Str.join "_" matches) + 4)); [|lia].
  change (150 - 4) with 146. by rewrite take_app_le.
Qed.

(** a joined name of 142 characters or fewer is kept whole *)
Lemma final_name_of_short (matches : list string) :
  String.length (Str.join "_" matches) <= 142 ->
  final_name_of matches = Str.join "_" matches +:+ ".pdf".
Proof.
  intros H. unfold final_name_of, max_length. rewrite slength_app.
  change (String.length ".pdf") with 4.
  by destruct (Nat.ltb_spec (150 - 4) (String.length (Str.join "_" matches) + 4)); [lia|].
Qed.

Lemma take_app_ge n (a b : string) :
  String.length a <= n ->
  Str.take n (a +:+ b) = a +:+ Str.take (n - String.length a) b.
Proof.
  revert n. induction a as [|c a IH]; intros n; simpl.
  - intros _. by rewrite Nat.sub_0_r.
  - destruct n as [|n]; [lia|]. intros H. rewrite !sapp_cons. simpl.
    rewrite IH; [done|lia].
Qed.

(** in between, the cut falls inside the suffix that line 158 appended *)
Lemma final_name_of_between (matches : list string) :
  142 < String.length (Str.join "_" matches) < 146 ->
  final_name_of matches
  = Str.join "_" matches
    +:+ Str.take (146 - String.length (Str.join "_" matches)) ".pdf" +:+ ".pdf".
Proof.
  intros H. unfold final_name_of, max_length. rewrite slength_app.
  change (String.length ".pdf") with 4.
  destruct (Nat.ltb_spec (150 - 4) (String.length (Str.join "_" matches) + 4)); [|lia].
  change (150 - 4) with 146. rewrite take_app_ge by lia. by rewrite sapp_assoc.
Qed.

(** C3, at a joined name of 143 characters: twelve codes of eleven characters.
    The test of line 160 measures the name with its suffix (147 characters),
    so the cut keeps [.pd] of the suffix and [.pdf] is appended again; the
    claim gives the joined name followed by [.pdf]. *)
Theorem final_name_of_keeps_part_of_suffix :
  let codes := ["SPO-20-0001"; "SPO-20-0002"; "SPO-20-0003"; "SPO-20-0004";
                "SPO-20-0005"; "SPO-20-0006"; "SPO-20-0007"; "SPO-20-0008";
                "SPO-20-0009"; "SPO-20-0010"; "SPO-20-0011"; "SPO-20-0012"] in
  sorted_unique (autocorrect_match <$> codes) = codes
  /\ String.length (Str.join "_" codes) = 143
  /\ final_name_of codes = Str.join "_" codes +:+ ".pd" +:+ ".pdf"
  /\ final_name_of codes <> Str.join "_" codes +:+ ".pdf".
Proof. vm_compute. repeat split; done. Qed.

(** * The readiness gate *)

Lemma sleeps_app (t1 t2 : list gate_event) : sleeps (t1 ++ t2) = sleeps t1 ++ sleeps t2.
Proof.
  induction t1 as [|ev t1 IH]; [done|]. destruct ev; simpl; by rewrite IH.
Qed.

Lemma wait_loop_S (poll : Z) (opens : nat -> open_outcome) fuel retries calls trace :
  wait_loop poll opens (S fuel) retries calls trace
  = if (retries =? 0)%Z then Some (Returned false, trace)
    else match opens calls with
         | Opened => Some (Returned true, trace ++ [GateClose])
         | NotFound | Malformed =>
             if (poll <? 0)%Z
             then Some (Escaped ValueError, trace ++ [GateNotReady])
             else
               wait_loop poll opens fuel (retries - 1) (S calls)
                 (trace ++ [GateNotReady; GateSleep poll])
         | OtherError => Some (Escaped Uncaught, trace)
         end.
Proof. reflexivity. Qed.






(** * Paths *)

Lemma split_last_cons c (p : string) :
  Path.split_last (String c p)
  = match Path.split_last p with
    | (EmptyString, _) =>
        if Ascii.eqb c "/" then (String c EmptyString, p)
        else (EmptyString, String c p)
    | (h, t) => (String c h, t)
    end.
Proof. reflexivity. Qed.

(** the last component of a path has no slash, and is the whole path when
    the path has none *)
Lemma split_last_spec (p : string) :
  Str.all no_slash (snd (Path.split_last p)) = true
  /\ (fst (Path.split_last p) = "" -> snd (Path.split_last p) = p).
Proof.
  induction p as [|c p [IH1 IH2]]; [done|]. rewrite split_last_cons.
  destruct (Path.split_last p) as [[|x h] t]; simpl in *.
  - rewrite IH2 in IH1 by done. unfold no_slash at 1.
    destruct (Ascii.eqb c "/") eqn:Hc; simpl; [done|]. by rewrite Hc.
  - done.
Qed.

Lemma split_last_no_slash (b : string) :
  Str.all no_slash b = true -> Path.split_last b = ("", b).
Proof.
  induction b as [|c b IH]; [done|]. rewrite all_cons, split_last_cons.
  intros [Hc Hb]%andb_true_iff. rewrite IH by done.
  unfold no_slash in Hc. by destruct (Ascii.eqb c "/").
Qed.

Lemma split_last_app (a b : string) :
  Str.all no_slash b = true ->
  Path.split_last (a +:+ "/" +:+ b) = (a +:+ "/", b).
Proof.
  intros Hb. induction a as [|c a IH].
  - rewrite sapp_nil_l. change ("/" +:+ b) with (String "/" b).
    by rewrite split_last_cons, split_last_no_slash.
  - rewrite sapp_cons, split_last_cons, IH. by destruct a.
Qed.

Lemma basename_no_slash (p : string) : Str.all no_slash (Path.basename p) = true.
Proof. apply split_last_spec. Qed.

Lemma join_no_slash (a b : string) :
  Str.all no_slash b = true -> Str.endswith "/" a = false -> a <> "" ->
  Path.join a b = a +:+ "/" +:+ b.
Proof.
  intros Hb Ha Hne. unfold Path.join.
  assert (Str.startswith "/" b = false) as ->.
  { destruct b as [|c b]; [done|]. rewrite all_cons in Hb.
    apply andb_true_iff in Hb as [Hc _]. unfold no_slash in Hc.
    change (Str.startswith "/" (String c b)) with (Ascii.eqb "/" c && true).
    rewrite Ascii.eqb_sym. by destruct (Ascii.eqb c "/"). }
  rewrite Ha. by destruct (String.eqb_spec a "").
Qed.

Lemma dirname_joined (a b : string) :
  Str.all no_slash b = true ->
  Path.dirname (a +:+ "/" +:+ b)
  = match Path.rstrip_slash (a +:+ "/") with
    | EmptyString => a +:+ "/"
    | stripped => stripped
    end.
Proof. intros Hb. unfold Path.dirname. by rewrite split_last_app. Qed.

(** the two directories of the program *)
Lemma join_final_output (b : string) :
  Str.all no_slash b = true ->
  Path.join "final-output" b = "final-output/" +:+ b
  /\ Path.dirname (Path.join "final-output" b) = "final-output".
Proof.
  intros Hb. rewrite (join_no_slash "final-output") by done.
  split; [done|]. by rewrite dirname_joined.
Qed.

Lemma join_error (b : string) :
  Str.all no_slash b = true ->
  Path.join "ERROR" b = "ERROR/" +:+ b
  /\ Path.dirname (Path.join "ERROR" b) = "ERROR".
Proof.
  intros Hb. rewrite (join_no_slash "ERROR") by done.
  split; [done|]. by rewrite dirname_joined.
Qed.

(** * The classification stage *)

Lemma endswith_PDF_not_pdf (path : string) :
  Str.endswith ".PDF" path = true -> Str.endswith ".pdf" path = false.
Proof.
  unfold Str.endswith. change (String.length ".PDF") with 4.
  change (String.length ".pdf") with 4.
  destruct (4 <=? String.length path)%nat; [|done]. simpl.
  intros ->%String.eqb_eq. done.
Qed.

(** ** Running the monad *)

Lemma bind_ok {A B} (m : M A) (f : A -> M B) w a w' :
  m w = Ok a w' -> (m ≫= f) w = f a w'.
Proof. intros H. unfold mbind, M_bind, bind. by rewrite H. Qed.

Lemma bind_raise {A B} (m : M A) (f : A -> M B) w e w' :
  m w = Raise e w' -> (m ≫= f) w = Raise e w'.
Proof. intros H. unfold mbind, M_bind, bind. by rewrite H. Qed.

Lemma try_ok {A} (m : M A) h w a w' :
  m w = Ok a w' -> try_except m h w = Ok a w'.
Proof. intros H. unfold try_except. by rewrite H. Qed.

Lemma try_raise {A} (m : M A) h w e w' :
  m w = Raise e w' -> try_except m h w = h e w'.
Proof. intros H. unfold try_except. by rewrite H. Qed.

Lemma emit_run ev w :
  emit ev w = Ok () (World (files w) (dirs w) (log w ++ [ev])).
Proof. reflexivity. Qed.

(** the world when the [try] block of line 149 is entered *)
Lemma process_pdf_enters pdfminer io_fault (path : string) w :
  Str.endswith ".pdf" path = true ->
  process_pdf pdfminer io_fault path w
  = try_except (classify pdfminer io_fault path) (quarantine io_fault path)
      (World (files w) (dirs w) (log w ++ [EvProcessing path; EvSleep 3])).
Proof.
  intros H. unfold process_pdf. rewrite H.
  rewrite (bind_ok _ _ _ _ _ (emit_run _ _)).
  rewrite (bind_ok _ _ _ _ _ (emit_run _ _)). simpl.
  by rewrite <- app_assoc.
Qed.

Lemma extract_text_ok pdfminer io_fault (path : string) w bytes text :
  io_fault AtExtract = false -> files w !! path = Some bytes ->
  pdfminer bytes = Some text ->
  extract_text pdfminer io_fault path w = Ok text w.
Proof.
  intros Hf Hfile Htext. unfold extract_text, guarded.
  by rewrite Hf, Hfile, Htext.
Qed.

Lemma rename_file_ok (src dst : string) w bytes :
  files w !! src = Some bytes -> dst ∉ dirs w -> parent_exists dst w = true ->
  rename_file src dst w
  = Ok () (World (<[dst := bytes]> (delete src (files w))) (dirs w) (log w)).
Proof.
  intros Hfile Hdst Hparent. unfold rename_file, is_dir.
  by rewrite Hfile, (bool_decide_eq_false_2 _ Hdst), Hparent.
Qed.

(** [shutil.move] onto a path that is not a directory *)
Lemma shutil_move_onto io_fault s (src dst : string) w bytes :
  io_fault s = false ->
  files w !! src = Some bytes -> dst ∉ dirs w -> parent_exists dst w = true ->
  shutil_move io_fault s src dst w
  = Ok () (World (<[dst := bytes]> (delete src (files w))) (dirs w) (log w)).
Proof.
  intros Hf Hfile Hdst Hparent. unfold shutil_move, guarded, is_dir.
  rewrite Hf, (bool_decide_eq_false_2 _ Hdst). by apply rename_file_ok.
Qed.

Lemma parent_exists_in (a b : string) w :
  Path.dirname (Path.join a b) = a -> a ∈ dirs w ->
  parent_exists (Path.join a b) w = true.
Proof.
  intros Hd Ha. unfold parent_exists, is_dir. rewrite Hd.
  rewrite (bool_decide_eq_true_2 _ Ha). by rewrite orb_true_r.
Qed.

Section ClassificationProofs.

Variable pdfminer : string -> option string.
Variable io_fault : site -> bool.
Variable execute_ocrmypdf : string -> M unit.

(** C9.  A created file whose path ends in [.PDF] is accepted by the
    watch patterns, but [process_pdf] does nothing on it: the world, the
    log included, is as the ingest stage left it, and the event handler
    as a whole does what the ingest stage does. *)
Theorem uppercase_extension_not_classified (path : string) (w : world) :
  Str.endswith ".PDF" path = true ->
  watched path = true
  /\ process_pdf pdfminer io_fault path w = Ok () w
  /\ on_any_event pdfminer io_fault execute_ocrmypdf (FsEvent "created" path) w
     = execute_ocrmypdf path w.
Proof.
  intros HPDF. pose proof (endswith_PDF_not_pdf path HPDF) as Hpdf.
  split; [|split].
  - unfold watched, PATTERNS. simpl. by rewrite HPDF, orb_true_r.
  - unfold process_pdf. by rewrite Hpdf.
  - unfold on_any_event. simpl.
    unfold mbind, M_bind, bind.
    destruct (execute_ocrmypdf path w) as [[] w'| |]; [|done..].
    unfold process_pdf. by rewrite Hpdf.
Qed.

(** C2.  As amended: a document on which extraction succeeds and finds no
    candidate is moved to [final-output] under its own base name, with its
    bytes as they were, when [final-output] is an existing directory and the
    move itself succeeds (the target is not a directory, the operating
    system does not refuse the move). *)
Theorem unmatched_document_moved (path : string) (w : world) (bytes text : string) :
  Str.endswith ".pdf" path = true ->
  files w !! path = Some bytes ->
  pdfminer bytes = Some text ->
  candidates text = [] ->
  io_fault AtExtract = false -> io_fault AtMoveUnmatched = false ->
  "final-output" ∈ dirs w ->
  Path.join "final-output" (Path.basename path) ∉ dirs w ->
  exists w',
    process_pdf pdfminer io_fault path w = Ok () w'
    /\ files w' = <[Path.join "final-output" (Path.basename path) := bytes]>
                    (delete path (files w))
    /\ files w' !! Path.join "final-output" (Path.basename path) = Some bytes
    /\ dirs w' = dirs w.
Proof.
  intros Hpdf Hfile Htext Hnone Hf1 Hf2 Hdir Hdst.
  destruct (join_final_output _ (basename_no_slash path)) as [_ Hparent].
  rewrite process_pdf_enters by done.
  set (w1 := World (files w) (dirs w) (log w ++ [EvProcessing path; EvSleep 3])).
  eexists. split.
  - apply try_ok. unfold classify.
    rewrite (bind_ok _ _ _ _ _ (extract_text_ok _ _ path w1 bytes text Hf1 Hfile Htext)).
    rewrite Hnone.
    rewrite (bind_ok _ _ _ _ _
               (shutil_move_onto _ _ path _ w1 bytes Hf2 Hfile Hdst
                  (parent_exists_in _ _ w1 Hparent Hdir))).
    apply emit_run.
  - simpl. split; [done|]. split; [by rewrite lookup_insert_eq|done].
Qed.

End ClassificationProofs.

Lemma unmatched_document_moved_witness :
  let w := World {[ "scan-input/a.pdf" := "nothing to see" ]}
                 {[ "scan-input"; "final-output" ]} [] in
  exists w',
    process_pdf Some (fun _ => false) "scan-input/a.pdf" w = Ok () w'
    /\ files w' = <[Path.join "final-output" (Path.basename "scan-input/a.pdf")
                     := "nothing to see"]> (delete "scan-input/a.pdf" (files w))
    /\ files w' !! Path.join "final-output" (Path.basename "scan-input/a.pdf")
       = Some "nothing to see"
    /\ dirs w' = dirs w.
Proof.
  intros w.
  apply (unmatched_document_moved Some (fun _ => false) "scan-input/a.pdf" w
           "nothing to see" "nothing to see").
  - reflexivity.
  - reflexivity.
  - reflexivity.
  - reflexivity.
  - reflexivity.
  - reflexivity.
  - refine (bool_decide_unpack _ _). vm_compute. exact I.
  - refine (bool_decide_unpack _ _). vm_compute. exact I.
Defined.

(** The claim as stated fails where [final-output] does not exist, which
    the program never creates: the move of line 172 raises, the document is
    handled as a processing failure and ends in [ERROR], not in
    [final-output]. *)
Lemma unmatched_document_without_final_output :
  let w := World {[ "scan-input/a.pdf" := "nothing to see" ]}
                 {[ "scan-input" ]} [] in
  candidates "nothing to see" = []
  /\ exists w',
       process_pdf Some (fun _ => false) "scan-input/a.pdf" w = Ok () w'
       /\ files w' !! "final-output/a.pdf" = None
       /\ files w' = {[ "ERROR/a.pdf" := "nothing to see" ]}
       /\ log w' = [EvProcessing "scan-input/a.pdf"; EvSleep 3;
                    EvError "scan-input/a.pdf" FileNotFoundError;
                    EvQuarantined "scan-input/a.pdf"].
Proof.
  split; [vm_compute; reflexivity|].
  eexists. split; [vm_compute; reflexivity|].
  repeat split; vm_compute; reflexivity.
Qed.

Lemma uppercase_extension_not_classified_witness :
  let w := World {[ "scan-input/A.PDF" := "PO-20-0002" ]}
                 {[ "scan-input"; "final-output" ]} [] in
  watched "scan-input/A.PDF" = true
  /\ process_pdf Some (fun _ => false) "scan-input/A.PDF" w = Ok () w
  /\ on_any_event Some (fun _ => false) (fun _ => mret ())
       (FsEvent "created" "scan-input/A.PDF") w
     = Ok () w.
Proof.
  intros w.
  apply (uppercase_extension_not_classified Some (fun _ => false)
           (fun _ => mret ()) "scan-input/A.PDF" w).
  reflexivity.
Defined.

(** * Where the code leaves the claims *)

(** C1, at a failure of the move into [final-output] (line 169) after the
    rename of line 168 has succeeded: the handler finds nothing at the
    original path and does nothing, so the file stays in the input directory
    under its new name.  It is neither at its original location, nor in
    [final-output], nor in [ERROR]. *)
Theorem relocation_failure_strands_file :
  let w := World {[ "scan-input/a.pdf" := "invoice ref P0-20-0002 attached" ]}
                 {[ "scan-input"; "final-output" ]} [] in
  let io_fault := fun s => match s with AtMoveFinal => true | _ => false end in
  exists w',
    process_pdf Some io_fault "scan-input/a.pdf" w = Ok () w'
    /\ files w' = {[ "scan-input/PO-20-0002.pdf" := "invoice ref P0-20-0002 attached" ]}
    /\ files w' !! "scan-input/a.pdf" = None
    /\ files w' !! "final-output/PO-20-0002.pdf" = None
    /\ files w' !! "ERROR/a.pdf" = None
    /\ dirs w' = dirs w
    /\ log w' = [EvProcessing "scan-input/a.pdf"; EvSleep 3;
                 EvError "scan-input/a.pdf" OSError].
Proof.
  eexists. split; [vm_compute; reflexivity|].
  repeat split; vm_compute; reflexivity.
Qed.

(** C5, at a document without a code whose base name is taken in
    [final-output]: line 172 moves onto the existing file, which is
    replaced; no suffix is probed on this branch. *)
Theorem unmatched_document_overwrites :
  let w := World {[ "scan-input/a.pdf" := "new scan";
                    "final-output/a.pdf" := "old scan" ]}
                 {[ "scan-input"; "final-output" ]} [] in
  exists w',
    process_pdf Some (fun _ => false) "scan-input/a.pdf" w = Ok () w'
    /\ files w !! "final-output/a.pdf" = Some "old scan"
    /\ files w' = {[ "final-output/a.pdf" := "new scan" ]}
    /\ log w' = [EvProcessing "scan-input/a.pdf"; EvSleep 3;
                 EvNoPattern "scan-input/a.pdf"].
Proof.
  eexists. split; [vm_compute; reflexivity|].
  repeat split; vm_compute; reflexivity.
Qed.


(** * Collision probing (lines 163-167) *)

Lemma sapp_inj_r (a b c : string) : a +:+ c = b +:+ c -> a = b.
Proof.
  intros H. assert (String.length a = String.length b) as Hlen.
  { apply (f_equal String.length) in H. rewrite !slength_app in H. lia. }
  rewrite <- (take_app_length a c), H, Hlen. apply take_app_length.
Qed.

Lemma join_final_output_eq (b : string) :
  Path.join "final-output" b
  = if Str.startswith "/" b then b else "final-output/" +:+ b.
Proof. unfold Path.join. by destruct (Str.startswith "/" b). Qed.

Lemma startswith_slash_stem (stem x y : string) :
  Str.startswith "/" (stem +:+ "(" +:+ x) = Str.startswith "/" (stem +:+ "(" +:+ y).
Proof. by destruct stem. Qed.

(** different suffixes give different paths *)
Lemma probed_path_inj (final_name : string) (n m : nat) :
  Path.join "final-output" (numbered final_name n)
  = Path.join "final-output" (numbered final_name m) ->
  n = m.
Proof.
  rewrite !join_final_output_eq. unfold numbered.
  rewrite (startswith_slash_stem _ _ (pretty m +:+ ").pdf")).
  intros H.
  assert (Str.drop_last 4 final_name +:+ "(" +:+ pretty n +:+ ").pdf"
          = Str.drop_last 4 final_name +:+ "(" +:+ pretty m +:+ ").pdf") as Heq.
  { destruct (Str.startswith "/" _); [done|]. by apply (inj (String.append _)) in H. }
  apply (inj (String.append _)) in Heq. apply (inj (String.append _)) in Heq.
  apply sapp_inj_r in Heq. by apply (inj pretty) in Heq.
Qed.

(** the probe stops at the first free suffix *)
Lemma probe_some (final_name : string) (w : world) : forall bound num n,
  probe bound num final_name w = Some n ->
  num <= n
  /\ path_exists (Path.join "final-output" (numbered final_name n)) w = false
  /\ (forall m, num <= m -> m < n ->
        path_exists (Path.join "final-output" (numbered final_name m)) w = true).
Proof.
  induction bound as [|bound IH]; intros num n; simpl; [done|].
  destruct (path_exists _ w) eqn:E.
  - intros (Hle & Hfree & Hbusy)%IH. split; [lia|]. split; [done|].
    intros m Hm1 Hm2. destruct (decide (m = num)) as [->|]; [done|].
    apply Hbusy; lia.
  - intros [= <-]. split; [lia|]. split; [done|]. intros; lia.
Qed.

Lemma probe_none (final_name : string) (w : world) : forall bound num,
  probe bound num final_name w = None ->
  forall i, i < bound ->
    path_exists (Path.join "final-output" (numbered final_name (num + i))) w = true.
Proof.
  induction bound as [|bound IH]; intros num; simpl; [intros; lia|].
  destruct (path_exists _ w) eqn:E; [|done].
  intros Hnone [|i] Hi.
  - by rewrite Nat.add_0_r.
  - replace (num + S i) with (S num + i) by lia. apply IH; [done|lia].
Qed.

Lemma path_exists_elem (p : string) (w : world) :
  path_exists p w = true -> p ∈ dom (files w) ∪ dirs w.
Proof.
  unfold path_exists, is_file, is_dir.
  intros [H|H]%orb_true_iff; apply bool_decide_eq_true in H.
  - apply elem_of_union_l. by apply elem_of_dom.
  - by apply elem_of_union_r.
Qed.

(** there are more suffixes to try than entries to collide with: the loop
    of lines 165-166 ends *)
Lemma probe_total (final_name : string) (w : world) :
  exists n, probe (probe_bound w) 1 final_name w = Some n.
Proof.
  destruct (probe (probe_bound w) 1 final_name w) as [n|] eqn:E; [eauto|].
  exfalso. pose proof (probe_none _ _ _ _ E) as Hbusy.
  set (X := dom (files w) ∪ dirs w) in *.
  set (f := fun i => Path.join "final-output" (numbered final_name (1 + i))) in *.
  set (l := f <$> seq 0 (probe_bound w)).
  assert (NoDup l) as Hnodup.
  { apply NoDup_fmap_2; [|apply NoDup_seq].
    intros i j Hij. apply probed_path_inj in Hij. lia. }
  assert (list_to_set l ⊆ X) as Hsub.
  { intros p (i & -> & Hi)%elem_of_list_to_set%list_elem_of_fmap.
    apply elem_of_seq in Hi. apply path_exists_elem, Hbusy. lia. }
  apply subseteq_size in Hsub. rewrite size_list_to_set in Hsub by done.
  unfold l in Hsub. rewrite length_fmap, length_seq in Hsub.
  unfold probe_bound in Hsub. fold X in Hsub. lia.
Qed.

(** lines 163-167 always produce a name, and that name is free in
    [final-output]; when the first choice is taken, the name carries the
    smallest free suffix *)
Lemma resolve_collision_spec (final_name : string) (w : world) :
  exists name,
    resolve_collision final_name w = Ok name w
    /\ path_exists (Path.join "final-output" name) w = false
    /\ (path_exists (Path.join "final-output" final_name) w = false ->
        name = final_name)
    /\ (path_exists (Path.join "final-output" final_name) w = true ->
        exists n, name = numbered final_name n /\ 1 <= n
          /\ forall m, 1 <= m -> m < n ->
               path_exists (Path.join "final-output" (numbered final_name m)) w
               = true).
Proof.
  unfold resolve_collision.
  destruct (path_exists (Path.join "final-output" final_name) w) eqn:E.
  - destruct (probe_total final_name w) as [n Hn]. rewrite Hn.
    apply probe_some in Hn as (Hle & Hfree & Hbusy).
    exists (numbered final_name n). repeat split; [done..|].
    intros _. eauto.
  - exists final_name. repeat split; done.
Qed.

(** * The stage always ends *)

Lemma returns_bind {A B} (m : M A) (f : A -> M B) :
  returns m -> (forall a, returns (f a)) -> returns (m ≫= f).
Proof.
  intros Hm Hf w. unfold mbind, M_bind, bind. specialize (Hm w).
  destruct (m w); [apply Hf|done..].
Qed.

Lemma returns_try {A} (m : M A) (h : exn -> M A) :
  returns m -> (forall e, returns (h e)) -> returns (try_except m h).
Proof.
  intros Hm Hh w. unfold try_except. specialize (Hm w).
  destruct (m w); [done|apply Hh|done].
Qed.

Lemma returns_emit ev : returns (emit ev).
Proof. by intros w. Qed.

Lemma returns_ret {A} (a : A) : returns (ret a).
Proof. by intros w. Qed.

Lemma returns_guarded {A} io_fault s (m : M A) :
  returns m -> returns (guarded io_fault s m).
Proof. intros Hm w. unfold guarded. by destruct (io_fault s); [|apply Hm]. Qed.

Lemma returns_rename_file (src dst : string) : returns (rename_file src dst).
Proof.
  intros w. unfold rename_file. destruct (files w !! src); [|done].
  destruct (is_dir dst w); [done|]. by destruct (negb _).
Qed.

Lemma returns_shutil_move io_fault s (src dst : string) :
  returns (shutil_move io_fault s src dst).
Proof.
  apply returns_guarded. intros w. cbv beta zeta. destruct (is_dir dst w).
  - destruct (path_exists _ w); [done|]. apply returns_rename_file.
  - apply returns_rename_file.
Qed.

Lemma returns_os_mkdir io_fault s (p : string) : returns (os_mkdir io_fault s p).
Proof.
  apply returns_guarded. intros w. cbv beta zeta. destruct (path_exists p w); [done|].
  by destruct (negb _).
Qed.

Lemma returns_extract_text pdfminer io_fault (path : string) :
  returns (extract_text pdfminer io_fault path).
Proof.
  apply returns_guarded. intros w. cbv beta zeta.
  destruct (files w !! path) as [bytes|]; [|done].
  by destruct (pdfminer bytes).
Qed.

Lemma returns_resolve_collision (final_name : string) :
  returns (resolve_collision final_name).
Proof.
  intros w. destruct (resolve_collision_spec final_name w) as (name & -> & _).
  done.
Qed.

Lemma returns_classify pdfminer io_fault (path : string) :
  returns (classify pdfminer io_fault path).
Proof.
  unfold classify. apply returns_bind; [apply returns_extract_text|].
  intros text. destruct (candidates text).
  - apply returns_bind; [apply returns_shutil_move|]. intros _. apply returns_emit.
  - apply returns_bind; [apply returns_resolve_collision|]. intros name.
    apply returns_bind; [apply returns_guarded, returns_rename_file|]. intros _.
    apply returns_bind; [apply returns_shutil_move|]. intros _. apply returns_emit.
Qed.

Lemma returns_quarantine io_fault (path : string) e :
  returns (quarantine io_fault path e).
Proof.
  unfold quarantine. apply returns_bind; [apply returns_emit|]. intros _.
  apply returns_bind; [by intros w|]. intros [|]; [|apply returns_ret].
  apply returns_bind.
  - apply returns_bind; [by intros w|].
    intros [|]; [apply returns_ret | apply returns_os_mkdir].
  - intros _. apply returns_bind; [apply returns_shutil_move|].
    intros _. apply returns_emit.
Qed.

(** the bounded loop of the model never runs out: [process_pdf] ends on
    every path and in every world *)
Lemma returns_process_pdf pdfminer io_fault (path : string) :
  returns (process_pdf pdfminer io_fault path).
Proof.
  unfold process_pdf. destruct (Str.endswith ".pdf" path); [|apply returns_ret].
  apply returns_bind; [apply returns_emit|]. intros _.
  apply returns_bind; [apply returns_emit|]. intros _.
  apply returns_try; [apply returns_classify|]. intros e. apply returns_quarantine.
Qed.

(** * The error handler (lines 174-180) *)

(** a file that is still at its path is moved to [ERROR], which is created
    when it is missing *)
Lemma quarantine_in_place io_fault (path : string) e w bytes :
  files w !! path = Some bytes ->
  io_fault AtMkdir = false -> io_fault AtMoveError = false ->
  files w !! "ERROR" = None ->
  Path.join "ERROR" (Path.basename path) ∉ dirs w ->
  exists w',
    quarantine io_fault path e w = Ok () w'
    /\ files w' = <[Path.join "ERROR" (Path.basename path) := bytes]>
                    (delete path (files w))
    /\ dirs w' = {[ "ERROR" ]} ∪ dirs w
    /\ log w' = log w ++ [EvError path e; EvQuarantined path].
Proof.
  intros Hfile Hf1 Hf2 Hnofile Hdst.
  destruct (join_error _ (basename_no_slash path)) as [Hjoin Hparent].
  unfold quarantine.
  rewrite (bind_ok _ _ _ _ _ (emit_run _ _)).
  set (w1 := World (files w) (dirs w) (log w ++ [EvError path e])).
  assert (path_exists path w1 = true) as Hthere.
  { unfold path_exists, is_file. simpl.
    by rewrite bool_decide_eq_true_2 by (by rewrite Hfile). }
  rewrite (bind_ok _ _ w1 _ w1 (eq_refl : os_path_exists path w1 = Ok _ w1)).
  rewrite Hthere.
  assert (exists w2,
    (os_path_exists "ERROR" ≫= λ have_dir : bool,
       if have_dir then ret () else os_mkdir io_fault AtMkdir "ERROR") w1 = Ok () w2
    /\ files w2 = files w /\ dirs w2 = {[ "ERROR" ]} ∪ dirs w
    /\ log w2 = log w1) as (w2 & Hrun & Hfiles & Hdirs & Hlog).
  { rewrite (bind_ok _ _ w1 _ w1 (eq_refl : os_path_exists "ERROR" w1 = Ok _ w1)).
    destruct (path_exists "ERROR" w1) eqn:Hex.
    - exists w1. repeat split.
      unfold path_exists, is_file, is_dir in Hex. simpl in Hex.
      rewrite bool_decide_eq_false_2 in Hex by (by rewrite Hnofile; intros []).
      apply bool_decide_eq_true in Hex. simpl.
      symmetry. apply subseteq_union_1_L. by apply singleton_subseteq_l.
    - unfold os_mkdir, guarded. rewrite Hf1, Hex. eauto. }
  rewrite (bind_ok _ _ _ _ _ Hrun).
  assert (Path.join "ERROR" (Path.basename path) ∉ dirs w2) as Hdst2.
  { rewrite Hdirs. intros [Heq%elem_of_singleton|?]%elem_of_union; [|done].
    rewrite Hjoin in Heq. apply (f_equal String.length) in Heq.
    rewrite slength_app in Heq. simpl in Heq. lia. }
  assert ("ERROR" ∈ dirs w2) as Hdir2.
  { rewrite Hdirs. apply elem_of_union_l. by apply elem_of_singleton. }
  assert (files w2 !! path = Some bytes) as Hfile2 by (by rewrite Hfiles).
  rewrite (bind_ok _ _ _ _ _
             (shutil_move_onto io_fault _ path _ w2 bytes Hf2 Hfile2 Hdst2
                (parent_exists_in _ _ w2 Hparent Hdir2))).
  rewrite emit_run. simpl. eexists. split; [reflexivity|]. simpl.
  rewrite Hfiles, Hdirs, Hlog. simpl. rewrite <- app_assoc. done.
Qed.

(** the part of C1 that the code delivers: when the [try] block fails and
    the file is still at its path, the file ends in [ERROR] under its base
    name and nowhere else *)
Lemma failure_in_place_quarantined pdfminer io_fault (path : string) w e w1 bytes :
  Str.endswith ".pdf" path = true ->
  classify pdfminer io_fault path
    (World (files w) (dirs w) (log w ++ [EvProcessing path; EvSleep 3]))
    = Raise e w1 ->
  files w1 !! path = Some bytes ->
  io_fault AtMkdir = false -> io_fault AtMoveError = false ->
  files w1 !! "ERROR" = None ->
  Path.join "ERROR" (Path.basename path) ∉ dirs w1 ->
  exists w',
    process_pdf pdfminer io_fault path w = Ok () w'
    /\ files w' = <[Path.join "ERROR" (Path.basename path) := bytes]>
                    (delete path (files w1))
    /\ dirs w' = {[ "ERROR" ]} ∪ dirs w1.
Proof.
  intros Hpdf Hraise Hfile Hf1 Hf2 Hnofile Hdst.
  rewrite process_pdf_enters by done. rewrite (try_raise _ _ _ _ _ Hraise).
  destruct (quarantine_in_place io_fault path e w1 bytes) as (w' & -> & ? & ? & _);
    eauto.
Qed.

(** * Further properties of the classification stage *)

(** ** Naming (lines 156-161) *)

Lemma length_take_le n (s : string) : String.length (Str.take n s) <= n.
Proof.
  revert s. induction n as [|n IH]; intros [|c s]; simpl; try lia.
  specialize (IH s). lia.
Qed.

Lemma endswith_app (a p : string) : Str.endswith p (a +:+ p) = true.
Proof.
  unfold Str.endswith. rewrite slength_app.
  replace (String.length a + String.length p - String.length p)
    with (String.length a) by lia.
  rewrite drop_app_length, String.eqb_refl.
  by destruct (Nat.leb_spec (String.length p) (String.length a + String.length p)); [|lia].
Qed.

(** X1.  Whatever the codes are, the file name ends in [.pdf] and has at
    most 150 characters. *)
Theorem final_name_of_within_budget (matches : list string) :
  Str.endswith ".pdf" (final_name_of matches) = true
  /\ String.length (final_name_of matches) <= 150.
Proof.
  unfold final_name_of, max_length.
  destruct (Nat.ltb_spec (150 - 4) (String.length (Str.join "_" matches +:+ ".pdf"))).
  - split; [apply endswith_app|]. rewrite slength_app.
    pose proof (length_take_le (150 - 4) (Str.join "_" matches +:+ ".pdf")).
    simpl in *. lia.
  - split; [apply endswith_app|]. simpl in *. lia.
Qed.

Lemma sorted_unique_spec (l : list string) :
  NoDup (sorted_unique l) /\ Sorted String.le (sorted_unique l)
  /\ (forall x, x ∈ sorted_unique l <-> x ∈ l).
Proof.
  unfold sorted_unique. split; [|split].
  - rewrite merge_sort_Permutation. apply NoDup_remove_dups.
  - apply Sorted_merge_sort. apply _.
  - intros x. rewrite merge_sort_Permutation. apply elem_of_remove_dups.
Qed.

(** X2.  The codes that go into the file name are distinct and in ascending
    order, and they depend only on which codes were found: two lists of
    matches with the same members, in any order and with any repetitions,
    give the same file name. *)
Theorem file_name_ignores_order_and_repeats (l1 l2 : list string) :
  (forall x, x ∈ l1 <-> x ∈ l2) ->
  NoDup (sorted_unique l1) /\ Sorted String.le (sorted_unique l1)
  /\ sorted_unique l1 = sorted_unique l2
  /\ final_name_of (sorted_unique l1) = final_name_of (sorted_unique l2).
Proof.
  intros Hsame.
  destruct (sorted_unique_spec l1) as (Hn1 & Hs1 & He1).
  destruct (sorted_unique_spec l2) as (Hn2 & Hs2 & He2).
  assert (sorted_unique l1 = sorted_unique l2) as Heq.
  { apply (Sorted_unique String.le); [done..|].
    apply NoDup_Permutation; [done..|]. intros x. by rewrite He1, He2, Hsame. }
  repeat split; [done..|]. by rewrite Heq.
Qed.

Lemma file_name_ignores_order_and_repeats_witness :
  sorted_unique ["SPO-21-0001"; "PO-20-0002"; "SPO-21-0001"]
  = sorted_unique ["PO-20-0002"; "SPO-21-0001"].
Proof.
  apply (file_name_ignores_order_and_repeats
           ["SPO-21-0001"; "PO-20-0002"; "SPO-21-0001"]
           ["PO-20-0002"; "SPO-21-0001"]).
  intros x. rewrite !elem_of_cons, !elem_of_nil. tauto.
Defined.

(** ** Collision probing (lines 163-167) *)

(** X3.  Lines 163-167 always end with a name that is free in
    [final-output]: the given name when it is free, and otherwise the name
    with the smallest suffix [(n)], [n >= 1], that is free. *)
Theorem collision_probe_smallest_free (final_name : string) (w : world) :
  exists name,
    resolve_collision final_name w = Ok name w
    /\ path_exists (Path.join "final-output" name) w = false
    /\ (path_exists (Path.join "final-output" final_name) w = false ->
        name = final_name)
    /\ (path_exists (Path.join "final-output" final_name) w = true ->
        exists n, name = numbered final_name n /\ 1 <= n
          /\ forall m, 1 <= m -> m < n ->
               path_exists (Path.join "final-output" (numbered final_name m)) w
               = true).
Proof. apply resolve_collision_spec. Qed.

(** ** The handler (lines 174-180) *)

Lemma classify_missing pdfminer io_fault (path : string) w :
  files w !! path = None ->
  exists e, classify pdfminer io_fault path w = Raise e w.
Proof.
  intros Hnone. unfold classify.
  assert (exists e, extract_text pdfminer io_fault path w = Raise e w) as [e He].
  { unfold extract_text, guarded. destruct (io_fault AtExtract); [by eexists|].
    rewrite Hnone. by eexists. }
  exists e. by apply bind_raise.
Qed.

(** nothing at the path: the failure to read is printed, nothing is moved *)
Lemma process_pdf_missing pdfminer io_fault (path : string) (w : world) :
  files w !! path = None -> path ∉ dirs w ->
  exists w',
    process_pdf pdfminer io_fault path w = Ok () w'
    /\ files w' = files w /\ dirs w' = dirs w.
Proof.
  intros Hnone Hnodir.
  destruct (Str.endswith ".pdf" path) eqn:Hpdf.
  - rewrite process_pdf_enters by done.
    set (w1 := World (files w) (dirs w) (log w ++ [EvProcessing path; EvSleep 3])).
    destruct (classify_missing pdfminer io_fault path w1 Hnone) as [e He].
    rewrite (try_raise _ _ _ _ _ He). unfold quarantine.
    rewrite (bind_ok _ _ _ _ _ (emit_run _ _)).
    set (w2 := World _ _ _).
    rewrite (bind_ok _ _ w2 _ w2 (eq_refl : os_path_exists path w2 = Ok _ w2)).
    assert (path_exists path w2 = false) as ->.
    { unfold path_exists, is_file, is_dir. simpl.
      rewrite Hnone, (bool_decide_eq_false_2 _ Hnodir).
      by rewrite bool_decide_eq_false_2 by (by intros []). }
    by exists w2.
  - exists w. unfold process_pdf. by rewrite Hpdf.
Qed.

(** X4.  When nothing is left at the path (the ingest stage deleted or
    archived the original, or the file was removed meanwhile), [process_pdf]
    changes neither files nor directories and ends without an exception: the
    failure to read is printed and nothing is quarantined. *)
Theorem process_pdf_on_vanished_file pdfminer io_fault (path : string) (w : world) :
  files w !! path = None -> path ∉ dirs w ->
  exists w',
    process_pdf pdfminer io_fault path w = Ok () w'
    /\ files w' = files w /\ dirs w' = dirs w.
Proof. apply process_pdf_missing. Qed.

Lemma process_pdf_on_vanished_file_witness :
  let w := World {[ "ocr-output/a.pdf" := "text" ]} {[ "scan-input" ]} [] in
  exists w',
    process_pdf Some (fun _ => false) "scan-input/a.pdf" w = Ok () w'
    /\ files w' = files w /\ dirs w' = dirs w.
Proof.
  intros w.
  apply (process_pdf_on_vanished_file Some (fun _ => false) "scan-input/a.pdf" w).
  - reflexivity.
  - refine (bool_decide_unpack _ _). vm_compute. exact I.
Defined.

(** X5.  When the [try] block raises while the file is still at its path (the
    text cannot be extracted, the move of a document without codes fails, the
    rename fails) and the handler's own calls succeed, the file ends at
    [ERROR/<base name>] with its bytes, [ERROR] being created when it is
    missing; a file that was at [ERROR/<base name>] before is replaced. *)
Theorem failed_document_quarantined pdfminer io_fault (path : string) w e w1 bytes :
  Str.endswith ".pdf" path = true ->
  classify pdfminer io_fault path
    (World (files w) (dirs w) (log w ++ [EvProcessing path; EvSleep 3]))
    = Raise e w1 ->
  files w1 !! path = Some bytes ->
  io_fault AtMkdir = false -> io_fault AtMoveError = false ->
  files w1 !! "ERROR" = None ->
  Path.join "ERROR" (Path.basename path) ∉ dirs w1 ->
  exists w',
    process_pdf pdfminer io_fault path w = Ok () w'
    /\ files w' = <[Path.join "ERROR" (Path.basename path) := bytes]>
                    (delete path (files w1))
    /\ dirs w' = {[ "ERROR" ]} ∪ dirs w1.
Proof. apply failure_in_place_quarantined. Qed.

Lemma failed_document_quarantined_witness :
  let w := World {[ "scan-input/a.pdf" := "%PDF broken";
                    "ERROR/a.pdf" := "an older failure" ]}
                 {[ "scan-input"; "ERROR" ]} [] in
  exists w',
    process_pdf (fun _ => None) (fun _ => false) "scan-input/a.pdf" w = Ok () w'
    /\ files w' = <[Path.join "ERROR" (Path.basename "scan-input/a.pdf")
                     := "%PDF broken"]> (delete "scan-input/a.pdf" (files w))
    /\ dirs w' = {[ "ERROR" ]} ∪ dirs w.
Proof.
  intros w.
  apply (failed_document_quarantined (fun _ => None) (fun _ => false)
           "scan-input/a.pdf" w PDFSyntaxError
           (World (files w) (dirs w)
              (log w ++ [EvProcessing "scan-input/a.pdf"; EvSleep 3]))
           "%PDF broken").
  - reflexivity.
  - reflexivity.
  - reflexivity.
  - reflexivity.
  - reflexivity.
  - reflexivity.
  - refine (bool_decide_unpack _ _). vm_compute. exact I.
Defined.

(** X6.  The handler is not protected itself: when the [try] block raised,
    the file is still at its path and the move into [ERROR] fails, the
    exception of that move leaves [process_pdf], and the file stays where it
    was. *)
Theorem handler_failure_escapes pdfminer io_fault (path : string) w e w1 bytes :
  Str.endswith ".pdf" path = true ->
  classify pdfminer io_fault path
    (World (files w) (dirs w) (log w ++ [EvProcessing path; EvSleep 3]))
    = Raise e w1 ->
  files w1 !! path = Some bytes ->
  "ERROR" ∈ dirs w1 ->
  io_fault AtMoveError = true ->
  exists w',
    process_pdf pdfminer io_fault path w = Raise OSError w'
    /\ files w' = files w1 /\ dirs w' = dirs w1.
Proof.
  intros Hpdf Hraise Hfile Hdir Hfault.
  rewrite process_pdf_enters by done. rewrite (try_raise _ _ _ _ _ Hraise).
  unfold quarantine. rewrite (bind_ok _ _ _ _ _ (emit_run _ _)).
  set (w2 := World (files w1) (dirs w1) (log w1 ++ [EvError path e])).
  rewrite (bind_ok _ _ w2 _ w2 (eq_refl : os_path_exists path w2 = Ok _ w2)).
  assert (path_exists path w2 = true) as ->.
  { unfold path_exists, is_file. simpl.
    by rewrite bool_decide_eq_true_2 by (by rewrite Hfile). }
  assert ((os_path_exists "ERROR" ≫= λ have_dir : bool,
             if have_dir then ret () else os_mkdir io_fault AtMkdir "ERROR") w2
          = Ok () w2) as Hmk.
  { rewrite (bind_ok _ _ w2 _ w2 (eq_refl : os_path_exists "ERROR" w2 = Ok _ w2)).
    assert (path_exists "ERROR" w2 = true) as ->; [|done].
    unfold path_exists, is_dir. simpl.
    rewrite (bool_decide_eq_true_2 _ Hdir). apply orb_true_r. }
  rewrite (bind_ok _ _ _ _ _ Hmk).
  assert (shutil_move io_fault AtMoveError path
            (Path.join "ERROR" (Path.basename path)) w2 = Raise OSError w2) as Hmv.
  { unfold shutil_move, guarded. by rewrite Hfault. }
  rewrite (bind_raise _ _ _ _ _ Hmv). by exists w2.
Qed.

Lemma handler_failure_escapes_witness :
  let w := World {[ "scan-input/a.pdf" := "%PDF broken" ]}
                 {[ "scan-input"; "ERROR" ]} [] in
  let io_fault := fun s => match s with AtMoveError => true | _ => false end in
  exists w',
    process_pdf (fun _ => None) io_fault "scan-input/a.pdf" w = Raise OSError w'
    /\ files w' = files w /\ dirs w' = dirs w.
Proof.
  intros w io_fault.
  apply (handler_failure_escapes (fun _ => None) io_fault "scan-input/a.pdf" w
           PDFSyntaxError
           (World (files w) (dirs w)
              (log w ++ [EvProcessing "scan-input/a.pdf"; EvSleep 3]))
           "%PDF broken").
  - reflexivity.
  - reflexivity.
  - reflexivity.
  - refine (bool_decide_unpack _ _). vm_compute. exact I.
  - reflexivity.
Defined.

(** ** A document with codes (lines 154-170) *)

Lemma all_impl (f g : ascii -> bool) (s : string) :
  (forall c, f c = true -> g c = true) -> Str.all f s = true -> Str.all g s = true.
Proof.
  intros Hfg. induction s as [|c s IH]; [done|]. rewrite !all_cons.
  intros [Hc Hs]%andb_true_iff. by rewrite (Hfg c Hc), IH.
Qed.

Lemma upper_no_slash c : is_upper c = true -> no_slash c = true.
Proof. by each_char c. Qed.

Lemma digit_no_slash c : is_digit c = true -> no_slash c = true.
Proof. by each_char c. Qed.

Lemma canonical_no_slash (x : string) :
  is_canonical x = true -> Str.all no_slash x = true.
Proof.
  intros (p & a & b & -> & Hp & _ & Ha & _ & Hb & _)%canonical_elim.
  rewrite !all_app.
  rewrite (all_impl _ _ p upper_no_slash Hp), (all_impl _ _ a digit_no_slash Ha),
    (all_impl _ _ b digit_no_slash Hb). done.
Qed.

Lemma join_all_no_slash (l : list string) :
  Forall (fun x => Str.all no_slash x = true) l ->
  Str.all no_slash (Str.join "_" l) = true.
Proof.
  unfold Str.join. induction 1 as [|x l Hx Hl IH]; [done|].
  destruct l as [|y l]; [done|].
  change (String.concat "_" (x :: y :: l))
    with (x +:+ "_" +:+ String.concat "_" (y :: l)).
  by rewrite !all_app, Hx, IH.
Qed.

Lemma pretty_N_char_digit x : is_digit (pretty_N_char x) = true.
Proof. unfold pretty_N_char. by repeat case_match. Qed.

Lemma pretty_N_go_digits x : forall s,
  Str.all is_digit s = true -> Str.all is_digit (pretty_N_go x s) = true.
Proof.
  induction (N.lt_wf_0 x) as [x _ IH]; intros s Hs.
  destruct (decide (x = 0)%N) as [->|Hx]; [by rewrite pretty_N_go_0|].
  rewrite pretty_N_go_step by lia. apply IH.
  - apply N.div_lt; lia.
  - by rewrite all_cons, pretty_N_char_digit.
Qed.

(** [str(num)] is made of digits *)
Lemma pretty_nat_digits (n : nat) : Str.all is_digit (pretty n) = true.
Proof.
  unfold pretty, pretty_nat, pretty, pretty_N.
  destruct (decide _); [done|]. by apply pretty_N_go_digits.
Qed.

Lemma final_name_no_slash (text : string) :
  Str.all no_slash
    (final_name_of (sorted_unique (autocorrect_match <$> candidates text))) = true.
Proof.
  assert (Str.all no_slash
            (Str.join "_" (sorted_unique (autocorrect_match <$> candidates text)))
          = true) as Hjoin.
  { apply join_all_no_slash, Forall_forall. intros x Hx.
    destruct (sorted_unique_spec (autocorrect_match <$> candidates text))
      as (_ & _ & Hmem).
    apply Hmem in Hx.
    apply list_elem_of_fmap in Hx as (c & -> & Hc).
    by eapply canonical_no_slash, candidate_autocorrect_canonical. }
  unfold final_name_of.
  destruct (_ <? _)%nat; rewrite !all_app.
  - rewrite all_take; [done|]. by rewrite all_app, Hjoin.
  - by rewrite Hjoin.
Qed.

Lemma numbered_no_slash (final_name : string) (n : nat) :
  Str.all no_slash final_name = true ->
  Str.all no_slash (numbered final_name n) = true.
Proof.
  intros H. unfold numbered, Str.drop_last. rewrite !all_app.
  rewrite all_take by done.
  by rewrite (all_impl _ _ _ digit_no_slash (pretty_nat_digits n)).
Qed.

(** the name chosen by lines 163-167 is the given one or a numbered one *)
Lemma resolve_collision_name (final_name name : string) (w w' : world) :
  resolve_collision final_name w = Ok name w' ->
  w' = w
  /\ (name = final_name \/ exists n, name = numbered final_name n)
  /\ path_exists (Path.join "final-output" name) w = false.
Proof.
  destruct (resolve_collision_spec final_name w) as (name' & Hrun & Hfree & H1 & H2).
  rewrite Hrun. intros [= <- <-]. split; [done|]. split; [|done].
  destruct (path_exists (Path.join "final-output" final_name) w).
  - destruct H2 as (n & -> & _); eauto.
  - left. by apply H1.
Qed.

Lemma probe_frame (final_name : string) (w w1 : world) :
  files w1 = files w -> dirs w1 = dirs w ->
  forall bound num, probe bound num final_name w1 = probe bound num final_name w.
Proof.
  intros Hf Hd. induction bound as [|bound IH]; intros num; [done|]. simpl.
  unfold path_exists, is_file, is_dir. rewrite Hf, Hd.
  by destruct (_ || _); [apply IH|].
Qed.

(** the choice of lines 163-167 depends on the files and directories only *)
Lemma resolve_collision_frame (final_name name : string) (w w1 : world) :
  files w1 = files w -> dirs w1 = dirs w ->
  resolve_collision final_name w = Ok name w ->
  resolve_collision final_name w1 = Ok name w1.
Proof.
  intros Hf Hd. unfold resolve_collision.
  rewrite (probe_frame final_name w w1 Hf Hd). unfold probe_bound.
  unfold path_exists, is_file, is_dir. rewrite Hf, Hd.
  destruct (_ || _).
  - destruct (probe _ _ _ _); [|done]. by intros [= ->].
  - by intros [= ->].
Qed.

Lemma basename_join (d name : string) :
  Str.all no_slash name = true -> Path.basename (Path.join d name) = name.
Proof.
  intros Hname. unfold Path.basename, Path.join.
  assert (Str.startswith "/" name = false) as ->.
  { destruct name as [|c name]; [done|]. rewrite all_cons in Hname.
    apply andb_true_iff in Hname as [Hc _]. unfold no_slash in Hc.
    change (Str.startswith "/" (String c name)) with (Ascii.eqb "/" c && true).
    rewrite Ascii.eqb_sym. by destruct (Ascii.eqb c "/"). }
  destruct (String.eqb_spec d "") as [->|Hd]; simpl.
  { by rewrite sapp_nil_l, split_last_no_slash. }
  destruct (Str.endswith "/" d) eqn:Hend.
  - unfold Str.endswith in Hend. apply andb_true_iff in Hend as [_ Hend].
    apply String.eqb_eq in Hend.
    rewrite <- (take_drop (String.length d - String.length "/") d), Hend.
    by rewrite sapp_assoc, split_last_app.
  - by rewrite split_last_app.
Qed.

Lemma match_nonempty {A B} (l : list A) (x y : B) :
  l <> [] -> match l with [] => x | _ :: _ => y end = y.
Proof. by destruct l. Qed.

(** The run of lines 150-170 on a document with codes when no call fails *)
Lemma coded_document_run pdfminer io_fault (path : string) (w : world)
    (bytes text name : string) :
  Str.endswith ".pdf" path = true ->
  files w !! path = Some bytes ->
  pdfminer bytes = Some text ->
  candidates text <> [] ->
  resolve_collision
    (final_name_of (sorted_unique (autocorrect_match <$> candidates text))) w
    = Ok name w ->
  io_fault AtExtract = false -> io_fault AtRename = false ->
  io_fault AtMoveFinal = false ->
  "final-output" ∈ dirs w ->
  Path.join (Path.dirname path) name ∉ dirs w ->
  parent_exists (Path.join (Path.dirname path) name) w = true ->
  Path.join (Path.dirname path) name <> Path.join "final-output" name ->
  files w !! Path.join "final-output" name = None
  /\ exists w',
      process_pdf pdfminer io_fault path w = Ok () w'
      /\ files w' = <[Path.join "final-output" name := bytes]>
                      (delete (Path.join (Path.dirname path) name)
                         (delete path (files w)))
      /\ dirs w' = dirs w
      /\ log w' = log w ++ [EvProcessing path; EvSleep 3; EvMoved name].
Proof.
  intros Hpdf Hfile Htext Hsome Hname Hf1 Hf2 Hf3 Hfo Htmp Hparent Hne.
  set (fn := final_name_of (sorted_unique (autocorrect_match <$> candidates text))) in *.
  set (tmp := Path.join (Path.dirname path) name) in *.
  set (dst := Path.join "final-output" name) in *.
  destruct (resolve_collision_name _ _ _ _ Hname) as (_ & Hshape & Hfree).
  assert (Str.all no_slash name = true) as Hns.
  { pose proof (final_name_no_slash text) as Hfn. fold fn in Hfn.
    destruct Hshape as [->|[n ->]]; [done|by apply numbered_no_slash]. }
  fold dst in Hfree. unfold path_exists, is_file, is_dir in Hfree.
  apply orb_false_iff in Hfree as [Hnofile Hnodir].
  apply bool_decide_eq_false in Hnofile, Hnodir.
  assert (files w !! dst = None) as Hdstfile.
  { destruct (files w !! dst) eqn:E; [|done]. destruct Hnofile. eauto. }
  split; [done|].
  rewrite process_pdf_enters by done.
  set (w1 := World (files w) (dirs w) (log w ++ [EvProcessing path; EvSleep 3])).
  set (w2 := World (<[tmp := bytes]> (delete path (files w))) (dirs w) (log w1)).
  set (w3 := World (<[dst := bytes]> (delete tmp (files w2))) (dirs w) (log w1)).
  assert (classify pdfminer io_fault path w1
          = Ok () (World (files w3) (dirs w3) (log w3 ++ [EvMoved name]))) as Hrun.
  { unfold classify.
    rewrite (bind_ok _ _ _ _ _ (extract_text_ok _ _ path w1 bytes text Hf1 Hfile Htext)).
    cbv zeta. rewrite match_nonempty by done. fold fn.
    rewrite (bind_ok _ _ _ _ _
               (resolve_collision_frame fn name w w1 eq_refl eq_refl Hname)).
    fold tmp.
    assert (os_rename io_fault AtRename path tmp w1 = Ok () w2) as Hren.
    { unfold os_rename, guarded. rewrite Hf2.
      exact (rename_file_ok path tmp w1 bytes Hfile Htmp Hparent). }
    rewrite (bind_ok _ _ _ _ _ Hren).
    assert (shutil_move io_fault AtMoveFinal tmp "final-output" w2 = Ok () w3) as Hmv.
    { unfold shutil_move, guarded, is_dir. rewrite Hf3.
      change (dirs w2) with (dirs w). rewrite (bool_decide_eq_true_2 _ Hfo).
      assert (Path.basename tmp = name) as Hbase by (by apply basename_join).
      cbv zeta. rewrite Hbase. fold dst.
      assert (path_exists dst w2 = false) as ->.
      { unfold path_exists, is_file, is_dir. simpl.
        rewrite lookup_insert_ne by done.
        rewrite (bool_decide_eq_false_2 (_ ∈ _) Hnodir), orb_false_r.
        apply bool_decide_eq_false_2. intros [x Hx].
        apply lookup_delete_Some in Hx as [_ Hx]. congruence. }
      assert (files w2 !! tmp = Some bytes) as Htmpfile by apply lookup_insert_eq.
      assert (parent_exists dst w2 = true) as Hparent2.
      { apply parent_exists_in; [|exact Hfo]. by apply (join_final_output name). }
      exact (rename_file_ok tmp dst w2 bytes Htmpfile Hnodir Hparent2). }
    rewrite (bind_ok _ _ _ _ _ Hmv). apply emit_run. }
  rewrite (try_ok _ _ _ _ _ Hrun). eexists. split; [done|]. simpl.
  rewrite delete_insert_eq. repeat split. by rewrite <- app_assoc.
Qed.

(** X7.  A document whose text holds codes, when [final-output] is an
    existing directory, the renamed path in the input's directory is not a
    directory and is another path than the target, and no call fails: the
    file is renamed in its directory to the name chosen by lines 158-167 and
    moved into [final-output].  It ends at [final-output/<name>] with its
    bytes, that path was free before (nothing in [final-output] is replaced),
    the original path is empty, and the directories are as they were. *)
Theorem coded_document_renamed_and_moved pdfminer io_fault (path : string)
    (w : world) (bytes text name : string) :
  Str.endswith ".pdf" path = true ->
  files w !! path = Some bytes ->
  pdfminer bytes = Some text ->
  candidates text <> [] ->
  resolve_collision
    (final_name_of (sorted_unique (autocorrect_match <$> candidates text))) w
    = Ok name w ->
  io_fault AtExtract = false -> io_fault AtRename = false ->
  io_fault AtMoveFinal = false ->
  "final-output" ∈ dirs w ->
  Path.join (Path.dirname path) name ∉ dirs w ->
  parent_exists (Path.join (Path.dirname path) name) w = true ->
  Path.join (Path.dirname path) name <> Path.join "final-output" name ->
  files w !! Path.join "final-output" name = None
  /\ exists w',
      process_pdf pdfminer io_fault path w = Ok () w'
      /\ files w' = <[Path.join "final-output" name := bytes]>
                      (delete (Path.join (Path.dirname path) name)
                         (delete path (files w)))
      /\ dirs w' = dirs w
      /\ log w' = log w ++ [EvProcessing path; EvSleep 3; EvMoved name].
Proof. apply coded_document_run. Qed.

Lemma coded_document_renamed_and_moved_witness :
  let w := World {[ "scan-input/scan-001.pdf" := "invoice ref P0-20-0002 attached";
                    "final-output/PO-20-0002.pdf" := "an earlier document" ]}
                 {[ "scan-input"; "final-output" ]} [] in
  exists w',
    process_pdf Some (fun _ => false) "scan-input/scan-001.pdf" w = Ok () w'
    /\ files w' = {[ "final-output/PO-20-0002.pdf" := "an earlier document";
                     "final-output/PO-20-0002(1).pdf"
                       := "invoice ref P0-20-0002 attached" ]}.
Proof.
  intros w.
  destruct (coded_document_renamed_and_moved Some (fun _ => false)
              "scan-input/scan-001.pdf" w "invoice ref P0-20-0002 attached"
              "invoice ref P0-20-0002 attached" "PO-20-0002(1).pdf")
    as (_ & w' & Hrun & Hfiles & _).
  - reflexivity.
  - reflexivity.
  - reflexivity.
  - vm_compute. discriminate.
  - vm_compute. reflexivity.
  - reflexivity.
  - reflexivity.
  - reflexivity.
  - refine (bool_decide_unpack _ _). vm_compute. exact I.
  - refine (bool_decide_unpack _ _). vm_compute. exact I.
  - vm_compute. reflexivity.
  - vm_compute. discriminate.
  - exists w'. split; [exact Hrun|]. rewrite Hfiles. vm_compute. reflexivity.
Defined.

(** X8.  The rename of line 168 is not guarded: a file of the input
    directory that already carries the new name is replaced.  After the run
    nothing is left at that path, and the only entry that is new is the moved
    document in [final-output]. *)
Theorem rename_replaces_namesake pdfminer io_fault (path : string)
    (w : world) (bytes text name other : string) :
  Str.endswith ".pdf" path = true ->
  files w !! path = Some bytes ->
  pdfminer bytes = Some text ->
  candidates text <> [] ->
  resolve_collision
    (final_name_of (sorted_unique (autocorrect_match <$> candidates text))) w
    = Ok name w ->
  io_fault AtExtract = false -> io_fault AtRename = false ->
  io_fault AtMoveFinal = false ->
  "final-output" ∈ dirs w ->
  Path.join (Path.dirname path) name ∉ dirs w ->
  parent_exists (Path.join (Path.dirname path) name) w = true ->
  Path.join (Path.dirname path) name <> Path.join "final-output" name ->
  files w !! Path.join (Path.dirname path) name = Some other ->
  exists w',
    process_pdf pdfminer io_fault path w = Ok () w'
    /\ files w' !! Path.join (Path.dirname path) name = None
    /\ (forall q x, q <> Path.join "final-output" name ->
          files w' !! q = Some x -> files w !! q = Some x).
Proof.
  intros Hpdf Hfile Htext Hsome Hname Hf1 Hf2 Hf3 Hfo Htmp Hparent Hne Hother.
  destruct (coded_document_run pdfminer io_fault path w bytes text name)
    as (_ & w' & Hrun & Hfiles & _); try done.
  exists w'. split; [done|]. rewrite Hfiles. split.
  - rewrite lookup_insert_ne by done. apply lookup_delete_eq.
  - intros q x Hq. rewrite lookup_insert_ne by done.
    intros [_ [_ Hx]%lookup_delete_Some]%lookup_delete_Some. done.
Qed.

Lemma rename_replaces_namesake_witness :
  let w := World {[ "scan-input/scan-001.pdf" := "invoice ref P0-20-0002 attached";
                    "scan-input/PO-20-0002.pdf" := "a scan that was waiting" ]}
                 {[ "scan-input"; "final-output" ]} [] in
  exists w',
    process_pdf Some (fun _ => false) "scan-input/scan-001.pdf" w = Ok () w'
    /\ files w' !! "scan-input/PO-20-0002.pdf" = None
    /\ files w' = {[ "final-output/PO-20-0002.pdf"
                       := "invoice ref P0-20-0002 attached" ]}.
Proof.
  intros w.
  destruct (rename_replaces_namesake Some (fun _ => false)
              "scan-input/scan-001.pdf" w "invoice ref P0-20-0002 attached"
              "invoice ref P0-20-0002 attached" "PO-20-0002.pdf"
              "a scan that was waiting")
    as (w' & Hrun & Hgone & _).
  - reflexivity.
  - reflexivity.
  - reflexivity.
  - vm_compute. discriminate.
  - vm_compute. reflexivity.
  - reflexivity.
  - reflexivity.
  - reflexivity.
  - refine (bool_decide_unpack _ _). vm_compute. exact I.
  - refine (bool_decide_unpack _ _). vm_compute. exact I.
  - vm_compute. reflexivity.
  - vm_compute. discriminate.
  - vm_compute. reflexivity.
  - exists w'. split; [exact Hrun|]. split; [exact Hgone|].
    assert (process_pdf Some (fun _ => false) "scan-input/scan-001.pdf" w
            = Ok () (World {[ "final-output/PO-20-0002.pdf"
                                := "invoice ref P0-20-0002 attached" ]}
                           {[ "scan-input"; "final-output" ]}
                           [EvProcessing "scan-input/scan-001.pdf"; EvSleep 3;
                            EvMoved "PO-20-0002.pdf"])) as Hval
      by (vm_compute; reflexivity).
    rewrite Hval in Hrun. by injection Hrun as <-.
Defined.

(** * Further properties of [autocorrect_match] *)

(** where the three groups of a successful re-parse sit in the text *)
Lemma re_match_code_decomp (m q a b : string) :
  re_match false code_pattern m = Some [q; a; b] ->
  code_groups q a b
  /\ exists da db rest,
       m = q +:+ da +:+ a +:+ db +:+ b +:+ rest
       /\ (da = "" \/ da = "-") /\ (db = "" \/ db = "-").
Proof.
  intros (s1 & s2 & g & -> & Hl & [= ->])%rmatch_sound.
  destruct Hl as (p & t & g1 & g2 & -> & Hg & (? & -> & Hp & Hp1 & _ & ->)
    & (da & a' & db & b' & -> & -> & Hda & Hdb & Ha & Hla & Hb & Hlb)%code_tail_lang).
  injection Hg as -> -> ->. split.
  - unfold code_groups. simpl in Hp. repeat split; try done; lia.
  - exists da, db, s2. split; [|done]. by rewrite !sapp_assoc.
Qed.

(** a text splits in one way only into a run of capital letters and a rest
    that does not start with one *)
Lemma upper_run_unique (q1 : string) : forall (q2 r1 r2 : string) x1 x2,
  q1 +:+ String x1 r1 = q2 +:+ String x2 r2 ->
  Str.all is_upper q1 = true -> Str.all is_upper q2 = true ->
  is_upper x1 = false -> is_upper x2 = false ->
  q1 = q2.
Proof.
  induction q1 as [|c1 q1 IH]; intros [|c2 q2] r1 r2 x1 x2;
    rewrite ?sapp_cons, ?sapp_nil_l, ?all_cons; try done.
  - intros [= -> _] _ [Hc _]%andb_true_iff Hx _. congruence.
  - intros [= -> _] [Hc _]%andb_true_iff _ _ Hx. congruence.
  - intros [= -> H] [_ H1]%andb_true_iff [_ H2]%andb_true_iff Hx1 Hx2.
    f_equal. by eapply IH.
Qed.

Lemma strip_candidate (pre sp d0 da d12 d14 : string) :
  pre ∈ code_words -> (sp = "" \/ sp = " ") ->
  Str.all is_digit d0 = true -> (da = "" \/ da = "-") ->
  Str.all is_digit d12 = true -> Str.all is_digit d14 = true ->
  strip_spaces (pre +:+ sp +:+ d0 +:+ da +:+ d12 +:+ "-" +:+ d14)
  = pre +:+ d0 +:+ da +:+ d12 +:+ "-" +:+ d14.
Proof.
  intros Hpre Hsp Hd0 Hda Hd12 Hd14. unfold strip_spaces. rewrite !replace_app.
  rewrite (replace_absent is_digit " " "" d0) by done.
  rewrite (replace_absent is_digit " " "" d12) by done.
  rewrite (replace_absent is_digit " " "" d14) by done.
  change (Str.replace " " "" "-") with "-".
  assert (Str.replace " " "" sp = "") as -> by (by destruct Hsp as [-> | ->]).
  assert (Str.replace " " "" da = da) as -> by (by destruct Hda as [-> | ->]).
  assert (Str.replace " " "" pre = pre) as ->; [|by rewrite sapp_nil_l].
  apply list_elem_of_In in Hpre. simpl in Hpre.
  by destruct Hpre as [<-|[<-|[<-|[<-|[<-|[<-|[]]]]]]].
Qed.

(** What the re-parse sees of a candidate: a prefix [P], [PO], [SPO], [RNWS],
    [SGR] or [SSR] followed by a digit or a dash.  The prefix is [P], and [0]
    follows it, exactly when the candidate was read with [P0] and no dash
    comes right after it. *)
Lemma candidate_normal_form (text c : string) :
  c ∈ candidates text ->
  exists P x r,
    fix_prefix (strip_spaces c) = P +:+ String x r
    /\ is_upper x = false
    /\ ((P ∈ locked_prefixes
         /\ (Str.startswith "P0" c = false
             \/ Str.startswith "P0-" (strip_spaces c) = true))
        \/ (P = "P" /\ x = "0"%char
            /\ Str.startswith "P0" c = true
            /\ Str.startswith "P0-" (strip_spaces c) = false)).
Proof.
  intros (pre & sp & d0 & da & d12 & d14 & -> & Hpre & Hsp & Hd0 & Hl0 & Hda
          & Hd12 & Hl12 & Hd14 & Hl14)%candidate_shape.
  rewrite strip_candidate by done.
  assert (exists x r, d0 +:+ da +:+ d12 +:+ "-" +:+ d14 = String x r
            /\ is_upper x = false
            /\ (is_digit x = true \/ (d0 = "" /\ da = "-" /\ x = "-"%char)))
    as (x & r & Hbody & Hx & Hkind).
  { destruct d0 as [|y d0].
    - destruct Hda as [-> | ->].
      + destruct d12 as [|y d12]; [simpl in Hl12; lia|].
        rewrite all_cons in Hd12. apply andb_true_iff in Hd12 as [Hy _].
        exists y, (d12 +:+ "-" +:+ d14). split; [done|].
        split; [by apply digit_not_upper|by left].
      + exists "-"%char, (d12 +:+ "-" +:+ d14). split; [done|]. split; [done|].
        by right.
    - rewrite all_cons in Hd0. apply andb_true_iff in Hd0 as [Hy _].
      exists y, (d0 +:+ da +:+ d12 +:+ "-" +:+ d14). split; [done|].
      split; [by apply digit_not_upper|by left]. }
  rewrite Hbody.
  apply list_elem_of_In in Hpre. simpl in Hpre.
  destruct Hpre as [<-|[<-|[<-|[<-|[<-|[<-|[]]]]]]].
  - destruct Hkind as [Hdig|(-> & -> & ->)].
    + exists "P", "0"%char, (String x r). rewrite fix_prefix_P0_digit by done.
      split; [done|]. split; [done|]. right. repeat split.
      revert Hdig. by each_char x.
    + exists "PO", "-"%char, r. split; [done|]. split; [done|]. left.
      split; [unfold locked_prefixes; repeat constructor|by right].
  - exists "PO", x, r. split; [done|]. split; [done|]. left.
    split; [unfold locked_prefixes; repeat constructor|by left].
  - exists "SPO", x, r. split; [done|]. split; [done|]. left.
    split; [unfold locked_prefixes; repeat constructor|by left].
  - exists "RNWS", x, r. split; [done|]. split; [done|]. left.
    split; [unfold locked_prefixes; repeat constructor|by left].
  - exists "SGR", x, r. split; [done|]. split; [done|]. left.
    split; [unfold locked_prefixes; repeat constructor|by left].
  - exists "SSR", x, r. split; [done|]. split; [done|]. left.
    split; [unfold locked_prefixes; repeat constructor|by left].
Qed.

(** the prefix group of a candidate's re-parse is the prefix of its normal
    form *)
Lemma candidate_prefix_group (text c P : string) (x : ascii) (r q a b : string) :
  fix_prefix (strip_spaces c) = P +:+ String x r ->
  Str.all is_upper P = true -> is_upper x = false ->
  re_match false code_pattern (fix_prefix (strip_spaces c)) = Some [q; a; b] ->
  q = P
  /\ exists da db rest,
       String x r = da +:+ a +:+ db +:+ b +:+ rest /\ (da = "" \/ da = "-")
       /\ code_groups q a b.
Proof.
  intros Hform HP Hx Hre.
  destruct (re_match_code_decomp _ _ _ _ Hre) as (Hg & da & db & rest & Hm & Hda & _).
  pose proof Hg as (Hq & _ & Ha & Hla & _).
  rewrite Hform in Hm.
  assert (exists y t, da +:+ a +:+ db +:+ b +:+ rest = String y t
                      /\ is_upper y = false) as (y & t & Ht & Hy).
  { destruct Hda as [-> | ->]; [|by exists "-"%char, (a +:+ db +:+ b +:+ rest)].
    destruct a as [|y a]; [simpl in Hla; lia|].
    rewrite all_cons in Ha. apply andb_true_iff in Ha as [Hy _].
    exists y, (a +:+ db +:+ b +:+ rest). split; [done|]. by apply digit_not_upper. }
  rewrite Ht in Hm.
  assert (q = P) as -> by (symmetry; by eapply upper_run_unique).
  split; [done|]. apply (inj (String.append P)) in Hm.
  exists da, db, rest. by rewrite Hm, Ht.
Qed.

Lemma locked_prefix_upper (P : string) :
  P ∈ locked_prefixes -> Str.all is_upper P = true /\ String.length P <= 4.
Proof.
  intros H. apply list_elem_of_In in H. simpl in H.
  destruct H as [<-|[<-|[<-|[<-|[<-|[]]]]]]; split; simpl; done || lia.
Qed.

Lemma length_assemble (q a b : string) :
  String.length a = 2 ->
  String.length (assemble q a b) = String.length q + 4 + String.length b.
Proof.
  intros Ha. unfold assemble. rewrite !slength_app.
  assert (String.length (if is_locked q then "2" +:+ Str.drop 1 a else a) = 2) as ->.
  { destruct a as [|c1 [|c2 [|]]]; try done. by destruct (is_locked q). }
  simpl. lia.
Qed.

(** a normalised candidate has between 9 and 12 characters *)
Lemma candidate_code_length (text c : string) :
  c ∈ candidates text -> 9 <= String.length (autocorrect_match c) <= 12.
Proof.
  intros Hc.
  destruct (candidate_reparses text c Hc) as (q & a & b & Hre & Hg).
  destruct (candidate_normal_form text c Hc) as (P & x & r & Hform & Hx & Hcase).
  assert (Str.all is_upper P = true /\ String.length P <= 4) as [HP HPl].
  { destruct Hcase as [[HP _]|(-> & _)]; [by apply locked_prefix_upper|].
    split; [done|simpl; lia]. }
  destruct (candidate_prefix_group text c P x r q a b Hform HP Hx Hre) as (-> & _).
  unfold autocorrect_match. rewrite Hre.
  destruct Hg as (_ & Hq1 & Ha & Hla & Hb & Hlb).
  destruct (zfill_digits 2 a Ha Hla) as (_ & Ha' & Hla').
  destruct (zfill_digits 4 b Hb Hlb) as (_ & Hb' & Hlb').
  rewrite !unconfuse_digits by done. rewrite length_assemble by done. lia.
Qed.

Lemma join_length_bound (k : nat) (l : list string) :
  Forall (fun x => String.length x <= k) l -> l <> [] ->
  String.length (Str.join "_" l) + 1 <= (k + 1) * length l.
Proof.
  unfold Str.join. induction 1 as [|x l Hx Hl IH]; [done|]. intros _.
  destruct l as [|y l]; [simpl; lia|].
  change (String.concat "_" (x :: y :: l))
    with (x +:+ "_" +:+ String.concat "_" (y :: l)).
  rewrite !slength_app. specialize (IH ltac:(done)).
  change (String.length "_") with 1. simpl length in *. lia.
Qed.

(** X9.  With at most eleven distinct codes in a document the file name is
    never cut: it is the codes joined by [_], followed by [.pdf]. *)
Theorem up_to_eleven_codes_fit (text : string) :
  let codes := sorted_unique (autocorrect_match <$> candidates text) in
  length codes <= 11 ->
  final_name_of codes = Str.join "_" codes +:+ ".pdf".
Proof.
  intros codes Hlen. apply final_name_of_short.
  destruct codes as [|c0 cs] eqn:Hcodes; [simpl; lia|].
  assert (Forall (fun x => String.length x <= 12) (c0 :: cs)) as Hall.
  { rewrite <- Hcodes. apply Forall_forall. intros x Hx.
    destruct (sorted_unique_spec (autocorrect_match <$> candidates text))
      as (_ & _ & Hmem).
    apply Hmem, list_elem_of_fmap in Hx as (c & -> & Hc).
    pose proof (candidate_code_length text c Hc). lia. }
  pose proof (join_length_bound 12 (c0 :: cs) Hall ltac:(done)). lia.
Qed.

Lemma up_to_eleven_codes_fit_witness :
  final_name_of
    (sorted_unique (autocorrect_match <$> candidates "refs spo 21-1 and P0-20-0002"))
  = "PO-20-0002_SPO-21-0001.pdf".
Proof.
  rewrite (up_to_eleven_codes_fit "refs spo 21-1 and P0-20-0002").
  - vm_compute. reflexivity.
  - vm_compute. lia.
Defined.

(** X10.  A candidate read with [P0] in which, once its spaces are removed
    (line 106), no dash comes right after [P0] is not repaired to [PO]: its
    prefix is the single letter [P], the digit [0] opens the second segment,
    and the lock on [2] does not apply.  (In [P0 -20-0002] the dash does
    come right after [P0] once the space is gone, and the prefix is
    repaired.) *)
Theorem p0_without_dash_keeps_zero (text c : string) :
  c ∈ candidates text ->
  Str.startswith "P0" c = true ->
  Str.startswith "P0-" (strip_spaces c) = false ->
  Str.startswith "P-0" (autocorrect_match c) = true.
Proof.
  intros Hc HP0 Hnodash.
  destruct (candidate_reparses text c Hc) as (q & a & b & Hre & Hg).
  destruct (candidate_normal_form text c Hc) as (P & x & r & Hform & Hx & Hcase).
  destruct Hcase as [(_ & [H|H])|(-> & -> & _)]; [congruence..|].
  destruct (candidate_prefix_group text c "P" "0"%char r q a b Hform eq_refl Hx Hre)
    as (-> & da & db & rest & Hr & Hda & _).
  destruct Hg as (_ & _ & Ha & Hla & _).
  assert (exists a', a = String "0" a') as [a' ->].
  { destruct Hda as [-> | ->]; [|done].
    destruct a as [|y a]; [simpl in Hla; lia|]. injection Hr as <- _. eauto. }
  unfold autocorrect_match. rewrite Hre.
  destruct (zfill_digits 2 _ Ha Hla) as (Hz & Hz' & _).
  rewrite (unconfuse_digits (Str.zfill 2 _)) by done. rewrite Hz.
  unfold assemble. change (is_locked "P") with false.
  simpl in Hla. destruct a' as [|y [|]]; simpl in Hla; try lia; done.
Qed.

Lemma p0_without_dash_keeps_zero_witness :
  Str.startswith "P-0" (autocorrect_match "P020-0002") = true.
Proof.
  apply (p0_without_dash_keeps_zero "see P020-0002" "P020-0002").
  - vm_compute. constructor.
  - reflexivity.
  - reflexivity.
Defined.

(** X11.  Each of the five prefix substitutions of lines 108-117 leads to a
    locked prefix: on a text made of a misread prefix, a dash, two digits, a
    dash and four digits, the result carries the repaired prefix, [2] in
    place of the first digit, and the other digits as they were. *)
Theorem misread_prefix_repaired (misread repaired a b : string) :
  (misread, repaired) ∈ [("P0", "PO"); ("PQ", "PO"); ("RNW", "RNWS");
                         ("5P0", "SPO"); ("56R", "SGR")] ->
  Str.all is_digit a = true -> String.length a = 2 ->
  Str.all is_digit b = true -> String.length b = 4 ->
  autocorrect_match (misread +:+ "-" +:+ a +:+ "-" +:+ b)
  = repaired +:+ "-" +:+ ("2" +:+ Str.drop 1 a) +:+ "-" +:+ b.
Proof.
  intros Hin Ha Ha2 Hb Hb4.
  assert (strip_spaces (misread +:+ "-" +:+ a +:+ "-" +:+ b)
          = misread +:+ "-" +:+ a +:+ "-" +:+ b
          /\ fix_prefix (misread +:+ "-" +:+ a +:+ "-" +:+ b)
             = repaired +:+ "-" +:+ a +:+ "-" +:+ b
          /\ Str.all is_upper repaired = true /\ 1 <= String.length repaired
          /\ is_locked repaired = true) as (Hstrip & Hfix & Hup & Hlen & Hlock).
  { assert (forall t, Str.all is_digit t = true -> Str.replace " " "" t = t) as Hd.
    { intros t Ht. by apply (replace_absent is_digit). }
    apply list_elem_of_In in Hin. simpl in Hin.
    destruct Hin as [[= <- <-]|[[= <- <-]|[[= <- <-]|[[= <- <-]|[[= <- <-]|[]]]]]];
      (split; [unfold strip_spaces; rewrite !replace_app, (Hd a Ha), (Hd b Hb);
               reflexivity|]);
      (split; [reflexivity|]); (split; [reflexivity|]);
      (split; [simpl; lia|reflexivity]). }
  unfold autocorrect_match. rewrite Hstrip, Hfix, re_match_canonical by done.
  destruct (zfill_digits 2 a Ha) as (-> & _); [lia|].
  destruct (zfill_digits 4 b Hb) as (-> & _); [lia|].
  rewrite Ha2, Hb4. simpl Str.zeros. rewrite !sapp_nil_l.
  rewrite !unconfuse_digits by done. unfold assemble. by rewrite Hlock.
Qed.

Lemma misread_prefix_repaired_witness :
  autocorrect_match "RNW-12-3456" = "RNWS-22-3456".
Proof.
  apply (misread_prefix_repaired "RNW" "RNWS" "12" "3456").
  - repeat constructor.
  - reflexivity.
  - reflexivity.
  - reflexivity.
  - reflexivity.
Defined.

(** * Further properties of the readiness gate *)

(** the loop on an arbitrary sequence of outcomes: with a budget of [r] it
    ends within [r + 1] iterations and sleeps at most [r] times *)
Lemma wait_loop_bounded (poll : Z) (opens : nat -> open_outcome) :
  forall r fuel calls trace,
  r < fuel ->
  exists res trace',
    wait_loop poll opens fuel (Z.of_nat r) calls trace = Some (res, trace')
    /\ (exists n, sleeps trace' = sleeps trace ++ replicate n poll /\ n <= r
                  /\ (res = Returned false -> n = r)
                  /\ (res = Returned true -> opens (calls + n) = Opened)
                  /\ (res = Escaped Uncaught -> opens (calls + n) = OtherError)
                  /\ (res = Escaped ValueError ->
                      (poll < 0)%Z /\ n = 0
                      /\ (opens calls = NotFound \/ opens calls = Malformed))
                  /\ (forall i, i < n -> opens (calls + i) = NotFound
                                         \/ opens (calls + i) = Malformed)).
Proof.
  induction r as [|r IH]; intros fuel calls trace Hfuel.
  - destruct fuel as [|fuel]; [lia|]. simpl. exists (Returned false), trace.
    split; [done|]. exists 0. rewrite app_nil_r. repeat split; try done; lia.
  - destruct fuel as [|fuel]; [lia|]. rewrite wait_loop_S.
    destruct (Z.eqb_spec (Z.of_nat (S r)) 0) as [Hr|_]; [lia|].
    assert (opens calls = NotFound \/ opens calls = Malformed ->
            exists res trace',
              (if (poll <? 0)%Z
               then Some (Escaped ValueError, trace ++ [GateNotReady])
               else wait_loop poll opens fuel (Z.of_nat (S r) - 1) (S calls)
                      (trace ++ [GateNotReady; GateSleep poll]))
              = Some (res, trace')
              /\ (exists n, sleeps trace' = sleeps trace ++ replicate n poll
                    /\ n <= S r
                    /\ (res = Returned false -> n = S r)
                    /\ (res = Returned true -> opens (calls + n) = Opened)
                    /\ (res = Escaped Uncaught -> opens (calls + n) = OtherError)
                    /\ (res = Escaped ValueError ->
                        (poll < 0)%Z /\ n = 0
                        /\ (opens calls = NotFound \/ opens calls = Malformed))
                    /\ (forall i, i < n -> opens (calls + i) = NotFound
                                           \/ opens (calls + i) = Malformed)))
      as Hfailed.
    { intros Hfail. destruct (Z.ltb_spec poll 0) as [Hneg|Hpos].
      - exists (Escaped ValueError), (trace ++ [GateNotReady]).
        split; [done|]. exists 0. rewrite sleeps_app, !app_nil_r.
        repeat split; try done; lia.
      - replace (Z.of_nat (S r) - 1)%Z with (Z.of_nat r) by lia.
        destruct (IH fuel (S calls) (trace ++ [GateNotReady; GateSleep poll]))
          as (res & trace' & Hrun & n & Hsl & Hn & Hf & Ht & He & Hv & Hall);
          [lia|].
        exists res, trace'. split; [done|]. exists (S n).
        rewrite sleeps_app in Hsl. simpl in Hsl. rewrite <- app_assoc in Hsl.
        replace (calls + S n) with (S calls + n) by lia.
        refine (conj _ (conj _ (conj _ (conj Ht (conj He (conj _ _)))))).
        + by rewrite Hsl.
        + lia.
        + intros H. specialize (Hf H). lia.
        + intros H. destruct (Hv H) as [? _]. lia.
        + intros [|i] Hi; [by rewrite Nat.add_0_r|].
          replace (calls + S i) with (S calls + i) by lia. apply Hall. lia. }
    destruct (opens calls) eqn:Hopen.
    + exists (Returned true), (trace ++ [GateClose]). split; [done|]. exists 0.
      rewrite sleeps_app, Nat.add_0_r. repeat split; try done; lia.
    + apply Hfailed. by left.
    + apply Hfailed. by right.
    + exists (Escaped Uncaught), trace. split; [done|]. exists 0.
      rewrite app_nil_r, Nat.add_0_r. repeat split; try done; lia.
Qed.



(** X12.  Whatever [pikepdf.open] does and whatever the poll interval is,
    the gate with a budget of [r >= 0] attempts comes to an end within
    [r + 1] iterations and has slept at most [r] poll intervals; it gives up
    only after exactly [r] failed attempts, and returns true only on an
    attempt that opened the file. *)
Theorem gate_ends_within_budget (poll : Z) (opens : nat -> open_outcome)
    (r fuel : nat) :
  r < fuel ->
  exists res trace n,
    wait_for_file_ready (Z.of_nat r) poll opens fuel = Some (res, trace)
    /\ sleeps trace = replicate n poll /\ n <= r
    /\ (res = Returned false -> n = r)
    /\ (res = Returned true -> opens n = Opened)
    /\ (forall i, i < n -> opens i = NotFound \/ opens i = Malformed).
Proof.
  intros Hfuel. unfold wait_for_file_ready.
  destruct (wait_loop_bounded poll opens r fuel 0 [] Hfuel)
    as (res & trace & Hrun & n & Hsl & Hn & Hf & Ht & _ & _ & Hall).
  exists res, trace, n. by repeat split.
Qed.

Lemma gate_ends_within_budget_witness :
  exists res trace n,
    wait_for_file_ready 3 1 (fun i => if (i <? 2)%nat then Malformed else Opened) 4
      = Some (res, trace)
    /\ sleeps trace = replicate n 1%Z /\ n <= 3
    /\ (res = Returned false -> n = 3)
    /\ (res = Returned true ->
        (fun i => if (i <? 2)%nat then Malformed else Opened) n = Opened)
    /\ (forall i, i < n ->
          (fun i => if (i <? 2)%nat then Malformed else Opened) i = NotFound
          \/ (fun i => if (i <? 2)%nat then Malformed else Opened) i = Malformed).
Proof.
  apply (gate_ends_within_budget 1
           (fun i => if (i <? 2)%nat then Malformed else Opened) 3 4). lia.
Defined.






(** X27.  A poll interval below zero ends the gate on the first attempt that
    fails with one of the two caught exceptions: the two lines are logged,
    [time.sleep] raises [ValueError] inside the [except] block, and the
    exception leaves the function before any sleep, whatever the budget
    left. *)
Theorem negative_interval_leaves_gate (retries poll : Z)
    (opens : nat -> open_outcome) (fuel : nat) :
  (poll < 0)%Z -> retries <> 0%Z ->
  opens 0 = NotFound \/ opens 0 = Malformed ->
  wait_for_file_ready retries poll opens (S fuel)
  = Some (Escaped ValueError, [GateNotReady]).
Proof.
  intros Hpoll Hretries Hfail. unfold wait_for_file_ready.
  rewrite wait_loop_S. destruct (Z.eqb_spec retries 0) as [|_]; [done|].
  destruct (Z.ltb_spec poll 0) as [_|]; [|lia].
  by destruct Hfail as [-> | ->].
Qed.

Lemma negative_interval_leaves_gate_witness :
  wait_for_file_ready 5 (-1) (fun _ => NotFound) 6
  = Some (Escaped ValueError, [GateNotReady]).
Proof.
  apply (negative_interval_leaves_gate 5 (-1) (fun _ => NotFound) 5).
  - lia.
  - lia.
  - by left.
Defined.

(** * The start-up configuration *)

Lemma lower_upper_char c : lower_char (upper_char c) = lower_char c.
Proof. by each_char c. Qed.

Lemma lower_lower_char c : lower_char (lower_char c) = lower_char c.
Proof. by each_char c. Qed.

Lemma lower_upper (s : string) : lower (Str.upper s) = lower s.
Proof. induction s as [|c s IH]; [done|]. simpl. by rewrite lower_upper_char, IH. Qed.

Lemma lower_lower (s : string) : lower (lower s) = lower s.
Proof. induction s as [|c s IH]; [done|]. simpl. by rewrite lower_lower_char, IH. Qed.

(** X15.  A switch of the configuration is read without regard to case: a
    value, its upper-case form and its lower-case form give the same
    boolean; a variable that is not set is false under the default
    ['False'], and the default plays no part once the variable is set. *)
Theorem getenv_bool_ignores_case (environ : gmap string string)
    (name value default default' : string) :
  getenv_bool (<[name := Str.upper value]> environ) name default
  = getenv_bool (<[name := value]> environ) name default
  /\ getenv_bool (<[name := lower value]> environ) name default
     = getenv_bool (<[name := value]> environ) name default
  /\ getenv_bool (<[name := value]> environ) name default
     = getenv_bool (<[name := value]> environ) name default'
  /\ getenv_bool (delete name environ) name "False" = false.
Proof.
  unfold getenv_bool, getenv.
  rewrite !lookup_insert_eq, lookup_delete_eq, lower_upper, lower_lower.
  done.
Qed.

(** * Paths of [pathlib] *)

Lemma split_no_slash (s : string) :
  Forall (fun x => Str.all no_slash x = true) (Pathlib.split s).
Proof.
  induction s as [|c s IH]; [by repeat constructor|]. simpl.
  destruct (Ascii.eqb c "/") eqn:Hc; [by constructor|].
  destruct (Pathlib.split s) as [|x l]; [by repeat constructor; rewrite all_cons;
    unfold no_slash; rewrite Hc|].
  inversion IH as [|? ? Hx Hl]; subst. constructor; [|done].
  rewrite all_cons. unfold no_slash at 1. by rewrite Hc.
Qed.

Lemma split_plain (s : string) :
  Str.all no_slash s = true -> Pathlib.split s = [s].
Proof.
  induction s as [|c s IH]; [done|]. rewrite all_cons.
  intros [Hc Hs]%andb_true_iff. simpl. unfold no_slash in Hc.
  destruct (Ascii.eqb c "/"); [done|]. by rewrite IH.
Qed.

Lemma components_plain (s : string) :
  Forall (fun x => Pathlib.is_name x = true)
         (Pathlib.components (Pathlib.of_str s)).
Proof.
  simpl. pose proof (split_no_slash s) as H.
  induction H as [|x l Hx Hl IH]; [constructor|]. simpl.
  destruct (Pathlib.kept x) eqn:Hk; [|done]. constructor; [|done].
  unfold Pathlib.is_name. by rewrite Hk, Hx.
Qed.

Lemma of_str_plain (s : string) :
  Pathlib.is_name s = true -> Pathlib.of_str s = Pathlib.MkPath "" [s].
Proof.
  intros [Hk Hs]%andb_true_iff. unfold Pathlib.of_str.
  rewrite split_plain by done.
  assert (Pathlib.root_of s = "") as ->.
  { destruct s as [|c s]; [done|]. rewrite all_cons in Hs.
    apply andb_true_iff in Hs as [Hc _]. unfold no_slash in Hc.
    unfold Pathlib.root_of. rewrite !startswith_cons.
    rewrite Ascii.eqb_sym. by destruct (Ascii.eqb c "/"). }
  simpl. by rewrite Hk.
Qed.

Lemma div_plain (p : Pathlib.path) (s : string) :
  Pathlib.is_name s = true ->
  Pathlib.div p s
  = Pathlib.MkPath (Pathlib.root p) (Pathlib.components p ++ [s]).
Proof. intros Hs. unfold Pathlib.div. by rewrite of_str_plain. Qed.

(** the name of a path is a file name, or empty when the path has no
    component *)
Lemma name_plain (s : string) :
  Pathlib.name (Pathlib.of_str s) = ""
  \/ Pathlib.is_name (Pathlib.name (Pathlib.of_str s)) = true.
Proof.
  unfold Pathlib.name. pose proof (components_plain s) as H.
  destruct (Pathlib.components (Pathlib.of_str s)) as [|x l] using rev_ind;
    [by left|].
  right. rewrite last_last. apply Forall_app in H as [_ H]. by inversion H.
Qed.

Lemma pretty_N_go_length x : forall s,
  String.length s <= String.length (pretty_N_go x s).
Proof.
  induction (N.lt_wf_0 x) as [x _ IH]; intros s.
  destruct (decide (x = 0)%N) as [->|Hx]; [by rewrite pretty_N_go_0|].
  rewrite pretty_N_go_step by lia.
  etrans; [|apply IH, N.div_lt; lia]. simpl. lia.
Qed.

Lemma pretty_nat_nonempty (n : nat) : 1 <= String.length (pretty n).
Proof.
  unfold pretty, pretty_nat, pretty, pretty_N.
  destruct (decide _); [simpl; lia|].
  destruct (decide (N.of_nat n = 0)%N) as [|Hx]; [done|].
  rewrite pretty_N_go_step by lia.
  etrans; [|apply pretty_N_go_length]. simpl. lia.
Qed.

Lemma digits_plain (s : string) :
  Str.all is_digit s = true -> 1 <= String.length s ->
  Pathlib.is_name s = true.
Proof.
  intros Hs Hl. unfold Pathlib.is_name.
  rewrite (all_impl is_digit no_slash s digit_no_slash Hs), andb_true_r.
  destruct s as [|c s]; [simpl in Hl; lia|].
  rewrite all_cons in Hs. apply andb_true_iff in Hs as [Hc _].
  unfold Pathlib.kept. apply negb_true_iff, orb_false_iff.
  split; apply String.eqb_neq; [done|]. by intros [= -> ->].
Qed.

Lemma pretty_plain (n : nat) : Pathlib.is_name (pretty n) = true.
Proof. apply digits_plain; [apply pretty_nat_digits|apply pretty_nat_nonempty]. Qed.

Lemma format_02d_digits (n : nat) :
  Str.all is_digit (format_02d n) = true /\ 2 <= String.length (format_02d n).
Proof.
  unfold format_02d. rewrite all_app, all_zeros, pretty_nat_digits.
  split; [done|]. rewrite slength_app, length_zeros.
  pose proof (pretty_nat_nonempty n). lia.
Qed.

Lemma format_02d_plain (n : nat) : Pathlib.is_name (format_02d n) = true.
Proof.
  destruct (format_02d_digits n). apply digits_plain; [done|lia].
Qed.

(** the twelve months take two digits *)
Lemma format_02d_month (month : nat) :
  month <= 12 -> String.length (format_02d month) = 2.
Proof.
  intros H. do 13 (destruct month as [|month]; [reflexivity|]). lia.
Qed.

(** the directory of the year-and-month layout *)
Lemma year_month_directory (root : string) (year month : nat) :
  Pathlib.div (Pathlib.div (Pathlib.of_str root) (pretty year)) (format_02d month)
  = Pathlib.MkPath (Pathlib.root (Pathlib.of_str root))
      (Pathlib.components (Pathlib.of_str root)
       ++ [pretty year; format_02d month]).
Proof.
  rewrite !div_plain by (apply pretty_plain || apply format_02d_plain).
  simpl. by rewrite <- app_assoc.
Qed.

Lemma lineage_from_last (r : string) (below : list string) : forall above x,
  Pathlib.str (Pathlib.MkPath r (above ++ below ++ [x]))
  ∈ Pathlib.lineage_from r above (below ++ [x]).
Proof.
  induction below as [|y below IH]; intros above x; simpl.
  - apply list_elem_of_here.
  - apply list_elem_of_further.
    specialize (IH (above ++ [y]) x). by rewrite <- app_assoc in IH.
Qed.

Lemma lineage_self (r : string) (l : list string) (x : string) :
  Pathlib.str (Pathlib.MkPath r (l ++ [x])) ∈ Pathlib.lineage (Pathlib.MkPath r (l ++ [x])).
Proof. apply (lineage_from_last r l [] x). Qed.

(** * The ingest stage *)

Lemma IO_bind_done {timestamp A B} (m : IO (timestamp:=timestamp) A)
    (k : A -> IO B) d a d' :
  m d = Done a d' -> (m ≫= k) d = k a d'.
Proof. intros H. unfold mbind, IO_bind, IO_then. by rewrite H. Qed.

Lemma IO_bind_failed {timestamp A B} (m : IO (timestamp:=timestamp) A)
    (k : A -> IO B) d e d' :
  m d = Failed e d' -> (m ≫= k) d = Failed e d'.
Proof. intros H. unfold mbind, IO_bind, IO_then. by rewrite H. Qed.

Lemma IO_bind_hangs {timestamp A B} (m : IO (timestamp:=timestamp) A)
    (k : A -> IO B) d :
  m d = Hangs -> (m ≫= k) d = Hangs.
Proof. intros H. unfold mbind, IO_bind, IO_then. by rewrite H. Qed.

(** [mkdir] touches nothing but the set of directories, which grows *)
Lemma make_dirs_frame {timestamp} (l : list string) : forall d : disk timestamp,
  match make_dirs l d with
  | Done _ d' | Failed _ d' =>
      files (fs d') = files (fs d) /\ log (fs d') = log (fs d)
      /\ times d' = times d /\ journal d' = journal d
      /\ dirs (fs d) ⊆ dirs (fs d')
  | Hangs => False
  end.
Proof.
  induction l as [|here below IH]; intros d; [done|]. simpl.
  destruct (is_dir here (fs d)); [apply IH|].
  destruct (is_file here (fs d)); [done|].
  match goal with |- context [make_dirs below ?d2] => specialize (IH d2) end.
  destruct (make_dirs below _) as [a d'|e d'|]; [| |done];
    destruct IH as (Hf & Hl & Ht & Hj & Hd); simpl in *;
    repeat split; try done; set_solver.
Qed.

(** with no regular file in the way, every directory of the lineage is there
    afterwards *)
Lemma make_dirs_ok {timestamp} (l : list string) : forall d : disk timestamp,
  Forall (fun here => files (fs d) !! here = None) l ->
  exists d',
    make_dirs l d = Done tt d'
    /\ files (fs d') = files (fs d) /\ dirs (fs d) ⊆ dirs (fs d')
    /\ (forall here, here ∈ l -> here ∈ dirs (fs d')).
Proof.
  induction l as [|here below IH]; intros d Hfree.
  - exists d. repeat split; [done|]. by intros ? ?%elem_of_nil.
  - inversion Hfree as [|? ? Hhere Hbelow]; subst. simpl.
    destruct (is_dir here (fs d)) eqn:Hdir.
    + destruct (IH d Hbelow) as (d' & Hrun & Hf & Hd & Hall).
      exists d'. repeat split; try done.
      intros h [->|Hh]%elem_of_cons; [|by apply Hall].
      apply Hd. unfold is_dir in Hdir. by apply bool_decide_eq_true in Hdir.
    + assert (is_file here (fs d) = false) as ->.
      { unfold is_file. rewrite Hhere. by apply bool_decide_eq_false_2; intros []. }
      match goal with |- context [make_dirs below ?d2] =>
        destruct (IH d2 Hbelow) as (d' & Hrun & Hf & Hd & Hall) end.
      exists d'. simpl in *. repeat split; try done; [set_solver|].
      intros h [->|Hh]%elem_of_cons; [|by apply Hall]. set_solver.
Qed.

Lemma get_output_dir_frame {timestamp json} (cfg : config json)
    (env : surroundings timestamp json) (root basename : string) d :
  match get_output_dir cfg env root basename d with
  | Done _ d' | Failed _ d' =>
      files (fs d') = files (fs d) /\ log (fs d') = log (fs d)
      /\ times d' = times d /\ journal d' = journal d
      /\ dirs (fs d) ⊆ dirs (fs d')
  | Hangs => False
  end.
Proof.
  unfold get_output_dir. destruct (OUTPUT_DIRECTORY_YEAR_MONTH cfg); [|done].
  destruct (today env) as [year month]. cbv beta iota zeta.
  set (D := Pathlib.div _ (format_02d month)).
  rewrite (IO_bind_done (exists_ D) _ d _ d eq_refl).
  destruct (path_exists (Pathlib.str D) (fs d)); [done|].
  unfold mkdir_parents. pose proof (make_dirs_frame (Pathlib.lineage D) d) as H.
  destruct (make_dirs (Pathlib.lineage D) d) as [[] d'|e d'|] eqn:Hrun; [| |done].
  - by rewrite (IO_bind_done _ _ _ _ _ Hrun).
  - by rewrite (IO_bind_failed _ _ _ _ _ Hrun).
Qed.

Lemma get_output_dir_path {timestamp json} (cfg : config json)
    (env : surroundings timestamp json) (root basename : string) d out d' :
  get_output_dir cfg env root basename d = Done out d' ->
  out = Pathlib.div
          (if OUTPUT_DIRECTORY_YEAR_MONTH cfg then
             Pathlib.div (Pathlib.div (Pathlib.of_str root) (pretty (today env).1))
                         (format_02d (today env).2)
           else Pathlib.of_str (OUTPUT_DIRECTORY cfg))
          basename.
Proof.
  unfold get_output_dir. destruct (OUTPUT_DIRECTORY_YEAR_MONTH cfg);
    [|by intros [= <- _]].
  destruct (today env) as [year month]. cbv beta iota zeta.
  change (((year, month).1)) with year. change (((year, month).2)) with month.
  set (D := Pathlib.div _ (format_02d month)).
  rewrite (IO_bind_done (exists_ D) _ d _ d eq_refl).
  destruct (path_exists (Pathlib.str D) (fs d)); [by intros [= <- _]|].
  destruct (mkdir_parents D d) as [[] d1|e d1|] eqn:Hrun.
  - rewrite (IO_bind_done _ _ _ _ _ Hrun). by intros [= <- _].
  - by rewrite (IO_bind_failed _ _ _ _ _ Hrun).
  - by rewrite (IO_bind_hangs _ _ _ Hrun).
Qed.

(** X16.  The OCR output keeps the file name of the input.  Without the
    year-and-month layout it lies directly in [OUTPUT_DIRECTORY] and the
    [root] argument plays no part; with the layout it lies in
    [root/<year>/<month>]. *)
Theorem output_keeps_file_name {timestamp json} (cfg : config json)
    (env : surroundings timestamp json) (root file_path : string) d out d' :
  Pathlib.name (Pathlib.of_str file_path) <> "" ->
  get_output_dir cfg env root (Pathlib.name (Pathlib.of_str file_path)) d
    = Done out d' ->
  Pathlib.name out = Pathlib.name (Pathlib.of_str file_path)
  /\ out
     = if OUTPUT_DIRECTORY_YEAR_MONTH cfg then
         Pathlib.MkPath (Pathlib.root (Pathlib.of_str root))
           (Pathlib.components (Pathlib.of_str root)
            ++ [pretty (today env).1; format_02d (today env).2;
                Pathlib.name (Pathlib.of_str file_path)])
       else
         Pathlib.MkPath (Pathlib.root (Pathlib.of_str (OUTPUT_DIRECTORY cfg)))
           (Pathlib.components (Pathlib.of_str (OUTPUT_DIRECTORY cfg))
            ++ [Pathlib.name (Pathlib.of_str file_path)]).
Proof.
  intros Hne Hrun. apply get_output_dir_path in Hrun.
  destruct (name_plain file_path) as [|Hplain]; [done|].
  rewrite div_plain in Hrun by done. subst out. split.
  - unfold Pathlib.name at 1. simpl. by rewrite last_last.
  - destruct (OUTPUT_DIRECTORY_YEAR_MONTH cfg); [|done].
    rewrite year_month_directory. simpl. by rewrite <- app_assoc.
Qed.

Lemma output_keeps_file_name_witness :
  let cfg : config string := Config "ocr-output" "/processed" true false false false ∅ 1 5 in
  let env : surroundings Z string :=
    Surroundings (2026, 3) (fun _ _ => Opened) (fun _ _ _ _ w t => OcrExit 0 w t) in
  let d := Disk (World ∅ ∅ []) (fun _ => (0, 0)%Z) [] in
  exists out d',
    get_output_dir cfg env "ocr-output" "scan.pdf" d = Done out d'
    /\ Pathlib.str out = "ocr-output/2026/03/scan.pdf".
Proof.
  intros cfg env d.
  destruct (get_output_dir cfg env "ocr-output" "scan.pdf" d) as [out d'| |] eqn:Hrun;
    [|vm_compute in Hrun; discriminate..].
  exists out, d'. split; [done|].
  destruct (output_keeps_file_name cfg env "ocr-output" "scan-input/scan.pdf" d out d')
    as [_ ->]; [by vm_compute|exact Hrun|reflexivity].
Defined.

(** X17.  With the year-and-month layout, when no regular file is in the
    way: the directory [root/<year>/<month>] is a directory once
    [get_output_dir] has returned, whether it was there before or not; no
    file is touched and no directory is lost.  The month takes two digits. *)
Theorem year_month_directory_made {timestamp json} (cfg : config json)
    (env : surroundings timestamp json) (root basename : string) d :
  OUTPUT_DIRECTORY_YEAR_MONTH cfg = true ->
  let D := Pathlib.MkPath (Pathlib.root (Pathlib.of_str root))
             (Pathlib.components (Pathlib.of_str root)
              ++ [pretty (today env).1; format_02d (today env).2]) in
  Forall (fun here => files (fs d) !! here = None) (Pathlib.lineage D) ->
  exists d',
    get_output_dir cfg env root basename d = Done (Pathlib.div D basename) d'
    /\ is_dir (Pathlib.str D) (fs d') = true
    /\ files (fs d') = files (fs d)
    /\ dirs (fs d) ⊆ dirs (fs d')
    /\ ((today env).2 <= 12 -> String.length (format_02d (today env).2) = 2).
Proof.
  intros Hym D Hfree. unfold get_output_dir. rewrite Hym.
  destruct (today env) as [year month]. cbv beta iota zeta.
  change (((year, month).1)) with year in *.
  change (((year, month).2)) with month in *.
  rewrite year_month_directory. fold D.
  rewrite (IO_bind_done (exists_ D) _ d _ d eq_refl).
  assert (Pathlib.str D ∈ Pathlib.lineage D) as Hself.
  { unfold D.
    change [pretty year; format_02d month]
      with ([pretty year] ++ [format_02d month]).
    rewrite app_assoc. apply lineage_self. }
  destruct (path_exists (Pathlib.str D) (fs d)) eqn:Hex.
  - exists d. split; [done|]. repeat split; try done; [|apply format_02d_month].
    unfold path_exists in Hex. apply orb_true_iff in Hex as [Hfile|Hdir]; [|done].
    rewrite Forall_forall in Hfree. specialize (Hfree _ Hself).
    unfold is_file in Hfile. rewrite Hfree in Hfile.
    apply bool_decide_eq_true in Hfile. by destruct Hfile.
  - destruct (make_dirs_ok (Pathlib.lineage D) d Hfree)
      as (d' & Hrun & Hf & Hd & Hall).
    exists d'. unfold mkdir_parents. rewrite (IO_bind_done _ _ _ _ _ Hrun).
    split; [done|]. repeat split; try done; [|apply format_02d_month].
    unfold is_dir. apply bool_decide_eq_true. by apply Hall.
Qed.

Lemma year_month_directory_made_witness :
  let cfg : config string := Config "ocr-output" "/processed" true false false false ∅ 1 5 in
  let env : surroundings Z string :=
    Surroundings (2026, 11) (fun _ _ => Opened) (fun _ _ _ _ w t => OcrExit 0 w t) in
  let d := Disk (World {["scan-input/a.pdf" := "scan"]} {["scan-input"]} [])
                (fun _ => (0, 0)%Z) [] in
  exists d',
    get_output_dir cfg env "ocr-output" "a.pdf" d
      = Done (Pathlib.of_str "ocr-output/2026/11/a.pdf") d'
    /\ is_dir "ocr-output/2026/11" (fs d') = true.
Proof.
  intros cfg env d.
  destruct (year_month_directory_made cfg env "ocr-output" "a.pdf" d)
    as (d' & Hrun & Hdir & _).
  - reflexivity.
  - vm_compute. repeat constructor.
  - exists d'. split; [exact Hrun|exact Hdir].
Defined.

Lemma gate_run {timestamp json} (cfg : config json)
    (env : surroundings timestamp json) (fuel : nat) (p : string) d ready trace :
  wait_for_file_ready (RETRIES_LOADING_FILE cfg) (POLL_NEW_FILE_SECONDS cfg)
    (pikepdf_open env p) fuel = Some (Returned ready, trace) ->
  gate cfg env fuel p d
  = Done ready (Disk (fs d) (times d) (journal d ++ (IgGate <$> trace))).
Proof. intros H. unfold gate. by rewrite H. Qed.

Lemma stat_mtime_run {timestamp} (p : Pathlib.path) (d : disk timestamp) :
  path_exists (Pathlib.str p) (fs d) = true ->
  stat_mtime p d = Done (times d (Pathlib.str p)).2 d.
Proof. intros H. unfold stat_mtime. by rewrite H. Qed.

Lemma os_utime_run {timestamp} (p : string) (x : timestamp * timestamp) d :
  path_exists p (fs d) = true ->
  os_utime p x d = Done tt (Disk (fs d) (set_times p x (times d)) (journal d)).
Proof. intros H. unfold os_utime. by rewrite H. Qed.

Lemma set_times_eq {timestamp} (p : string) (x : timestamp * timestamp) t :
  set_times p x t p = x.
Proof. unfold set_times. by rewrite String.eqb_refl. Qed.

Lemma set_times_ne {timestamp} (p q : string) (x : timestamp * timestamp) t :
  q <> p -> set_times p x t q = t q.
Proof. intros H. unfold set_times. apply String.eqb_neq in H. by rewrite H. Qed.

(** The run of the stage up to the return of the engine: the output path is
    fixed, the gate lets the file through, its modification time is read
    twice, and the engine is called with the settings. *)
Lemma execute_reaches_ocr {timestamp json} (cfg : config json)
    (env : surroundings timestamp json) (fuel : nat) (file_path : string)
    d out d1 trace code w2 t2 :
  let fp := Pathlib.of_str file_path in
  get_output_dir cfg env (OUTPUT_DIRECTORY cfg) (Pathlib.name fp) d = Done out d1 ->
  wait_for_file_ready (RETRIES_LOADING_FILE cfg) (POLL_NEW_FILE_SECONDS cfg)
    (pikepdf_open env (Pathlib.str fp)) fuel = Some (Returned true, trace) ->
  path_exists (Pathlib.str fp) (fs d1) = true ->
  keyword_clash cfg = false ->
  ocrmypdf_ocr env (Pathlib.str fp) (Pathlib.str out) (DESKEW cfg)
    (OCR_JSON_SETTINGS cfg) (fs d1) (times d1) = OcrExit code w2 t2 ->
  execute_ocrmypdf cfg env fuel file_path d
  = after_ocr cfg fp out (times d1 (Pathlib.str fp)).2
      (times d1 (Pathlib.str fp)).2 code
      (Disk w2 t2
         (journal d1 ++ [IgSeparator; IgNewFile (Pathlib.str fp)]
          ++ (IgGate <$> trace) ++ [IgAttempting (Pathlib.str out)])).
Proof.
  intros fp Hout Hgate Hex Hclash Hocr. unfold execute_ocrmypdf. fold fp.
  cbv zeta. rewrite (IO_bind_done _ _ _ _ _ Hout).
  rewrite (IO_bind_done (say _) _ d1 tt _ eq_refl).
  rewrite (IO_bind_done (say _) _ _ tt _ eq_refl).
  rewrite (IO_bind_done _ _ _ _ _ (gate_run cfg env fuel _ _ _ _ Hgate)).
  cbn [negb]. rewrite (IO_bind_done (say _) _ _ tt _ eq_refl).
  rewrite (IO_bind_done _ _ _ _ _
             (stat_mtime_run fp (Disk (fs d1) (times d1) _) Hex)).
  rewrite (IO_bind_done _ _ _ _ _
             (stat_mtime_run fp (Disk (fs d1) (times d1) _) Hex)).
  cbn [fs times journal].
  assert (forall d0 : disk timestamp, fs d0 = fs d1 -> times d0 = times d1 ->
            call_ocr cfg env (Pathlib.str fp) (Pathlib.str out) d0
            = Done code (Disk w2 t2 (journal d0))) as Hcall.
  { intros d0 H1 H2. unfold call_ocr. by rewrite Hclash, H1, H2, Hocr. }
  rewrite (IO_bind_done _ _ _ _ _
             (Hcall (Disk (fs d1) (times d1) _) eq_refl eq_refl)).
  cbn [journal]. by rewrite <- !app_assoc.
Qed.

(** X18.  When the gate gives up, the stage ends without touching a file or
    a time stamp, whatever the engine would have done: the engine is not
    called, nothing is deleted or archived.  (The directory of the month may
    have been created before the gate was entered.) *)
Theorem gave_up_touches_no_file {timestamp json} (cfg : config json)
    (env : surroundings timestamp json) (fuel : nat) (file_path : string)
    d trace :
  wait_for_file_ready (RETRIES_LOADING_FILE cfg) (POLL_NEW_FILE_SECONDS cfg)
    (pikepdf_open env (Pathlib.str (Pathlib.of_str file_path))) fuel
    = Some (Returned false, trace) ->
  exists d',
    (execute_ocrmypdf cfg env fuel file_path d = Done tt d'
     \/ exists e, execute_ocrmypdf cfg env fuel file_path d = Failed e d')
    /\ files (fs d') = files (fs d) /\ times d' = times d
    /\ dirs (fs d) ⊆ dirs (fs d')
    /\ (OUTPUT_DIRECTORY_YEAR_MONTH cfg = false ->
        execute_ocrmypdf cfg env fuel file_path d = Done tt d'
        /\ dirs (fs d') = dirs (fs d)).
Proof.
  intros Hgate. unfold execute_ocrmypdf. cbv zeta.
  set (fp := Pathlib.of_str file_path) in *.
  pose proof (get_output_dir_frame cfg env (OUTPUT_DIRECTORY cfg)
                (Pathlib.name fp) d) as Hframe.
  assert (OUTPUT_DIRECTORY_YEAR_MONTH cfg = false ->
          exists out, get_output_dir cfg env (OUTPUT_DIRECTORY cfg)
                        (Pathlib.name fp) d = Done out d) as Hflat.
  { intros Hym. unfold get_output_dir. rewrite Hym. by eexists. }
  destruct (get_output_dir cfg env (OUTPUT_DIRECTORY cfg) (Pathlib.name fp) d)
    as [out d1|e d1|] eqn:Hout; [| |done].
  - destruct Hframe as (Hf & Hl & Ht & Hj & Hd).
    rewrite (IO_bind_done _ _ _ _ _ Hout).
    rewrite (IO_bind_done (say _) _ d1 tt _ eq_refl).
    rewrite (IO_bind_done (say _) _ _ tt _ eq_refl).
    rewrite (IO_bind_done _ _ _ _ _ (gate_run cfg env fuel _ _ _ _ Hgate)).
    cbn [negb]. eexists. split; [by left|]. cbn [fs times].
    repeat split; try done.
    destruct (Hflat H) as [out' [= _ <-]]. done.
  - destruct Hframe as (Hf & Hl & Ht & Hj & Hd).
    rewrite (IO_bind_failed _ _ _ _ _ Hout).
    exists d1. split; [right; by eexists|]. repeat split; try done;
      by destruct (Hflat H).
Qed.

Lemma gave_up_touches_no_file_witness :
  let cfg : config string := Config "ocr-output" "/processed" false true true false ∅ 1 2 in
  let env : surroundings Z string :=
    Surroundings (2026, 3) (fun _ _ => Malformed)
      (fun _ _ _ _ w t => OcrExit 0 (World ∅ ∅ []) t) in
  let d := Disk (World {["scan-input/a.pdf" := "half"]} {["scan-input"]} [])
                (fun _ => (0, 0)%Z) [] in
  exists d',
    execute_ocrmypdf cfg env 3 "scan-input/a.pdf" d = Done tt d'
    /\ files (fs d') = files (fs d).
Proof.
  intros cfg env d.
  destruct (gave_up_touches_no_file cfg env 3 "scan-input/a.pdf" d
              [GateNotReady; GateSleep 1; GateNotReady; GateSleep 1])
    as (d' & _ & Hf & _ & _ & Hflat).
  - reflexivity.
  - exists d'. split; [apply Hflat; reflexivity|exact Hf].
Defined.

(** X19.  When the engine returns an exit code other than 0, the stage
    does nothing more than log: files, directories and time stamps are as
    the engine left them, so the input stays where it is also when
    [ON_SUCCESS_DELETE] or [ON_SUCCESS_ARCHIVE] is set, and the output does
    not get the input's time stamp. *)
Theorem failed_ocr_touches_nothing {timestamp json} (cfg : config json)
    (env : surroundings timestamp json) (fuel : nat) (file_path : string)
    d out d1 trace code w2 t2 :
  let fp := Pathlib.of_str file_path in
  get_output_dir cfg env (OUTPUT_DIRECTORY cfg) (Pathlib.name fp) d = Done out d1 ->
  wait_for_file_ready (RETRIES_LOADING_FILE cfg) (POLL_NEW_FILE_SECONDS cfg)
    (pikepdf_open env (Pathlib.str fp)) fuel = Some (Returned true, trace) ->
  path_exists (Pathlib.str fp) (fs d1) = true ->
  keyword_clash cfg = false ->
  ocrmypdf_ocr env (Pathlib.str fp) (Pathlib.str out) (DESKEW cfg)
    (OCR_JSON_SETTINGS cfg) (fs d1) (times d1) = OcrExit code w2 t2 ->
  code <> 0%Z ->
  exists d',
    execute_ocrmypdf cfg env fuel file_path d = Done tt d'
    /\ fs d' = w2 /\ times d' = t2.
Proof.
  intros fp Hout Hgate Hex Hclash Hocr Hcode.
  rewrite (execute_reaches_ocr cfg env fuel file_path d out d1 trace code w2 t2)
    by done.
  unfold after_ocr. apply Z.eqb_neq in Hcode. rewrite Hcode. by eexists.
Qed.

Lemma failed_ocr_touches_nothing_witness :
  let cfg : config string := Config "ocr-output" "/processed" false true true false ∅ 1 5 in
  let env : surroundings Z string :=
    Surroundings (2026, 3) (fun _ _ => Opened) (fun _ _ _ _ w t => OcrExit 2 w t) in
  let d := Disk (World {["scan-input/a.pdf" := "scan"]} {["scan-input"]} [])
                (fun _ => (0, 0)%Z) [] in
  exists d',
    execute_ocrmypdf cfg env 6 "scan-input/a.pdf" d = Done tt d'
    /\ fs d' = fs d /\ times d' = times d.
Proof.
  intros cfg env d.
  apply (failed_ocr_touches_nothing cfg env 6 "scan-input/a.pdf" d
           (Pathlib.of_str "ocr-output/a.pdf") d [GateClose] 2 (fs d) (times d)).
  - reflexivity.
  - reflexivity.
  - reflexivity.
  - reflexivity.
  - reflexivity.
  - lia.
Defined.

(** a successful run with [ON_SUCCESS_DELETE] set *)
Lemma execute_deletes {timestamp json} (cfg : config json)
    (env : surroundings timestamp json) (fuel : nat) (file_path : string)
    d out d1 trace w2 t2 bytes :
  let fp := Pathlib.of_str file_path in
  get_output_dir cfg env (OUTPUT_DIRECTORY cfg) (Pathlib.name fp) d = Done out d1 ->
  wait_for_file_ready (RETRIES_LOADING_FILE cfg) (POLL_NEW_FILE_SECONDS cfg)
    (pikepdf_open env (Pathlib.str fp)) fuel = Some (Returned true, trace) ->
  path_exists (Pathlib.str fp) (fs d1) = true ->
  keyword_clash cfg = false ->
  ocrmypdf_ocr env (Pathlib.str fp) (Pathlib.str out) (DESKEW cfg)
    (OCR_JSON_SETTINGS cfg) (fs d1) (times d1) = OcrExit 0 w2 t2 ->
  path_exists (Pathlib.str out) w2 = true ->
  files w2 !! Pathlib.str fp = Some bytes ->
  ON_SUCCESS_DELETE cfg = true ->
  exists d',
    execute_ocrmypdf cfg env fuel file_path d = Done tt d'
    /\ files (fs d') = delete (Pathlib.str fp) (files w2)
    /\ dirs (fs d') = dirs w2
    /\ times d' (Pathlib.str out)
       = ((times d1 (Pathlib.str fp)).2, (times d1 (Pathlib.str fp)).2).
Proof.
  intros fp Hout Hgate Hex Hclash Hocr Hthere Hsrc Hdel.
  rewrite (execute_reaches_ocr cfg env fuel file_path d out d1 trace 0 w2 t2)
    by done.
  unfold after_ocr. cbn [Z.eqb]. rewrite Hdel.
  rewrite (IO_bind_done _ _ _ _ _
             (os_utime_run (Pathlib.str out) _ (Disk w2 t2 _) Hthere)).
  rewrite (IO_bind_done (say _) _ _ tt _ eq_refl).
  unfold unlink. cbn [fs times journal]. fold fp. rewrite Hsrc.
  eexists. split; [done|]. cbn [fs times files dirs].
  by rewrite set_times_eq.
Qed.

(** X20.  Deleting wins over archiving: after a successful run with
    [ON_SUCCESS_DELETE] set, the input is unlinked and nothing else is done
    to the files, whatever [ON_SUCCESS_ARCHIVE] says; the output carries the
    input's modification time as both of its time stamps. *)
Theorem delete_wins_over_archive {timestamp json} (cfg : config json)
    (env : surroundings timestamp json) (fuel : nat) (file_path : string)
    d out d1 trace w2 t2 bytes :
  let fp := Pathlib.of_str file_path in
  get_output_dir cfg env (OUTPUT_DIRECTORY cfg) (Pathlib.name fp) d = Done out d1 ->
  wait_for_file_ready (RETRIES_LOADING_FILE cfg) (POLL_NEW_FILE_SECONDS cfg)
    (pikepdf_open env (Pathlib.str fp)) fuel = Some (Returned true, trace) ->
  path_exists (Pathlib.str fp) (fs d1) = true ->
  keyword_clash cfg = false ->
  ocrmypdf_ocr env (Pathlib.str fp) (Pathlib.str out) (DESKEW cfg)
    (OCR_JSON_SETTINGS cfg) (fs d1) (times d1) = OcrExit 0 w2 t2 ->
  path_exists (Pathlib.str out) w2 = true ->
  files w2 !! Pathlib.str fp = Some bytes ->
  ON_SUCCESS_DELETE cfg = true ->
  exists d',
    execute_ocrmypdf cfg env fuel file_path d = Done tt d'
    /\ files (fs d') = delete (Pathlib.str fp) (files w2)
    /\ dirs (fs d') = dirs w2
    /\ times d' (Pathlib.str out)
       = ((times d1 (Pathlib.str fp)).2, (times d1 (Pathlib.str fp)).2).
Proof. apply execute_deletes. Qed.

Lemma delete_wins_over_archive_witness :
  let cfg : config string := Config "ocr-output" "/processed" false true true false ∅ 1 5 in
  let env : surroundings Z string :=
    Surroundings (2026, 3) (fun _ _ => Opened)
      (fun _ o _ _ w t => OcrExit 0 (World (<[o := "ocr"]> (files w)) (dirs w) (log w)) t) in
  let d := Disk (World {["scan-input/a.pdf" := "scan"]}
                       {["scan-input"; "ocr-output"; "/processed"]} [])
                (fun _ => (3, 7)%Z) [] in
  exists d',
    execute_ocrmypdf cfg env 6 "scan-input/a.pdf" d = Done tt d'
    /\ files (fs d') = delete "scan-input/a.pdf"
                         (<["ocr-output/a.pdf" := "ocr"]> (files (fs d)))
    /\ dirs (fs d') = dirs (fs d)
    /\ times d' "ocr-output/a.pdf" = (7, 7)%Z.
Proof.
  intros cfg env d.
  destruct (delete_wins_over_archive cfg env 6 "scan-input/a.pdf" d
           (Pathlib.of_str "ocr-output/a.pdf") d [GateClose]
           (World (<["ocr-output/a.pdf" := "ocr"]> (files (fs d))) (dirs (fs d)) [])
           (times d) "scan") as (d' & Hrun & Hf & Hd & Ht).
  - reflexivity.
  - reflexivity.
  - reflexivity.
  - reflexivity.
  - reflexivity.
  - reflexivity.
  - reflexivity.
  - reflexivity.
  - exists d'. split; [exact Hrun|]. split; [exact Hf|].
    split; [exact Hd|exact Ht].
Defined.

(** the archive step: the file is renamed onto the archive path, taking its
    time stamps along *)
Lemma move_onto {timestamp} (src dst : string) (d : disk timestamp) bytes :
  files (fs d) !! src = Some bytes -> dst ∉ dirs (fs d) ->
  parent_exists dst (fs d) = true ->
  move src dst d
  = Done tt (Disk (World (<[dst := bytes]> (delete src (files (fs d))))
                         (dirs (fs d)) (log (fs d)))
                  (set_times dst (times d src) (times d)) (journal d)).
Proof.
  intros Hsrc Hdst Hparent. unfold move.
  rewrite (shutil_move_onto _ _ _ _ _ bytes eq_refl Hsrc Hdst Hparent).
  unfold is_dir. by rewrite (bool_decide_eq_false_2 _ Hdst).
Qed.

(** a successful run with [ON_SUCCESS_ARCHIVE] set and [ON_SUCCESS_DELETE]
    off *)
Lemma execute_archives {timestamp json} (cfg : config json)
    (env : surroundings timestamp json) (fuel : nat) (file_path : string)
    d out d1 trace w2 t2 bytes :
  let fp := Pathlib.of_str file_path in
  let archive_path := ARCHIVE_DIRECTORY cfg +:+ "/" +:+ Pathlib.name fp in
  get_output_dir cfg env (OUTPUT_DIRECTORY cfg) (Pathlib.name fp) d = Done out d1 ->
  wait_for_file_ready (RETRIES_LOADING_FILE cfg) (POLL_NEW_FILE_SECONDS cfg)
    (pikepdf_open env (Pathlib.str fp)) fuel = Some (Returned true, trace) ->
  path_exists (Pathlib.str fp) (fs d1) = true ->
  keyword_clash cfg = false ->
  ocrmypdf_ocr env (Pathlib.str fp) (Pathlib.str out) (DESKEW cfg)
    (OCR_JSON_SETTINGS cfg) (fs d1) (times d1) = OcrExit 0 w2 t2 ->
  path_exists (Pathlib.str out) w2 = true ->
  files w2 !! Pathlib.str fp = Some bytes ->
  ON_SUCCESS_DELETE cfg = false -> ON_SUCCESS_ARCHIVE cfg = true ->
  archive_path ∉ dirs w2 -> parent_exists archive_path w2 = true ->
  exists d',
    execute_ocrmypdf cfg env fuel file_path d = Done tt d'
    /\ files (fs d')
       = <[archive_path := bytes]> (delete (Pathlib.str fp) (files w2))
    /\ dirs (fs d') = dirs w2
    /\ times d' archive_path
       = ((times d1 (Pathlib.str fp)).2, (times d1 (Pathlib.str fp)).2).
Proof.
  intros fp archive_path Hout Hgate Hex Hclash Hocr Hthere Hsrc Hdel Harch
    Hnodir Hparent.
  rewrite (execute_reaches_ocr cfg env fuel file_path d out d1 trace 0 w2 t2)
    by done.
  unfold after_ocr. cbn [Z.eqb]. rewrite Hdel, Harch.
  rewrite (IO_bind_done _ _ _ _ _
             (os_utime_run (Pathlib.str out) _ (Disk w2 t2 _) Hthere)).
  rewrite (IO_bind_done (say _) _ _ tt _ eq_refl).
  cbv zeta. fold fp. fold archive_path.
  match goal with |- context [(move _ _ ≫= _) ?d0] =>
    rewrite (IO_bind_done _ _ _ _ _ (move_onto (Pathlib.str fp) archive_path d0
                                      bytes Hsrc Hnodir Hparent)) end.
  rewrite os_utime_run.
  - eexists. split; [done|]. cbn [fs times files dirs].
    by rewrite set_times_eq.
  - cbn [fs]. unfold path_exists, is_file. cbn [files].
    rewrite lookup_insert_eq. by rewrite bool_decide_eq_true_2 by eauto.
Qed.

(** X21.  Archiving, when [ON_SUCCESS_DELETE] is off and the archive path
    [ARCHIVE_DIRECTORY + "/" + name] is another path than the input's: after
    a successful run the input's bytes are at the archive path, where an
    older file of that name is replaced without notice, the input's own path
    is free, and both time stamps of the archived file are the modification
    time the input had before the engine ran. *)
Theorem archive_replaces_older_copy {timestamp json} (cfg : config json)
    (env : surroundings timestamp json) (fuel : nat) (file_path : string)
    d out d1 trace w2 t2 bytes :
  let fp := Pathlib.of_str file_path in
  let archive_path := ARCHIVE_DIRECTORY cfg +:+ "/" +:+ Pathlib.name fp in
  get_output_dir cfg env (OUTPUT_DIRECTORY cfg) (Pathlib.name fp) d = Done out d1 ->
  wait_for_file_ready (RETRIES_LOADING_FILE cfg) (POLL_NEW_FILE_SECONDS cfg)
    (pikepdf_open env (Pathlib.str fp)) fuel = Some (Returned true, trace) ->
  path_exists (Pathlib.str fp) (fs d1) = true ->
  keyword_clash cfg = false ->
  ocrmypdf_ocr env (Pathlib.str fp) (Pathlib.str out) (DESKEW cfg)
    (OCR_JSON_SETTINGS cfg) (fs d1) (times d1) = OcrExit 0 w2 t2 ->
  path_exists (Pathlib.str out) w2 = true ->
  files w2 !! Pathlib.str fp = Some bytes ->
  ON_SUCCESS_DELETE cfg = false -> ON_SUCCESS_ARCHIVE cfg = true ->
  archive_path ∉ dirs w2 -> parent_exists archive_path w2 = true ->
  archive_path <> Pathlib.str fp ->
  exists d',
    execute_ocrmypdf cfg env fuel file_path d = Done tt d'
    /\ files (fs d')
       = <[archive_path := bytes]> (delete (Pathlib.str fp) (files w2))
    /\ files (fs d') !! archive_path = Some bytes
    /\ files (fs d') !! Pathlib.str fp = None
    /\ dirs (fs d') = dirs w2
    /\ times d' archive_path
       = ((times d1 (Pathlib.str fp)).2, (times d1 (Pathlib.str fp)).2).
Proof.
  intros fp archive_path Hout Hgate Hex Hclash Hocr Hthere Hsrc Hdel Harch
    Hnodir Hparent Hne.
  destruct (execute_archives cfg env fuel file_path d out d1 trace w2 t2 bytes)
    as (d' & Hrun & Hf & Hd & Ht); try done.
  exists d'. split; [done|]. split; [done|]. fold fp archive_path in Hf.
  rewrite Hf. split; [apply lookup_insert_eq|].
  split; [|done]. rewrite lookup_insert_ne by done. apply lookup_delete_eq.
Qed.

Lemma archive_replaces_older_copy_witness :
  let cfg : config string := Config "ocr-output" "/processed" false false true false ∅ 1 5 in
  let env : surroundings Z string :=
    Surroundings (2026, 3) (fun _ _ => Opened)
      (fun _ o _ _ w t => OcrExit 0 (World (<[o := "ocr"]> (files w)) (dirs w) (log w)) t) in
  let d := Disk (World {["scan-input/a.pdf" := "new scan";
                         "/processed/a.pdf" := "old scan"]}
                       {["scan-input"; "ocr-output"; "/processed"]} [])
                (fun _ => (3, 7)%Z) [] in
  exists d',
    execute_ocrmypdf cfg env 6 "scan-input/a.pdf" d = Done tt d'
    /\ files (fs d') !! "/processed/a.pdf" = Some "new scan"
    /\ files (fs d') !! "scan-input/a.pdf" = None
    /\ times d' "/processed/a.pdf" = (7, 7)%Z.
Proof.
  intros cfg env d.
  destruct (archive_replaces_older_copy cfg env 6 "scan-input/a.pdf" d
           (Pathlib.of_str "ocr-output/a.pdf") d [GateClose]
           (World (<["ocr-output/a.pdf" := "ocr"]> (files (fs d))) (dirs (fs d)) [])
           (times d) "new scan") as (d' & Hrun & _ & Hthere & Hfree & _ & Ht).
  - reflexivity.
  - reflexivity.
  - reflexivity.
  - reflexivity.
  - reflexivity.
  - reflexivity.
  - reflexivity.
  - reflexivity.
  - reflexivity.
  - refine (bool_decide_unpack _ _). vm_compute. exact I.
  - reflexivity.
  - discriminate.
  - exists d'. split; [exact Hrun|]. split; [exact Hthere|].
    split; [exact Hfree|exact Ht].
Defined.

(** X22.  With neither switch set, a successful run changes nothing after
    the engine has returned except the time stamps of the output: its access
    time and its modification time are both set to the modification time the
    input had before the engine ran. *)
Theorem output_takes_input_mtime {timestamp json} (cfg : config json)
    (env : surroundings timestamp json) (fuel : nat) (file_path : string)
    d out d1 trace w2 t2 :
  let fp := Pathlib.of_str file_path in
  get_output_dir cfg env (OUTPUT_DIRECTORY cfg) (Pathlib.name fp) d = Done out d1 ->
  wait_for_file_ready (RETRIES_LOADING_FILE cfg) (POLL_NEW_FILE_SECONDS cfg)
    (pikepdf_open env (Pathlib.str fp)) fuel = Some (Returned true, trace) ->
  path_exists (Pathlib.str fp) (fs d1) = true ->
  keyword_clash cfg = false ->
  ocrmypdf_ocr env (Pathlib.str fp) (Pathlib.str out) (DESKEW cfg)
    (OCR_JSON_SETTINGS cfg) (fs d1) (times d1) = OcrExit 0 w2 t2 ->
  path_exists (Pathlib.str out) w2 = true ->
  ON_SUCCESS_DELETE cfg = false -> ON_SUCCESS_ARCHIVE cfg = false ->
  exists d',
    execute_ocrmypdf cfg env fuel file_path d = Done tt d'
    /\ fs d' = w2
    /\ times d' (Pathlib.str out)
       = ((times d1 (Pathlib.str fp)).2, (times d1 (Pathlib.str fp)).2)
    /\ (forall q, q <> Pathlib.str out -> times d' q = t2 q).
Proof.
  intros fp Hout Hgate Hex Hclash Hocr Hthere Hdel Harch.
  rewrite (execute_reaches_ocr cfg env fuel file_path d out d1 trace 0 w2 t2)
    by done.
  unfold after_ocr. cbn [Z.eqb]. rewrite Hdel, Harch.
  rewrite (IO_bind_done _ _ _ _ _
             (os_utime_run (Pathlib.str out) _ (Disk w2 t2 _) Hthere)).
  eexists. split; [done|]. cbn [fs times]. rewrite set_times_eq.
  repeat split. intros q Hq. by apply set_times_ne.
Qed.

Lemma output_takes_input_mtime_witness :
  let cfg : config string := Config "ocr-output" "/processed" false false false false ∅ 1 5 in
  let env : surroundings Z string :=
    Surroundings (2026, 3) (fun _ _ => Opened)
      (fun _ o _ _ w t =>
         OcrExit 0 (World (<[o := "ocr"]> (files w)) (dirs w) (log w))
                 (set_times o (50, 50)%Z t)) in
  let d := Disk (World {["scan-input/a.pdf" := "scan"]}
                       {["scan-input"; "ocr-output"]} [])
                (fun _ => (3, 7)%Z) [] in
  exists d',
    execute_ocrmypdf cfg env 6 "scan-input/a.pdf" d = Done tt d'
    /\ times d' "ocr-output/a.pdf" = (7, 7)%Z.
Proof.
  intros cfg env d.
  destruct (output_takes_input_mtime cfg env 6 "scan-input/a.pdf" d
           (Pathlib.of_str "ocr-output/a.pdf") d [GateClose]
           (World (<["ocr-output/a.pdf" := "ocr"]> (files (fs d))) (dirs (fs d)) [])
           (set_times "ocr-output/a.pdf" (50, 50)%Z (times d)))
    as (d' & Hrun & _ & Ht & _).
  - reflexivity.
  - reflexivity.
  - reflexivity.
  - reflexivity.
  - reflexivity.
  - reflexivity.
  - reflexivity.
  - reflexivity.
  - exists d'. split; [exact Hrun|exact Ht].
Defined.

(** X23.  The start-up check of [main] turns down only the keys
    [input_file] and [output_file]: settings with the key [deskew] pass it,
    and then every run of the stage on a file that is ready ends in a
    [TypeError] at the call of the engine, which repeats the keyword.  The
    engine does not run and nothing is changed after the gate. *)
Theorem deskew_setting_breaks_every_run {timestamp json} (cfg : config json)
    (env : surroundings timestamp json) (fuel : nat) (file_path : string)
    d out d1 trace value :
  let fp := Pathlib.of_str file_path in
  OCR_JSON_SETTINGS cfg !! "deskew" = Some value ->
  OCR_JSON_SETTINGS cfg !! "input_file" = None ->
  OCR_JSON_SETTINGS cfg !! "output_file" = None ->
  get_output_dir cfg env (OUTPUT_DIRECTORY cfg) (Pathlib.name fp) d = Done out d1 ->
  wait_for_file_ready (RETRIES_LOADING_FILE cfg) (POLL_NEW_FILE_SECONDS cfg)
    (pikepdf_open env (Pathlib.str fp)) fuel = Some (Returned true, trace) ->
  path_exists (Pathlib.str fp) (fs d1) = true ->
  main_settings_check cfg = None
  /\ exists d',
       execute_ocrmypdf cfg env fuel file_path d = Failed TypeError d'
       /\ fs d' = fs d1 /\ times d' = times d1.
Proof.
  intros fp Hdeskew Hin Hout_key Hout Hgate Hex. split.
  { unfold main_settings_check. rewrite Hin, Hout_key.
    by rewrite bool_decide_eq_false_2 by (by intros []). }
  unfold execute_ocrmypdf. fold fp. cbv zeta.
  rewrite (IO_bind_done _ _ _ _ _ Hout).
  rewrite (IO_bind_done (say _) _ d1 tt _ eq_refl).
  rewrite (IO_bind_done (say _) _ _ tt _ eq_refl).
  rewrite (IO_bind_done _ _ _ _ _ (gate_run cfg env fuel _ _ _ _ Hgate)).
  cbn [negb]. rewrite (IO_bind_done (say _) _ _ tt _ eq_refl).
  rewrite (IO_bind_done _ _ _ _ _
             (stat_mtime_run fp (Disk (fs d1) (times d1) _) Hex)).
  rewrite (IO_bind_done _ _ _ _ _
             (stat_mtime_run fp (Disk (fs d1) (times d1) _) Hex)).
  assert (keyword_clash cfg = true) as Hclash.
  { unfold keyword_clash, explicit_keywords. simpl. rewrite Hdeskew.
    rewrite (bool_decide_eq_true_2 (is_Some (Some value))) by eauto.
    by rewrite !orb_true_r. }
  eexists. split.
  - apply IO_bind_failed. unfold call_ocr. by rewrite Hclash.
  - done.
Qed.

Lemma deskew_setting_breaks_every_run_witness :
  let cfg : config string :=
    Config "ocr-output" "/processed" false false false false
           {["deskew" := "true"]} 1 5 in
  let env : surroundings Z string :=
    Surroundings (2026, 3) (fun _ _ => Opened)
      (fun _ o _ _ w t => OcrExit 0 (World (<[o := "ocr"]> (files w)) (dirs w) (log w)) t) in
  let d := Disk (World {["scan-input/a.pdf" := "scan"]}
                       {["scan-input"; "ocr-output"]} [])
                (fun _ => (3, 7)%Z) [] in
  main_settings_check cfg = None
  /\ exists d',
       execute_ocrmypdf cfg env 6 "scan-input/a.pdf" d = Failed TypeError d'
       /\ fs d' = fs d /\ times d' = times d.
Proof.
  intros cfg env d.
  apply (deskew_setting_breaks_every_run cfg env 6 "scan-input/a.pdf" d
           (Pathlib.of_str "ocr-output/a.pdf") d [GateClose] "true").
  - reflexivity.
  - reflexivity.
  - reflexivity.
  - reflexivity.
  - reflexivity.
  - reflexivity.
Defined.

(** X24.  The two calls of the event handler (lines 140-141) in sequence,
    with [ON_SUCCESS_DELETE] set: once the ingest stage has run with success
    the input is gone, so [process_pdf] on the same path reads nothing,
    classifies nothing and moves nothing; the OCR output stays under the name
    of the input. *)
Theorem deleted_input_is_not_classified {timestamp json} (cfg : config json)
    (env : surroundings timestamp json) pdfminer io_fault (fuel : nat)
    (file_path : string) d out d1 trace w2 t2 bytes :
  Pathlib.str (Pathlib.of_str file_path) = file_path ->
  get_output_dir cfg env (OUTPUT_DIRECTORY cfg)
    (Pathlib.name (Pathlib.of_str file_path)) d = Done out d1 ->
  wait_for_file_ready (RETRIES_LOADING_FILE cfg) (POLL_NEW_FILE_SECONDS cfg)
    (pikepdf_open env file_path) fuel = Some (Returned true, trace) ->
  path_exists file_path (fs d1) = true ->
  keyword_clash cfg = false ->
  ocrmypdf_ocr env file_path (Pathlib.str out) (DESKEW cfg)
    (OCR_JSON_SETTINGS cfg) (fs d1) (times d1) = OcrExit 0 w2 t2 ->
  path_exists (Pathlib.str out) w2 = true ->
  files w2 !! file_path = Some bytes -> file_path ∉ dirs w2 ->
  ON_SUCCESS_DELETE cfg = true ->
  exists d' w',
    execute_ocrmypdf cfg env fuel file_path d = Done tt d'
    /\ process_pdf pdfminer io_fault file_path (fs d') = Ok tt w'
    /\ files w' = delete file_path (files w2)
    /\ dirs w' = dirs w2.
Proof.
  intros Hnormal Hout Hgate Hex Hclash Hocr Hthere Hsrc Hnodir Hdel.
  destruct (execute_deletes cfg env fuel file_path d out d1 trace w2 t2 bytes)
    as (d' & Hrun & Hf & Hd & _); rewrite ?Hnormal; try done.
  rewrite Hnormal in Hf.
  destruct (process_pdf_missing pdfminer io_fault file_path (fs d'))
    as (w' & Hp & Hf' & Hd').
  - rewrite Hf. apply lookup_delete_eq.
  - by rewrite Hd.
  - exists d', w'. rewrite Hf', Hd'. by rewrite Hf, Hd.
Qed.

Lemma deleted_input_is_not_classified_witness :
  let cfg : config string := Config "ocr-output" "/processed" false true false false ∅ 1 5 in
  let env : surroundings Z string :=
    Surroundings (2026, 3) (fun _ _ => Opened)
      (fun _ o _ _ w t => OcrExit 0 (World (<[o := "PO-20-0002"]> (files w)) (dirs w) (log w)) t) in
  let d := Disk (World {["scan-input/a.pdf" := "PO-20-0002"]}
                       {["scan-input"; "ocr-output"; "final-output"]} [])
                (fun _ => (3, 7)%Z) [] in
  exists d' w',
    execute_ocrmypdf cfg env 6 "scan-input/a.pdf" d = Done tt d'
    /\ process_pdf Some (fun _ => false) "scan-input/a.pdf" (fs d') = Ok tt w'
    /\ files w' !! "scan-input/a.pdf" = None
    /\ files w' !! "ocr-output/a.pdf" = Some "PO-20-0002"
    /\ dirs w' = dirs (fs d).
Proof.
  intros cfg env d.
  destruct (deleted_input_is_not_classified cfg env Some (fun _ => false) 6
              "scan-input/a.pdf" d (Pathlib.of_str "ocr-output/a.pdf") d
              [GateClose]
              (World (<["ocr-output/a.pdf" := "PO-20-0002"]> (files (fs d)))
                     (dirs (fs d)) [])
              (times d) "PO-20-0002") as (d' & w' & Hrun & Hp & Hf & Hd).
  - reflexivity.
  - reflexivity.
  - reflexivity.
  - reflexivity.
  - reflexivity.
  - reflexivity.
  - reflexivity.
  - reflexivity.
  - refine (bool_decide_unpack _ _). vm_compute. exact I.
  - reflexivity.
  - exists d', w'. split; [exact Hrun|]. split; [exact Hp|].
    rewrite Hf. split; [reflexivity|]. split; [reflexivity|exact Hd].
Defined.

(** * The stage comes to an end *)

Lemma ends_bind {timestamp A B} (m : IO (timestamp:=timestamp) A) (k : A -> IO B) :
  ends m -> (forall a, ends (k a)) -> ends (m ≫= k).
Proof.
  intros Hm Hk d. unfold mbind, IO_bind, IO_then. specialize (Hm d).
  destruct (m d); [apply Hk|done|done].
Qed.

Lemma ends_say {timestamp} ev : ends (timestamp:=timestamp) (say ev).
Proof. by intros d. Qed.

Lemma ends_ret {timestamp A} (a : A) : ends (timestamp:=timestamp) (mret a).
Proof. by intros d. Qed.

Lemma ends_os_utime {timestamp} p (x : timestamp * timestamp) : ends (os_utime p x).
Proof. intros d. unfold os_utime. by destruct (path_exists _ _). Qed.

Lemma ends_stat_mtime {timestamp} p : ends (timestamp:=timestamp) (stat_mtime p).
Proof. intros d. unfold stat_mtime. by destruct (path_exists _ _). Qed.

Lemma ends_unlink {timestamp} p : ends (timestamp:=timestamp) (unlink p).
Proof.
  intros d. unfold unlink. destruct (files _ !! _); [done|].
  by destruct (is_dir _ _).
Qed.

Lemma ends_move {timestamp} src dst : ends (timestamp:=timestamp) (move src dst).
Proof.
  intros d. unfold move.
  pose proof (returns_shutil_move (fun _ => false) AtMoveFinal src dst (fs d)) as H.
  by destruct (shutil_move _ _ _ _ _).
Qed.

Lemma ends_get_output_dir {timestamp json} (cfg : config json)
    (env : surroundings timestamp json) root basename :
  ends (get_output_dir cfg env root basename).
Proof.
  intros d. pose proof (get_output_dir_frame cfg env root basename d) as H.
  by destruct (get_output_dir _ _ _ _ _).
Qed.

Lemma ends_call_ocr {timestamp json} (cfg : config json)
    (env : surroundings timestamp json) i o :
  ends (call_ocr cfg env i o).
Proof.
  intros d. unfold call_ocr. destruct (keyword_clash cfg); [done|].
  by destruct (ocrmypdf_ocr _ _ _ _ _ _ _).
Qed.

Lemma ends_after_ocr {timestamp json} (cfg : config json) fp out
    (c m : timestamp) code :
  ends (after_ocr cfg fp out c m code).
Proof.
  unfold after_ocr. destruct (code =? 0)%Z; [|apply ends_say].
  apply ends_bind; [apply ends_os_utime|]. intros _.
  destruct (ON_SUCCESS_DELETE cfg).
  { apply ends_bind; [apply ends_say|]. intros _. apply ends_unlink. }
  destruct (ON_SUCCESS_ARCHIVE cfg); [|apply ends_say].
  apply ends_bind; [apply ends_say|]. intros _.
  apply ends_bind; [apply ends_move|]. intros _. apply ends_os_utime.
Qed.

(** X25.  With a budget of retries that is not negative, the ingest stage
    comes to an end on every file and from every state of the disk, whatever
    [pikepdf.open] and the engine do: its only loop is the gate's. *)
Theorem ingest_stage_ends {timestamp json} (cfg : config json)
    (env : surroundings timestamp json) (fuel r : nat) (file_path : string) :
  RETRIES_LOADING_FILE cfg = Z.of_nat r -> r < fuel ->
  ends (execute_ocrmypdf cfg env fuel file_path).
Proof.
  intros Hr Hfuel. unfold execute_ocrmypdf. cbv zeta.
  apply ends_bind; [apply ends_get_output_dir|]. intros out.
  apply ends_bind; [apply ends_say|]. intros _.
  apply ends_bind; [apply ends_say|]. intros _.
  apply ends_bind.
  { intros d. unfold gate, wait_for_file_ready. rewrite Hr.
    destruct (wait_loop_bounded (POLL_NEW_FILE_SECONDS cfg)
                (pikepdf_open env (Pathlib.str (Pathlib.of_str file_path)))
                r fuel 0 [] Hfuel) as (res & trace & -> & _).
    by destruct res. }
  intros ready. destruct ready; cbn [negb]; [|apply ends_say].
  apply ends_bind; [apply ends_say|]. intros _.
  apply ends_bind; [apply ends_stat_mtime|]. intros c.
  apply ends_bind; [apply ends_stat_mtime|]. intros m.
  apply ends_bind; [apply ends_call_ocr|]. intros code.
  apply ends_after_ocr.
Qed.

Lemma ingest_stage_ends_witness :
  let cfg : config string := Config "ocr-output" "/processed" true false true false ∅ 1 5 in
  let env : surroundings Z string :=
    Surroundings (2026, 3) (fun _ _ => NotFound) (fun _ _ _ _ w t => OcrRaises w t) in
  ends (execute_ocrmypdf cfg env 6 "scan-input/a.pdf").
Proof.
  intros cfg env.
  apply (ingest_stage_ends cfg env 6 5 "scan-input/a.pdf").
  - reflexivity.
  - lia.
Defined.

(** X26.  When the archive path of a document is its output path (the
    archive directory is the output directory), archiving puts the input in
    the place of the OCR result: after a successful run the output path
    holds the bytes of the input, not what the engine wrote there, and the
    input's own path is free. *)
Theorem archive_onto_output_loses_ocr {timestamp json} (cfg : config json)
    (env : surroundings timestamp json) (fuel : nat) (file_path : string)
    d out d1 trace w2 t2 bytes ocr_bytes :
  let fp := Pathlib.of_str file_path in
  get_output_dir cfg env (OUTPUT_DIRECTORY cfg) (Pathlib.name fp) d = Done out d1 ->
  wait_for_file_ready (RETRIES_LOADING_FILE cfg) (POLL_NEW_FILE_SECONDS cfg)
    (pikepdf_open env (Pathlib.str fp)) fuel = Some (Returned true, trace) ->
  path_exists (Pathlib.str fp) (fs d1) = true ->
  keyword_clash cfg = false ->
  ocrmypdf_ocr env (Pathlib.str fp) (Pathlib.str out) (DESKEW cfg)
    (OCR_JSON_SETTINGS cfg) (fs d1) (times d1) = OcrExit 0 w2 t2 ->
  files w2 !! Pathlib.str out = Some ocr_bytes ->
  files w2 !! Pathlib.str fp = Some bytes ->
  ON_SUCCESS_DELETE cfg = false -> ON_SUCCESS_ARCHIVE cfg = true ->
  ARCHIVE_DIRECTORY cfg +:+ "/" +:+ Pathlib.name fp = Pathlib.str out ->
  Pathlib.str out ∉ dirs w2 -> parent_exists (Pathlib.str out) w2 = true ->
  Pathlib.str fp <> Pathlib.str out ->
  exists d',
    execute_ocrmypdf cfg env fuel file_path d = Done tt d'
    /\ files (fs d') !! Pathlib.str out = Some bytes
    /\ files (fs d') !! Pathlib.str fp = None.
Proof.
  intros fp Hout Hgate Hex Hclash Hocr Hres Hsrc Hdel Harch Hsame Hnodir
    Hparent Hne.
  destruct (execute_archives cfg env fuel file_path d out d1 trace w2 t2 bytes)
    as (d' & Hrun & Hf & _); try done.
  - unfold path_exists, is_file. rewrite Hres.
    by rewrite bool_decide_eq_true_2 by eauto.
  - fold fp. by rewrite Hsame.
  - fold fp. by rewrite Hsame.
  - exists d'. split; [done|]. fold fp in Hf. rewrite Hsame in Hf. rewrite Hf.
    split; [apply lookup_insert_eq|].
    rewrite lookup_insert_ne by done. apply lookup_delete_eq.
Qed.

Lemma archive_onto_output_loses_ocr_witness :
  let cfg : config string := Config "ocr-output" "ocr-output" false false true false ∅ 1 5 in
  let env : surroundings Z string :=
    Surroundings (2026, 3) (fun _ _ => Opened)
      (fun _ o _ _ w t => OcrExit 0 (World (<[o := "ocr"]> (files w)) (dirs w) (log w)) t) in
  let d := Disk (World {["scan-input/a.pdf" := "scan"]}
                       {["scan-input"; "ocr-output"]} [])
                (fun _ => (3, 7)%Z) [] in
  exists d',
    execute_ocrmypdf cfg env 6 "scan-input/a.pdf" d = Done tt d'
    /\ files (fs d') !! "ocr-output/a.pdf" = Some "scan"
    /\ files (fs d') !! "scan-input/a.pdf" = None.
Proof.
  intros cfg env d.
  destruct (archive_onto_output_loses_ocr cfg env 6 "scan-input/a.pdf" d
           (Pathlib.of_str "ocr-output/a.pdf") d [GateClose]
           (World (<["ocr-output/a.pdf" := "ocr"]> (files (fs d))) (dirs (fs d)) [])
           (times d) "scan" "ocr") as (d' & Hrun & Hf1 & Hf2).
  - reflexivity.
  - reflexivity.
  - reflexivity.
  - reflexivity.
  - reflexivity.
  - reflexivity.
  - reflexivity.
  - reflexivity.
  - reflexivity.
  - reflexivity.
  - refine (bool_decide_unpack _ _). vm_compute. exact I.
  - reflexivity.
  - discriminate.
  - exists d'. split; [exact Hrun|]. split; [exact Hf1|exact Hf2].
Defined.

(** * Where [final-output] is missing *)


